(** * domhome-cli: the Zigbee device abstraction and command translation layer

    A shallow embedding of the TypeScript sources
    - [src/zigbee/services/zigbee.service.ts]         (module [ZigbeeService]),
    - [src/zigbee/services/zigbee-device.service.ts]  (module [ZigbeeDeviceService]),
    - [src/zigbee/coordinator.ts]                     (module [ZigbeeCoordinator]),
    - [src/zigbee/deviceRegistry.ts], [src/zigbee/actions.ts]
                                                      (modules [DeviceRegistry], [Actions]),
    - [src/cli/menu.ts] (module [Menu]) and [src/config.ts] (module [Config]),
    and the properties of the specification stated and settled over it,
    followed by further properties read off the sources.

    Conventions of the embedding.
    - A JavaScript [number] is an exact rational ([Q]); where a method
      computes on a number through [Math.round], [Math.min] or [Math.max],
      the number may also be NaN ([Js.number]), which these builtins hand
      on. The infinities and the rounding of binary64 arithmetic are
      outside the model.
    - A JavaScript [Map] is the finite map of its entries together with
      the list of its keys in insertion order, the order it iterates in.
    - A JavaScript object used as a record of optional attributes is a
      [gmap string val]; object spread is the left-biased union of maps.
    - [async] methods are run to completion: a method is a function from the
      state before the call to an outcome (resolved or rejected) and the
      state after it. What the external collaborators (the zigbee-herdsman
      controller, its endpoints, the converters of zigbee-herdsman-converters)
      answer is part of the state the method runs in. *)

From Stdlib Require Import QArith Qround ZArith String List Bool Lia DecimalString.
From stdpp Require Import gmap strings list fin_maps.

Local Open Scope Z_scope.
Local Open Scope string_scope.

(** ** JavaScript values and the builtins the sources use *)

Module Js.

#[local] Set Warnings "-register-all".

(** The values that travel in command payloads and cached states. *)
Inductive val : Type :=
| VUndef
| VBool (b : bool)
| VNum (q : Q)
| VNaN
| VStr (s : string)
| VObj (fields : list (string * val)).

(** A number that a method computes on: NaN or a rational. *)
Inductive number : Type :=
| NaN
| Num (q : Q).

(** The number as a value. *)
Definition of_number (x : number) : val :=
  match x with
  | NaN => VNaN
  | Num q => VNum q
  end.

(** [x > y] on numbers. *)
Definition gt (x y : Q) : bool := negb (Qle_bool x y).

(** [Math.round]: nearest integer, ties towards +infinity. *)
Definition round (x : Q) : Z := Qfloor (x + (1 # 2))%Q.

(** Arithmetic with constants on a number that may be NaN: NaN gives NaN. *)
Definition arith (f : Q -> Q) (x : number) : number :=
  match x with
  | NaN => NaN
  | Num q => Num (f q)
  end.

(** [Math.round], [Math.max] and [Math.min] on numbers that may be NaN:
    each returns NaN as soon as an argument is NaN. *)
Definition Math_round (x : number) : number :=
  match x with
  | NaN => NaN
  | Num q => Num (inject_Z (round q))
  end.

Definition Math_max (x y : number) : number :=
  match x, y with
  | Num a, Num b => Num (if Qle_bool a b then b else a)
  | _, _ => NaN
  end.

Definition Math_min (x y : number) : number :=
  match x, y with
  | Num a, Num b => Num (if Qle_bool a b then a else b)
  | _, _ => NaN
  end.

(** Truthiness, as tested by [if (v)], [!v] and [c ? a : b]. *)
Definition truthy (v : val) : bool :=
  match v with
  | VUndef => false
  | VBool b => b
  | VNum q => negb (Qeq_bool q 0)
  | VNaN => false
  | VStr s => negb (String.eqb s "")
  | VObj _ => true
  end.

(** [msg.includes(pat)] on strings. *)
Definition includes (msg pat : string) : bool :=
  match String.index 0 pat msg with
  | Some _ => true
  | None => false
  end.

(** The outcome of awaiting a promise. *)
Inductive outcome (E A : Type) : Type :=
| Resolved (a : A)
| Rejected (e : E).
Arguments Resolved {E A} a.
Arguments Rejected {E A} e.

End Js.

Import Js.

(** ** The external collaborators, as the sources observe them *)

Module Herdsman.

(** An endpoint of a device. [read cluster attributes] answers the
    attribute object or rejects ([None]); [command cluster name] resolves
    ([true]) or rejects. *)
Record Endpoint : Type := {
  ID : Z;
  inputClusters : list Z;
  outputClusters : list Z;
  read : string -> list string -> option (gmap string val);
  command : string -> string -> bool
}.

Record Device : Type := {
  ieeeAddr : string;
  type : string;
  networkAddress : Z;
  manufacturerName : option string;
  modelID : option string;
  powerSource : option string;
  interviewState : string;
  interviewCompleted : bool;
  lastSeen : option Z;
  endpoints : list Endpoint
}.

(** [device.getEndpoint(id)]. *)
Definition getEndpoint (d : Device) (id : Z) : option Endpoint :=
  List.find (fun e => Z.eqb (ID e) id) (endpoints d).

(** The controller: the devices of its database and what its transport
    calls answer ([None]: resolves, [Some msg]: rejects with [msg]). *)
Record Controller : Type := {
  devices : list Device;
  start_rejects : option string;
  start_result : string;
  stop_rejects : option string;
  permitJoin_rejects : option string
}.

(** [controller.getDeviceByIeeeAddr(addr)]. *)
Definition getDeviceByIeeeAddr (c : Controller) (addr : string) : option Device :=
  List.find (fun d => String.eqb (ieeeAddr d) addr) (devices c).

End Herdsman.

(** zigbee-herdsman-converters: the definition of a device model. *)
Module Zhc.

(** What [convertSet] answers: it throws, or returns a result that may
    carry a [state] to cache ([result?.state]). *)
Inductive ConvertOutcome : Type :=
| Throws (msg : string)
| Returns (result : option (option (gmap string val))).

(** A toZigbee converter; [convertSet endpointID key value message]. *)
Record Converter : Type := {
  key : option (list string);
  convertSet : option (Z -> string -> val -> gmap string val -> ConvertOutcome)
}.

(** An entry of [exposes]: its [type] and [name] properties when it has
    them. *)
Record Expose : Type := {
  expose_type : option string;
  expose_name : option string
}.

Record Definition_ : Type := {
  toZigbee : option (list Converter);
  exposes : option (list Expose)
}.

(** [zhc.findByDevice]: the catalog lookup. *)
Definition Catalog : Type := Herdsman.Device -> option Definition_.

End Zhc.

(** ** [zigbee.types.ts] *)

Module Types.

Inductive ZigbeeDeviceType : Type := LIGHT | SWITCH | PLUG | SENSOR | UNKNOWN.

Inductive ZigbeeDevicePowerState : Type := ON | OFF | TOGGLE.

(** The enum members are the strings ['ON'], ['OFF'], ['TOGGLE']. *)
Definition power_val (p : ZigbeeDevicePowerState) : val :=
  match p with
  | ON => VStr "ON"
  | OFF => VStr "OFF"
  | TOGGLE => VStr "TOGGLE"
  end.

(** [ZigbeeDeviceState]: every attribute is optional, so a state is the
    finite map of the attributes it has. *)
Abbreviation ZigbeeDeviceState := (gmap string val).

Record ZigbeeDevice : Type := {
  ieeeAddr : string;
  networkAddress : Z;
  friendlyName : option string;
  manufacturerName : option string;
  modelId : option string;
  type : ZigbeeDeviceType;
  powerSource : option string;
  interviewCompleted : bool;
  lastSeen : option Z;
  state : ZigbeeDeviceState
}.

(** The payloads of [ZigbeeEventPayload], tagged by their [ZigbeeEvent]. *)
Inductive ZigbeeEvent : Type :=
| DEVICE_JOINED (device : ZigbeeDevice)
| DEVICE_LEFT (addr : string)
| DEVICE_INTERVIEW (device : ZigbeeDevice) (status : string)
| DEVICE_ANNOUNCE (device : ZigbeeDevice)
| MESSAGE (device : ZigbeeDevice) (type_ cluster : string) (data : gmap string val)
| STATE_CHANGE (device : ZigbeeDevice) (state_ : ZigbeeDeviceState)
| ADAPTER_DISCONNECTED
| PERMIT_JOIN_CHANGED (permitJoin : bool) (timeout : option Q).

(** [LightControlOptions['color']]. *)
Record ColorOptions : Type := {
  hex : option string;
  rgb : option (Q * Q * Q);
  hue : option Q;
  saturation : option Q
}.

Record LightControlOptions : Type := {
  opt_state : option ZigbeeDevicePowerState;
  brightness : option number;
  color_temp : option Q;
  transition : option Q;
  color : option ColorOptions
}.

End Types.

Import Types.

(** ** [zigbee.service.ts]: the coordinator service, device map and state cache *)

Module ZigbeeService.

(** The fields of the class. [devices] and [order] are the [Map] of
    devices: its entries, and its keys in insertion order. [emitted] is the
    log of [eventEmitter.emit], oldest first. The catalog is what
    [zhc.findByDevice] answers. *)
Record t : Type := {
  controller : option Herdsman.Controller;
  devices : gmap string ZigbeeDevice;
  order : list string;
  permitJoinEnabled : bool;
  isStarted : bool;
  emitted : list ZigbeeEvent;
  catalog : Zhc.Catalog
}.

Definition emit (e : ZigbeeEvent) (s : t) : t :=
  {| controller := controller s; devices := devices s; order := order s;
     permitJoinEnabled := permitJoinEnabled s; isStarted := isStarted s;
     emitted := emitted s ++ [e]; catalog := catalog s |}.

Definition set_devices (m : gmap string ZigbeeDevice) (s : t) : t :=
  {| controller := controller s; devices := m; order := order s;
     permitJoinEnabled := permitJoinEnabled s; isStarted := isStarted s;
     emitted := emitted s; catalog := catalog s |}.

Definition set_order (keys : list string) (s : t) : t :=
  {| controller := controller s; devices := devices s; order := keys;
     permitJoinEnabled := permitJoinEnabled s; isStarted := isStarted s;
     emitted := emitted s; catalog := catalog s |}.

(** The keys after [map.set(key, _)]: a key of the map keeps its place, a
    new key goes last. *)
Definition keySet (key : string) (keys : list string) : list string :=
  if bool_decide (key ∈ keys) then keys else keys ++ [key].

(** The keys after [map.delete(key)]. *)
Definition keyDelete (key : string) (keys : list string) : list string :=
  List.filter (fun k => negb (String.eqb k key)) keys.

(** [this.devices.set(key, device)], [this.devices.delete(key)] and
    [this.devices.clear()]. *)
Definition devices_set (key : string) (device : ZigbeeDevice) (s : t) : t :=
  set_order (keySet key (order s)) (set_devices (<[key := device]> (devices s)) s).

Definition devices_delete (key : string) (s : t) : t :=
  set_order (keyDelete key (order s)) (set_devices (delete key (devices s)) s).

Definition devices_clear (s : t) : t := set_order [] (set_devices ∅ s).

Definition set_isStarted (b : bool) (s : t) : t :=
  {| controller := controller s; devices := devices s; order := order s;
     permitJoinEnabled := permitJoinEnabled s; isStarted := b;
     emitted := emitted s; catalog := catalog s |}.

Definition set_permitJoinEnabled (b : bool) (s : t) : t :=
  {| controller := controller s; devices := devices s; order := order s;
     permitJoinEnabled := b; isStarted := isStarted s;
     emitted := emitted s; catalog := catalog s |}.

Definition set_controller (c : option Herdsman.Controller) (s : t) : t :=
  {| controller := c; devices := devices s; order := order s;
     permitJoinEnabled := permitJoinEnabled s; isStarted := isStarted s;
     emitted := emitted s; catalog := catalog s |}.

(** The instance as constructed: no controller, no device, pairing off. *)
Definition init (cat : Zhc.Catalog) : t :=
  {| controller := None; devices := ∅; order := []; permitJoinEnabled := false;
     isStarted := false; emitted := []; catalog := cat |}.

(** [determineDeviceType]: the first expose that decides. *)
Fixpoint scanExposes (l : list Zhc.Expose) : ZigbeeDeviceType :=
  match l with
  | [] => UNKNOWN
  | e :: rest =>
      match Zhc.expose_type e with
      | Some "light" => LIGHT
      | Some "switch" => PLUG
      | _ =>
          match Zhc.expose_name e with
          | Some "power" => PLUG
          | _ => scanExposes rest
          end
      end
  end.

Definition determineDeviceType (cat : Zhc.Catalog) (d : Herdsman.Device) : ZigbeeDeviceType :=
  match cat d with
  | None => UNKNOWN
  | Some definition =>
      match Zhc.exposes definition with
      | None => UNKNOWN
      | Some exposesArray => scanExposes exposesArray
      end
  end.

(** [mapDevice]: a fresh [ZigbeeDevice] with an empty cached state. *)
Definition mapDevice (cat : Zhc.Catalog) (d : Herdsman.Device) : ZigbeeDevice :=
  {| ieeeAddr := Herdsman.ieeeAddr d;
     networkAddress := Herdsman.networkAddress d;
     friendlyName := Some (Herdsman.ieeeAddr d);
     manufacturerName := Herdsman.manufacturerName d;
     modelId := Herdsman.modelID d;
     type := determineDeviceType cat d;
     powerSource := Herdsman.powerSource d;
     interviewCompleted := String.eqb (Herdsman.interviewState d) "SUCCESSFUL";
     lastSeen :=
       match Herdsman.lastSeen d with
       | Some ms => if Z.eqb ms 0 then None else Some ms
       | None => None
       end;
     state := ∅ |}.

(** [loadExistingDevices]: every device of the controller but the
    coordinator itself, in order, is set in the map. [loadDevices] gives the
    entries of the map after the loop and [loadOrder] its keys. *)
Fixpoint loadDevices (cat : Zhc.Catalog) (l : list Herdsman.Device)
    (m : gmap string ZigbeeDevice) : gmap string ZigbeeDevice :=
  match l with
  | [] => m
  | d :: rest =>
      if String.eqb (Herdsman.type d) "Coordinator" then loadDevices cat rest m
      else
        let mapped := mapDevice cat d in
        loadDevices cat rest (<[ieeeAddr mapped := mapped]> m)
  end.

Fixpoint loadOrder (l : list Herdsman.Device) (keys : list string) : list string :=
  match l with
  | [] => keys
  | d :: rest =>
      if String.eqb (Herdsman.type d) "Coordinator" then loadOrder rest keys
      else loadOrder rest (keySet (Herdsman.ieeeAddr d) keys)
  end.

Definition loadExistingDevices (s : t) : t :=
  match controller s with
  | None => s
  | Some c =>
      set_order (loadOrder (Herdsman.devices c) (order s))
        (set_devices (loadDevices (catalog s) (Herdsman.devices c) (devices s)) s)
  end.

(** [start]: [fresh] is the controller that [new Controller(...)] builds. *)
Definition start (fresh : Herdsman.Controller) (s : t) : outcome string unit * t :=
  if isStarted s then (Resolved tt, s)
  else
    let s1 := set_controller (Some fresh) s in
    match Herdsman.start_rejects fresh with
    | Some err => (Rejected err, s1)
    | None => (Resolved tt, loadExistingDevices (set_isStarted true s1))
    end.

(** [stop]. *)
Definition stop (s : t) : outcome string unit * t :=
  match controller s with
  | None => (Resolved tt, s)
  | Some c =>
      if negb (isStarted s) then (Resolved tt, s)
      else
        match Herdsman.stop_rejects c with
        | Some err => (Rejected err, s)
        | None => (Resolved tt, devices_clear (set_isStarted false s))
        end
  end.

(** [permitJoin(permit, timeout = 254)]. *)
Definition permitJoin (permit : bool) (timeout : option Q) (s : t) : outcome string unit * t :=
  let timeout := default 254%Q timeout in
  match controller s with
  | None => (Rejected "Le coordinateur Zigbee n'est pas démarré", s)
  | Some c =>
      if negb (isStarted s) then (Rejected "Le coordinateur Zigbee n'est pas démarré", s)
      else
        match Herdsman.permitJoin_rejects c with
        | Some err => (Rejected err, s)
        | None =>
            (Resolved tt,
             emit (PERMIT_JOIN_CHANGED permit (if permit then Some timeout else None))
                  (set_permitJoinEnabled permit s))
        end
  end.

Definition isPermitJoinEnabled (s : t) : bool := permitJoinEnabled s.

(** [getDevices]: the values of the map, in the insertion order of their
    keys. *)
Definition getDevices (s : t) : list ZigbeeDevice :=
  omap (fun key => devices s !! key) (order s).

Definition getDevice (s : t) (addr : string) : option ZigbeeDevice := devices s !! addr.

Definition getHerdsmanDevice (s : t) (addr : string) : option Herdsman.Device :=
  match controller s with
  | None => None
  | Some c => Herdsman.getDeviceByIeeeAddr c addr
  end.

Definition getDeviceDefinition (s : t) (d : Herdsman.Device) : option Zhc.Definition_ :=
  catalog s d.

(** The listeners of [setupEventListeners] that change the fields. *)
Definition onDeviceLeave (addr : string) (s : t) : t :=
  emit (DEVICE_LEFT addr) (devices_delete addr s).

Definition onAdapterDisconnected (s : t) : t :=
  emit ADAPTER_DISCONNECTED (set_isStarted false s).

Definition onDeviceJoined (d : Herdsman.Device) (s : t) : t :=
  let device := mapDevice (catalog s) d in
  emit (DEVICE_JOINED device) (devices_set (ieeeAddr device) device s).

Definition onDeviceInterview (d : Herdsman.Device) (status : string) (s : t) : t :=
  let device := mapDevice (catalog s) d in
  let s1 :=
    if String.eqb status "successful"
    then devices_set (ieeeAddr device) device s
    else s in
  emit (DEVICE_INTERVIEW device status) s1.

Definition onDeviceAnnounce (d : Herdsman.Device) (s : t) : t :=
  let device := mapDevice (catalog s) d in
  emit (DEVICE_ANNOUNCE device) (devices_set (ieeeAddr device) device s).

(** The overlay [{ ...prior, ...partial }]: the attributes of [partial]
    win, the others are those of [prior]. *)
Definition merge (prior partial : ZigbeeDeviceState) : ZigbeeDeviceState :=
  partial ∪ prior.

(** [updateDeviceState(ieeeAddr, state)] at time [now]: the device object
    of the map is assigned its new [state] and [lastSeen] where it is, so
    the keys of the map are as they were. *)
Definition updateDeviceState (now : Z) (addr : string) (partial : ZigbeeDeviceState)
    (s : t) : t :=
  match devices s !! addr with
  | None => s
  | Some device =>
      let device' :=
        {| ieeeAddr := ieeeAddr device;
           networkAddress := networkAddress device;
           friendlyName := friendlyName device;
           manufacturerName := manufacturerName device;
           modelId := modelId device;
           type := type device;
           powerSource := powerSource device;
           interviewCompleted := interviewCompleted device;
           lastSeen := Some now;
           state := merge (state device) partial |} in
      emit (STATE_CHANGE device' (state device'))
           (set_devices (<[addr := device']> (devices s)) s)
  end.

End ZigbeeService.

(** ** [zigbee-device.service.ts]: the command translator *)

Module ZigbeeDeviceService.

(** One call of [converter.convertSet(endpoint, command, value, meta)]:
    the low-level command handed to the converters. *)
Record Command : Type := {
  cmd_addr : string;
  cmd_endpoint : Z;
  cmd_key : string;
  cmd_value : val;
  cmd_message : gmap string val
}.

(** One call of [endpoint.read(cluster, attributes)]. *)
Record Query : Type := {
  q_addr : string;
  q_endpoint : Z;
  q_cluster : string;
  q_attributes : list string
}.

(** What a method runs in: the injected [ZigbeeService], the calls made so
    far to converters and endpoints (oldest first) and the clock read by
    [new Date()]. *)
Record World : Type := {
  service : ZigbeeService.t;
  issued : list Command;
  queried : list Query;
  now : Z
}.

(** The errors the methods throw: the four [new Error(...)] of
    [sendCommand] and [readState], and what a converter threw. *)
Inductive Error : Type :=
| DeviceNotFound (addr : string)
| DefinitionNotFound (addr : string)
| EndpointNotFound (addr : string)
| ConverterNotFound (command : string)
| ConverterFailure (msg : string).

(** A method: the outcome of awaiting it and the world it leaves. A
    rejection keeps the world reached when the error was thrown. *)
Definition M (A : Type) : Type := World -> outcome Error A * World.

Definition ret {A : Type} (a : A) : M A := fun w => (Resolved a, w).

Definition throw {A : Type} (e : Error) : M A := fun w => (Rejected e, w).

Definition bind {A B : Type} (m : M A) (k : A -> M B) : M B :=
  fun w =>
    match m w with
    | (Resolved a, w') => k a w'
    | (Rejected e, w') => (Rejected e, w')
    end.

Notation "'let*' x ':=' m 'in' k" := (bind m (fun x => k))
  (at level 10, x name, m at level 100, k at level 200).

Notation "m ';;' k" := (bind m (fun _ => k))
  (at level 100, k at level 200, right associativity).

(** [if (!x) throw e]. *)
Definition require {A : Type} (o : option A) (e : Error) : M A :=
  match o with
  | Some a => ret a
  | None => throw e
  end.

Definition when (b : bool) (m : M unit) : M unit := if b then m else ret tt.

Definition gets {A : Type} (f : World -> A) : M A := fun w => (Resolved (f w), w).

Definition log_command (c : Command) : M unit :=
  fun w => (Resolved tt,
            {| service := service w; issued := issued w ++ [c];
               queried := queried w; now := now w |}).

Definition log_query (q : Query) : M unit :=
  fun w => (Resolved tt,
            {| service := service w; issued := issued w;
               queried := queried w ++ [q]; now := now w |}).

(** [this.zigbeeService.updateDeviceState(ieeeAddr, state)]. *)
Definition updateDeviceState (addr : string) (partial : ZigbeeDeviceState) : M unit :=
  fun w => (Resolved tt,
            {| service := ZigbeeService.updateDeviceState (now w) addr partial (service w);
               issued := issued w; queried := queried w; now := now w |}).

(** [herdsmanDevice.getEndpoint(1) || herdsmanDevice.endpoints[0]]. *)
Definition defaultEndpoint (d : Herdsman.Device) : option Herdsman.Endpoint :=
  match Herdsman.getEndpoint d 1 with
  | Some e => Some e
  | None => head (Herdsman.endpoints d)
  end.

(** [c.key?.includes(command)]. *)
Definition handles (command : string) (c : Zhc.Converter) : bool :=
  match Zhc.key c with
  | Some keys => existsb (String.eqb command) keys
  | None => false
  end.

(** [definition.toZigbee?.find((c) => c.key?.includes(command))]. *)
Definition findConverter (definition : Zhc.Definition_) (command : string) :
    option Zhc.Converter :=
  match Zhc.toZigbee definition with
  | Some cs => List.find (handles command) cs
  | None => None
  end.

(** [sendCommand]. The message of the meta object is
    [{ [command]: value, ...options }]. *)
Definition sendCommand (addr command : string) (value : val)
    (options : gmap string val) : M unit :=
  let* svc := gets service in
  let* herdsmanDevice :=
    require (ZigbeeService.getHerdsmanDevice svc addr) (DeviceNotFound addr) in
  let* definition :=
    require (ZigbeeService.getDeviceDefinition svc herdsmanDevice)
            (DefinitionNotFound addr) in
  let* endpoint := require (defaultEndpoint herdsmanDevice) (EndpointNotFound addr) in
  let* converter := require (findConverter definition command)
                            (ConverterNotFound command) in
  let message := options ∪ {[command := value]} in
  match Zhc.convertSet converter with
  | None => ret tt
  | Some convertSet =>
      log_command {| cmd_addr := addr; cmd_endpoint := Herdsman.ID endpoint;
                     cmd_key := command; cmd_value := value;
                     cmd_message := message |};;
      match convertSet (Herdsman.ID endpoint) command value message with
      | Zhc.Throws msg => throw (ConverterFailure msg)
      | Zhc.Returns (Some (Some st)) => updateDeviceState addr st
      | Zhc.Returns _ => ret tt
      end
  end.

(** The own properties of an options object, as spread by [...options]. *)
Definition opt_field (name : string) (o : option val) (m : gmap string val) :
    gmap string val :=
  match o with
  | Some v => <[name := v]> m
  | None => m
  end.

Definition opt_pairs (l : list (string * option val)) : list (string * val) :=
  omap (fun p => match p.2 with Some v => Some (p.1, v) | None => None end) l.

Definition colorFields (c : ColorOptions) : val :=
  VObj (opt_pairs
    [("hex", VStr <$> hex c);
     ("rgb", (fun t => VObj [("r", VNum t.1.1); ("g", VNum t.1.2); ("b", VNum t.2)])
               <$> rgb c);
     ("hue", VNum <$> hue c);
     ("saturation", VNum <$> saturation c)]).

Definition optionsFields (o : option LightControlOptions) : gmap string val :=
  match o with
  | None => ∅
  | Some o =>
      opt_field "state" (power_val <$> opt_state o)
        (opt_field "brightness" (Js.of_number <$> brightness o)
          (opt_field "color_temp" (VNum <$> color_temp o)
            (opt_field "transition" (VNum <$> transition o)
              (opt_field "color" (colorFields <$> color o) ∅))))
  end.

(** [const options = {}; if (transition !== undefined) options.transition
    = transition]. *)
Definition transitionOptions (transition : option Q) : gmap string val :=
  opt_field "transition" (VNum <$> transition) ∅.

(** The native brightness: [Math.max(0, Math.min(254, Math.round((b / 100)
    * 254)))]. *)
Definition clampedBrightness (brightness : number) : number :=
  let zigbeeBrightness := Js.Math_round (Js.arith (fun b => (b / 100) * 254)%Q brightness) in
  Js.Math_max (Num 0) (Js.Math_min (Num 254) zigbeeBrightness).

Definition setBrightness (addr : string) (brightness : number) (transition : option Q) :
    M unit :=
  sendCommand addr "brightness" (Js.of_number (clampedBrightness brightness))
              (transitionOptions transition).

(** [colorTemp > 500 ? Math.round(1000000 / colorTemp) : colorTemp]. *)
Definition mireds (colorTemp : Q) : Q :=
  if Js.gt colorTemp 500 then inject_Z (Js.round (1000000 / colorTemp)%Q)
  else colorTemp.

Definition setColorTemperature (addr : string) (colorTemp : Q)
    (transition : option Q) : M unit :=
  sendCommand addr "color_temp" (VNum (mireds colorTemp)) (transitionOptions transition).

Section Color.

(** The conversion of a number to a string in a template literal. *)
Variable numberToString : Q -> string.

Definition rgbString (c : Q * Q * Q) : string :=
  numberToString c.1.1 ++ "," ++ numberToString c.1.2 ++ "," ++ numberToString c.2.

(** The payload [setColor] forwards for a color object, if any: the chain
    [if (color.hex) ... else if (color.rgb) ... else if (color.hue !==
    undefined && color.saturation !== undefined) ...]. *)
Definition colorPayload (c : ColorOptions) : option val :=
  let otherwise :=
    match rgb c with
    | Some t => Some (VObj [("rgb", VStr (rgbString t))])
    | None =>
        match hue c, saturation c with
        | Some h, Some s => Some (VObj [("hue", VNum h); ("saturation", VNum s)])
        | _, _ => None
        end
    end in
  match hex c with
  | Some h =>
      if String.eqb h "" then otherwise else Some (VObj [("hex", VStr h)])
  | None => otherwise
  end.

Definition setColor (addr : string) (color : option ColorOptions)
    (transition : option Q) : M unit :=
  match color with
  | None => ret tt
  | Some c =>
      match colorPayload c with
      | Some payload => sendCommand addr "color" payload (transitionOptions transition)
      | None => ret tt
      end
  end.

(** [turnOnLight(ieeeAddr, options?)]. *)
Definition turnOnLight (addr : string) (options : option LightControlOptions) :
    M unit :=
  sendCommand addr "state" (power_val ON) (optionsFields options);;
  match options ≫= brightness with
  | Some b => setBrightness addr b (options ≫= transition)
  | None => ret tt
  end;;
  match options ≫= color_temp with
  | Some ct => setColorTemperature addr ct (options ≫= transition)
  | None => ret tt
  end;;
  match options ≫= color with
  | Some c => setColor addr (Some c) (options ≫= transition)
  | None => ret tt
  end.

End Color.

Definition turnOffLight (addr : string) : M unit :=
  sendCommand addr "state" (power_val OFF) ∅.

Definition toggleLight (addr : string) : M unit :=
  sendCommand addr "state" (power_val TOGGLE) ∅.

Definition turnOn (addr : string) : M unit :=
  sendCommand addr "state" (power_val ON) ∅.

Definition turnOff (addr : string) : M unit :=
  sendCommand addr "state" (power_val OFF) ∅.

Definition toggle (addr : string) : M unit :=
  sendCommand addr "state" (power_val TOGGLE) ∅.

(** One [try { r = await endpoint.read(cluster, attrs); state[k] = f(r) }
    catch { }] of [readState]: the query is made, and its answer, if any,
    sets one attribute of the object under construction. *)
Definition tryRead (addr : string) (endpoint : Herdsman.Endpoint)
    (cluster : string) (attributes : list string) (k : string)
    (f : gmap string val -> val) (st : ZigbeeDeviceState) : M ZigbeeDeviceState :=
  log_query {| q_addr := addr; q_endpoint := Herdsman.ID endpoint;
               q_cluster := cluster; q_attributes := attributes |};;
  match Herdsman.read endpoint cluster attributes with
  | Some r => ret (<[k := f r]> st)
  | None => ret st
  end.

(** [r.attr]: the property, or [undefined]. *)
Definition prop (attr : string) (r : gmap string val) : val :=
  default VUndef (r !! attr).

(** [readState]. *)
Definition readState (addr : string) : M ZigbeeDeviceState :=
  let* svc := gets service in
  let* herdsmanDevice :=
    require (ZigbeeService.getHerdsmanDevice svc addr) (DeviceNotFound addr) in
  let* endpoint := require (defaultEndpoint herdsmanDevice) (EndpointNotFound addr) in
  let* st1 := tryRead addr endpoint "genOnOff" ["onOff"] "state"
                (fun r => power_val (if Js.truthy (prop "onOff" r) then ON else OFF)) ∅ in
  let* st2 := tryRead addr endpoint "genLevelCtrl" ["currentLevel"] "brightness"
                (prop "currentLevel") st1 in
  let* st3 := tryRead addr endpoint "lightingColorCtrl" ["colorTemperature"] "color_temp"
                (prop "colorTemperature") st2 in
  updateDeviceState addr st3;;
  ret st3.

End ZigbeeDeviceService.

(** ** [coordinator.ts]: the lifecycle of the command-line coordinator *)

Module ZigbeeCoordinator.

(** The fields of the class, with the two settings of [AppConfig] that its
    error messages quote. *)
Record t : Type := {
  controller : option Herdsman.Controller;
  started : bool;
  serialPort : string;
  adapter : string
}.

(** [CoordinatorError], by the message it is built with. *)
Inductive CoordinatorError : Type :=
| PortNotFound (port : string)
| PermissionDenied (port : string)
| PortBusy (port : string)
| DongleUnresponsive (port : string) (isLegacy : bool)
| StartFailed (msg : string)
| NotRunning.

Definition make (port adapter_ : string) : t :=
  {| controller := None; started := false; serialPort := port; adapter := adapter_ |}.

Definition update (c : option Herdsman.Controller) (b : bool) (s : t) : t :=
  {| controller := c; started := b; serialPort := serialPort s; adapter := adapter s |}.

(** The hints of the [catch] block of [start], first match first. *)
Definition classify (s : t) (msg : string) : CoordinatorError :=
  if Js.includes msg "ENOENT" || Js.includes msg "no such file" then
    PortNotFound (serialPort s)
  else if Js.includes msg "EACCES" || Js.includes msg "Permission denied" then
    PermissionDenied (serialPort s)
  else if Js.includes msg "EBUSY" || Js.includes msg "resource busy" then
    PortBusy (serialPort s)
  else if Js.includes msg "HOST_FATAL_ERROR" || Js.includes msg "Failure to connect"
          || Js.includes msg "RSTACK" || Js.includes msg "Bootloader"
          || Js.includes msg "EZSP could not connect" then
    DongleUnresponsive (serialPort s) (String.eqb (adapter s) "ezsp")
  else StartFailed msg.

(** [start]: [fresh] is the controller [createController] builds. *)
Definition start (fresh : Herdsman.Controller) (s : t) :
    outcome CoordinatorError string * t :=
  if started s then (Resolved "already-started", s)
  else
    match Herdsman.start_rejects fresh with
    | None => (Resolved (Herdsman.start_result fresh), update (Some fresh) true s)
    | Some msg => (Rejected (classify s msg), update None false s)
    end.

(** [stop]: the guard, then [try { await controller.stop() } catch { log }
    finally { started = false; controller = null }]. *)
Definition stop (s : t) : outcome CoordinatorError unit * t :=
  if negb (started s) then (Resolved tt, s)
  else
    match controller s with
    | None => (Resolved tt, s)
    | Some c =>
        match Herdsman.stop_rejects c with
        | Some _ => (Resolved tt, update None false s)
        | None => (Resolved tt, update None false s)
        end
    end.

Definition isRunning (s : t) : bool := started s.

(** [assertRunning] followed by [return this.controller!]. *)
Definition getController (s : t) : outcome CoordinatorError Herdsman.Controller :=
  if negb (started s) then Rejected NotRunning
  else
    match controller s with
    | None => Rejected NotRunning
    | Some c => Resolved c
    end.

(** The [adapterDisconnected] listener of [registerEvents]. *)
Definition onAdapterDisconnected (s : t) : t := update (controller s) false s.

(** What the application can do to a coordinator. *)
Inductive step : t -> t -> Prop :=
| step_start fresh s : step s (start fresh s).2
| step_stop s : step s (stop s).2
| step_disconnect s : step s (onAdapterDisconnected s).

(** The states a coordinator built by [new ZigbeeCoordinator(config)] can
    be in. *)
Inductive reachable : t -> Prop :=
| reachable_make port adapter_ : reachable (make port adapter_)
| reachable_step s s' : reachable s -> step s s' -> reachable s'.

End ZigbeeCoordinator.

(** ** [deviceRegistry.ts] and [actions.ts]: On/Off dispatch *)

Module DeviceRegistry.

(** The errors of the command-line dispatch path. *)
Inductive Error : Type :=
| CoordinatorError (e : ZigbeeCoordinator.CoordinatorError)
| DeviceNotFoundError (identifier : string)
| UnsupportedActionError (action deviceName : string)
| CommandRejected.

Record DeviceInfo : Type := {
  ieeeAddr : string;
  friendlyName : string;
  type : string;
  modelID : option string;
  manufacturerName : option string;
  powerSource : option string;
  interviewCompleted : bool;
  lastSeen : option Z;
  endpointIds : list Z;
  supportsOnOff : bool
}.

Definition CLUSTER_ON_OFF : Z := 6.

(** [clusters.includes(CLUSTER_ON_OFF)]. *)
Definition hasOnOff (clusters : list Z) : bool := existsb (Z.eqb CLUSTER_ON_OFF) clusters.

Definition describe (dev : Herdsman.Device) : DeviceInfo :=
  {| ieeeAddr := Herdsman.ieeeAddr dev;
     friendlyName := default (Herdsman.ieeeAddr dev) (Herdsman.modelID dev);
     type := Herdsman.type dev;
     modelID := Herdsman.modelID dev;
     manufacturerName := Herdsman.manufacturerName dev;
     powerSource := Herdsman.powerSource dev;
     interviewCompleted := Herdsman.interviewCompleted dev;
     lastSeen := Herdsman.lastSeen dev;
     endpointIds := map Herdsman.ID (Herdsman.endpoints dev);
     supportsOnOff :=
       existsb (fun ep => hasOnOff (Herdsman.inputClusters ep)
                          || hasOnOff (Herdsman.outputClusters ep))
               (Herdsman.endpoints dev) |}.

(** [listDevices]. *)
Definition listDevices (coordinator : ZigbeeCoordinator.t) :
    outcome Error (list DeviceInfo) :=
  match ZigbeeCoordinator.getController coordinator with
  | Rejected e => Rejected (CoordinatorError e)
  | Resolved ctrl =>
      Resolved (map describe
        (filter (fun dev => negb (String.eqb (Herdsman.type dev) "Coordinator"))
                (Herdsman.devices ctrl)))
  end.

(** [findDevice]. *)
Definition findDevice (coordinator : ZigbeeCoordinator.t) (addr : string) :
    outcome Error DeviceInfo :=
  match listDevices coordinator with
  | Rejected e => Rejected e
  | Resolved l =>
      match List.find (fun d => String.eqb (ieeeAddr d) addr) l with
      | Some d => Resolved d
      | None => Rejected (DeviceNotFoundError addr)
      end
  end.

(** [getHerdsmanDevice]. *)
Definition getHerdsmanDevice (coordinator : ZigbeeCoordinator.t) (addr : string) :
    outcome Error Herdsman.Device :=
  match ZigbeeCoordinator.getController coordinator with
  | Rejected e => Rejected (CoordinatorError e)
  | Resolved ctrl =>
      match Herdsman.getDeviceByIeeeAddr ctrl addr with
      | Some device => Resolved device
      | None => Rejected (DeviceNotFoundError addr)
      end
  end.

(** [find(input has On/Off) ?? find(output has On/Off)]. *)
Definition onOffEndpointOf (device : Herdsman.Device) : option Herdsman.Endpoint :=
  match List.find (fun e => hasOnOff (Herdsman.inputClusters e)) (Herdsman.endpoints device) with
  | Some ep => Some ep
  | None =>
      List.find (fun e => hasOnOff (Herdsman.outputClusters e)) (Herdsman.endpoints device)
  end.

(** [getOnOffEndpoint]: [undefined] when no endpoint has the cluster. *)
Definition getOnOffEndpoint (coordinator : ZigbeeCoordinator.t) (addr : string) :
    outcome Error (option Herdsman.Endpoint) :=
  match getHerdsmanDevice coordinator addr with
  | Rejected e => Rejected e
  | Resolved device => Resolved (onOffEndpointOf device)
  end.

End DeviceRegistry.

Module Actions.

Import DeviceRegistry.

Inductive OnOffAction : Type := on | off | toggle.

Definition actionName (a : OnOffAction) : string :=
  match a with
  | on => "on"
  | off => "off"
  | toggle => "toggle"
  end.

(** One call of [ep.command(cluster, command, {})]. *)
Record Sent : Type := {
  sent_addr : string;
  sent_endpoint : Z;
  sent_cluster : string;
  sent_command : string
}.

(** [sendOnOff(registry, ieeeAddr, action)]: its outcome and the endpoint
    commands it issued, in order. *)
Definition sendOnOff (coordinator : ZigbeeCoordinator.t) (addr : string)
    (action : OnOffAction) : outcome Error unit * list Sent :=
  match getOnOffEndpoint coordinator addr with
  | Rejected e => (Rejected e, [])
  | Resolved None => (Rejected (UnsupportedActionError (actionName action) addr), [])
  | Resolved (Some ep) =>
      let call := {| sent_addr := addr; sent_endpoint := Herdsman.ID ep;
                     sent_cluster := "genOnOff"; sent_command := actionName action |} in
      if Herdsman.command ep "genOnOff" (actionName action)
      then (Resolved tt, [call])
      else (Rejected CommandRejected, [call])
  end.

End Actions.

(** ** Vocabulary of the properties, and concrete installations *)

Module Spec.

Import ZigbeeDeviceService.

(** The low-level commands a call issued: what it appended to the log. *)
Definition commandsOf {A : Type} (m : M A) (w : World) : list Command :=
  drop (length (issued w)) (issued (m w).2).

(** The endpoint queries a call made. *)
Definition queriesOf {A : Type} (m : M A) (w : World) : list Query :=
  drop (length (queried w)) (queried (m w).2).

(** Where [sendCommand] dispatches a command: the endpoint and the
    [convertSet] of the first converter that handles the key, when the
    device, its definition, an endpoint and such a converter exist. *)
Definition resolve (svc : ZigbeeService.t) (addr command : string) :
    option (Z * (Z -> string -> val -> gmap string val -> Zhc.ConvertOutcome)) :=
  hd ← ZigbeeService.getHerdsmanDevice svc addr;
  definition ← ZigbeeService.getDeviceDefinition svc hd;
  ep ← defaultEndpoint hd;
  converter ← findConverter definition command;
  f ← Zhc.convertSet converter;
  Some (Herdsman.ID ep, f).

(** [clamp(x, lo, hi)] as the specification words it. *)
Definition clamp (x lo hi : Z) : Z :=
  if (x <? lo)%Z then lo else if (hi <? x)%Z then hi else x.

(** The command [sendCommand] hands to the converter of endpoint [ep]. *)
Definition commandTo (addr : string) (ep : Z) (key : string) (value : val)
    (options : gmap string val) : Command :=
  {| cmd_addr := addr; cmd_endpoint := ep; cmd_key := key; cmd_value := value;
     cmd_message := options ∪ {[key := value]} |}.

(** The world after a command is logged, and after a state is cached. *)
Definition logged (c : Command) (w : World) : World := (log_command c w).2.

Definition cached (addr : string) (st : ZigbeeDeviceState) (w : World) : World :=
  (updateDeviceState addr st w).2.

(** The query [readState] makes of a cluster. *)
Definition queryOf (addr : string) (ep : Herdsman.Endpoint) (cluster : string)
    (attributes : list string) : Query :=
  {| q_addr := addr; q_endpoint := Herdsman.ID ep; q_cluster := cluster;
     q_attributes := attributes |}.

(** ['ON'] or ['OFF'] by the truthiness of the [onOff] attribute read. *)
Definition onOffState (r : gmap string val) : val :=
  power_val (if Js.truthy (prop "onOff" r) then ON else OFF).

(** The key and value of a command. *)
Definition kv (c : Command) : string * val := (cmd_key c, cmd_value c).

(** Running sub-calls one after the other: the first rejection stops the
    sequence and the world is left as that sub-call left it. *)
Fixpoint runAll (ms : list (M unit)) : M unit :=
  match ms with
  | [] => ret tt
  | m :: rest =>
      fun w =>
        match m w with
        | (Resolved _, w') => runAll rest w'
        | (Rejected e, w') => (Rejected e, w')
        end
  end.

Definition optionally {A : Type} (o : option A) (f : A -> M unit) : list (M unit) :=
  match o with
  | Some a => [f a]
  | None => []
  end.

(** The sub-calls of [turnOnLight], in the order of the specification. *)
Definition subcalls (numberToString : Q -> string) (addr : string)
    (options : option LightControlOptions) : list (M unit) :=
  [sendCommand addr "state" (power_val ON) (optionsFields options)]
  ++ optionally (options ≫= brightness)
       (fun b => setBrightness addr b (options ≫= transition))
  ++ optionally (options ≫= color_temp)
       (fun ct => setColorTemperature addr ct (options ≫= transition))
  ++ optionally (options ≫= color)
       (fun c => setColor numberToString addr (Some c) (options ≫= transition)).

(** The commands of a complete [turnOnLight], by key and value. *)
Definition expected (numberToString : Q -> string)
    (options : option LightControlOptions) : list (string * val) :=
  [("state", power_val ON)]
  ++ match options ≫= brightness with
     | Some b => [("brightness", Js.of_number (clampedBrightness b))]
     | None => []
     end
  ++ match options ≫= color_temp with
     | Some ct => [("color_temp", VNum (mireds ct))]
     | None => []
     end
  ++ match options ≫= color with
     | Some c =>
         match colorPayload numberToString c with
         | Some payload => [("color", payload)]
         | None => []
         end
     | None => []
     end.

(** Nothing is undone from [w] to [w']: the commands logged in [w] are the
    first ones logged in [w'], and every cached device is still cached
    with at least the attributes it had. *)
Definition keeps (w w' : World) : Prop :=
  issued w `prefix_of` issued w'
  /\ forall a d, ZigbeeService.devices (service w) !! a = Some d ->
       exists d', ZigbeeService.devices (service w') !! a = Some d'
                  /\ dom (state d) ⊆ dom (state d').

(** The controller and the catalog, which decide where commands go, are
    the same in [w'] as in [w]. *)
Definition sameTargets (w w' : World) : Prop :=
  ZigbeeService.controller (service w') = ZigbeeService.controller (service w)
  /\ ZigbeeService.catalog (service w') = ZigbeeService.catalog (service w).

(** A call on the device [addr] that issues, in order, some of the commands
    [kvs] and nothing else, undoes nothing, and issues all of [kvs] when
    the device has a converter for each key and the call resolves. *)
Definition behaves (addr : string) (m : M unit) (kvs : list (string * val)) : Prop :=
  forall w, exists l,
    issued (m w).2 = (issued w ++ l)%list
    /\ sublist (map kv l) kvs
    /\ keeps w (m w).2
    /\ sameTargets w (m w).2
    /\ ((forall key, key ∈ kvs.*1 -> is_Some (resolve (service w) addr key)) ->
        (m w).1 = Resolved tt -> map kv l = kvs).

(** A hex string is skipped when it is absent or empty. *)
Definition hexSkipped (c : ColorOptions) : Prop := hex c = None \/ hex c = Some "".

(** The same device, controller and coordinator with another interview
    status on every device. *)
Definition withInterview (completed : bool) (status : string)
    (d : Herdsman.Device) : Herdsman.Device :=
  {| Herdsman.ieeeAddr := Herdsman.ieeeAddr d;
     Herdsman.type := Herdsman.type d;
     Herdsman.networkAddress := Herdsman.networkAddress d;
     Herdsman.manufacturerName := Herdsman.manufacturerName d;
     Herdsman.modelID := Herdsman.modelID d;
     Herdsman.powerSource := Herdsman.powerSource d;
     Herdsman.interviewState := status;
     Herdsman.interviewCompleted := completed;
     Herdsman.lastSeen := Herdsman.lastSeen d;
     Herdsman.endpoints := Herdsman.endpoints d |}.

Definition controllerWithInterview (completed : bool) (status : string)
    (c : Herdsman.Controller) : Herdsman.Controller :=
  {| Herdsman.devices := map (withInterview completed status) (Herdsman.devices c);
     Herdsman.start_rejects := Herdsman.start_rejects c;
     Herdsman.start_result := Herdsman.start_result c;
     Herdsman.stop_rejects := Herdsman.stop_rejects c;
     Herdsman.permitJoin_rejects := Herdsman.permitJoin_rejects c |}.

Definition coordinatorWithInterview (completed : bool) (status : string)
    (s : ZigbeeCoordinator.t) : ZigbeeCoordinator.t :=
  ZigbeeCoordinator.update
    (controllerWithInterview completed status <$> ZigbeeCoordinator.controller s)
    (ZigbeeCoordinator.started s) s.

(** The endpoint command of an On/Off action. *)
Definition onOffCall (addr : string) (ep : Herdsman.Endpoint)
    (action : Actions.OnOffAction) : Actions.Sent :=
  {| Actions.sent_addr := addr; Actions.sent_endpoint := Herdsman.ID ep;
     Actions.sent_cluster := "genOnOff";
     Actions.sent_command := Actions.actionName action |}.

End Spec.

Module Demo.

Import ZigbeeDeviceService.

(** Integer-valued numbers print as their decimal numeral. *)
Definition showNumber (q : Q) : string :=
  DecimalString.NilZero.string_of_int (Z.to_int (Qnum q)).

Definition addr : string := "0x00158d0001234567".

(** An endpoint on which only the On/Off cluster answers reads. *)
Definition endpoint1 : Herdsman.Endpoint :=
  {| Herdsman.ID := 1;
     Herdsman.inputClusters := [0; 6];
     Herdsman.outputClusters := [];
     Herdsman.read := fun cluster _ =>
       if String.eqb cluster "genOnOff" then Some {[ "onOff" := VNum 1 ]} else None;
     Herdsman.command := fun _ _ => true |}.

(** A device whose interview has not completed. *)
Definition bulb : Herdsman.Device :=
  {| Herdsman.ieeeAddr := addr;
     Herdsman.type := "Router";
     Herdsman.networkAddress := 4660;
     Herdsman.manufacturerName := Some "IKEA";
     Herdsman.modelID := Some "TRADFRI bulb";
     Herdsman.powerSource := Some "Mains (single phase)";
     Herdsman.interviewState := "PENDING";
     Herdsman.interviewCompleted := false;
     Herdsman.lastSeen := None;
     Herdsman.endpoints := [endpoint1] |}.

Definition radio : Herdsman.Controller :=
  {| Herdsman.devices := [bulb];
     Herdsman.start_rejects := None;
     Herdsman.start_result := "resumed";
     Herdsman.stop_rejects := None;
     Herdsman.permitJoin_rejects := None |}.

(** A converter that acknowledges a set by echoing the attribute. *)
Definition echo (keys : list string) : Zhc.Converter :=
  {| Zhc.key := Some keys;
     Zhc.convertSet := Some (fun _ k v _ => Zhc.Returns (Some (Some {[ k := v ]}))) |}.

Definition lightDefinition : Zhc.Definition_ :=
  {| Zhc.toZigbee := Some [echo ["state"]; echo ["brightness"];
                           echo ["color_temp"]; echo ["color"]];
     Zhc.exposes := Some [{| Zhc.expose_type := Some "light"; Zhc.expose_name := None |}] |}.

(** A plug: its definition handles [state] only. *)
Definition plugDefinition : Zhc.Definition_ :=
  {| Zhc.toZigbee := Some [echo ["state"]];
     Zhc.exposes := Some [{| Zhc.expose_type := Some "switch"; Zhc.expose_name := None |}] |}.

(** The service after a successful [start] on the radio. *)
Definition startedWith (cat : Zhc.Catalog) : ZigbeeService.t :=
  (ZigbeeService.start radio (ZigbeeService.init cat)).2.

(** The started service after [permitJoin(true, 60)]. *)
Definition pairing : ZigbeeService.t :=
  (ZigbeeService.permitJoin true (Some 60%Q)
     (startedWith (fun _ => Some lightDefinition))).2.

Definition worldOf (svc : ZigbeeService.t) : World :=
  {| service := svc; issued := []; queried := []; now := 1700000000000 |}.

Definition lightWorld : World := worldOf (startedWith (fun _ => Some lightDefinition)).

Definition plugWorld : World := worldOf (startedWith (fun _ => Some plugDefinition)).

(** The coordinator of the command-line application, started on the radio
    and then after the adapter dropped. *)
Definition cli : ZigbeeCoordinator.t :=
  (ZigbeeCoordinator.start radio (ZigbeeCoordinator.make "/dev/ttyUSB0" "ember")).2.

Definition cliDisconnected : ZigbeeCoordinator.t :=
  ZigbeeCoordinator.onAdapterDisconnected cli.

(** Both a hex string, empty, and an RGB triple. *)
Definition emptyHexAndRgb : ColorOptions :=
  {| hex := Some ""; rgb := Some (1, 2, 3)%Q; hue := None; saturation := None |}.

Definition hexAndRgb : ColorOptions :=
  {| hex := Some "#FF5500"; rgb := Some (1, 2, 3)%Q; hue := None; saturation := None |}.

(** A hue and a saturation only. *)
Definition hueOnly : ColorOptions :=
  {| hex := None; rgb := None; hue := Some 120%Q; saturation := Some 80%Q |}.

(** [{ brightness: 80 }] and an options object with every field. *)
Definition dimOptions : LightControlOptions :=
  {| opt_state := None; brightness := Some (Num 80); color_temp := None;
     transition := None; color := None |}.

Definition fullOptions : LightControlOptions :=
  {| opt_state := None; brightness := Some (Num 80); color_temp := Some 4000%Q;
     transition := Some 1%Q; color := Some hexAndRgb |}.

End Demo.

(** ** Further operations of the sources *)

(** [coordinator.ts]: the pairing window of the command-line coordinator. *)
Module Pairing.

(** What a call can be rejected with: [assertRunning] threw, or the
    controller's own [permitJoin] rejected with a message. *)
Inductive Error : Type :=
| NotRunning (e : ZigbeeCoordinator.CoordinatorError)
| ControllerRejected (msg : string).

(** The seconds asked of the controller: [Math.min(Math.max(seconds, 1),
    254)]. *)
Definition joinTime (seconds : number) : number :=
  Js.Math_min (Js.Math_max seconds (Num 1)) (Num 254).

(** [controller.permitJoin(time)]: the outcome and the times asked. *)
Definition ask (c : Herdsman.Controller) (time : number) :
    outcome Error unit * list number :=
  match Herdsman.permitJoin_rejects c with
  | Some msg => (Rejected (ControllerRejected msg), [time])
  | None => (Resolved tt, [time])
  end.

(** [permitJoin(seconds)]. *)
Definition permitJoin (seconds : number) (s : ZigbeeCoordinator.t) :
    outcome Error unit * list number :=
  match ZigbeeCoordinator.getController s with
  | Rejected e => (Rejected (NotRunning e), [])
  | Resolved c => ask c (joinTime seconds)
  end.

(** [disableJoin()]. *)
Definition disableJoin (s : ZigbeeCoordinator.t) : outcome Error unit * list number :=
  match ZigbeeCoordinator.getController s with
  | Rejected e => (Rejected (NotRunning e), [])
  | Resolved c => ask c (Num 0)
  end.

End Pairing.

(** [cli/menu.ts]: the entries of the main menu. *)
Module Menu.

Inductive MenuChoice : Type :=
| StartCoordinator
| StopCoordinator
| PermitJoin
| ListDevices
| ControlDevice
| ShowLogs
| Exit.

Record MenuOption : Type := {
  name : string;
  value : MenuChoice
}.

(** [buildMenu(isRunning)]. *)
Definition buildMenu (isRunning : bool) : list MenuOption :=
  (if negb isRunning then
     [{| name := "🚀  Start Zigbee coordinator"; value := StartCoordinator |}]
   else
     [{| name := "🛑  Stop Zigbee coordinator"; value := StopCoordinator |};
      {| name := "🔓  Enable pairing (permit join)"; value := PermitJoin |};
      {| name := "📋  List paired devices"; value := ListDevices |};
      {| name := "🔌  Control a device (ON/OFF)"; value := ControlDevice |}])
  ++ [{| name := "📜  Show live logs info"; value := ShowLogs |};
      {| name := "🚪  Exit (graceful shutdown)"; value := Exit |}].

(** The choices whose screen calls [getController] first. *)
Definition needsController (c : MenuChoice) : bool :=
  match c with
  | PermitJoin | ListDevices | ControlDevice => true
  | _ => false
  end.

End Menu.

(** [zigbee.service.ts]: the [message] listener. *)
Module ServiceEvents.

(** The [message] listener at time [now]: a message of a device that is
    not in the map is dropped. *)
Definition onMessage (now : Z) (addr type_ cluster : string) (data : gmap string val)
    (s : ZigbeeService.t) : ZigbeeService.t :=
  match ZigbeeService.devices s !! addr with
  | None => s
  | Some device =>
      let device' :=
        {| ieeeAddr := ieeeAddr device;
           networkAddress := networkAddress device;
           friendlyName := friendlyName device;
           manufacturerName := manufacturerName device;
           modelId := modelId device;
           type := type device;
           powerSource := powerSource device;
           interviewCompleted := interviewCompleted device;
           lastSeen := Some now;
           state := state device |} in
      ZigbeeService.emit (MESSAGE device' type_ cluster data)
        (ZigbeeService.set_devices (<[addr := device']> (ZigbeeService.devices s)) s)
  end.

End ServiceEvents.

(** [zigbee-device.service.ts]: plugs, and binding between devices. *)
Module DeviceOps.

Import ZigbeeDeviceService.

Definition turnOnPlug (addr : string) : M unit :=
  sendCommand addr "state" (power_val ON) ∅.

Definition turnOffPlug (addr : string) : M unit :=
  sendCommand addr "state" (power_val OFF) ∅.

Definition togglePlug (addr : string) : M unit :=
  sendCommand addr "state" (power_val TOGGLE) ∅.

(** [controlPlug(ieeeAddr, options)] with [options.state]. *)
Definition controlPlug (addr : string) (state_ : ZigbeeDevicePowerState) : M unit :=
  sendCommand addr "state" (power_val state_) ∅.

(** One call of [sourceEndpoint.bind(cluster, targetEndpoint)] or of
    [unbind]. *)
Record BindCall : Type := {
  bind_source : string;
  bind_source_endpoint : Z;
  bind_cluster : string;
  bind_target : string;
  bind_target_endpoint : Z
}.

(** The two [new Error(...)] of [bind] and [unbind], and a rejected call. *)
Inductive BindError : Type :=
| DeviceMissing
| EndpointMissing
| BindRejected (cluster : string).

Section Binding.

(** What [sourceEndpoint.bind(cluster, targetEndpoint)] (or [unbind])
    answers: [true] when it resolves. *)
Variable accepts : Herdsman.Endpoint -> string -> Herdsman.Endpoint -> bool.

(** [for (const cluster of clusters) await sourceEndpoint.bind(cluster,
    targetEndpoint)]: the first rejection ends the loop. *)
Fixpoint bindEach (source target : string) (se te : Herdsman.Endpoint)
    (clusters : list string) : outcome BindError unit * list BindCall :=
  match clusters with
  | [] => (Resolved tt, [])
  | cluster :: rest =>
      let call := {| bind_source := source; bind_source_endpoint := Herdsman.ID se;
                     bind_cluster := cluster; bind_target := target;
                     bind_target_endpoint := Herdsman.ID te |} in
      if accepts se cluster te then
        let r := bindEach source target se te rest in (r.1, call :: r.2)
      else (Rejected (BindRejected cluster), [call])
  end.

(** [bind(sourceIeeeAddr, targetIeeeAddr, clusters)], and [unbind] with
    the answers of [unbind]. *)
Definition bind (svc : ZigbeeService.t) (source target : string)
    (clusters : list string) : outcome BindError unit * list BindCall :=
  match ZigbeeService.getHerdsmanDevice svc source,
        ZigbeeService.getHerdsmanDevice svc target with
  | Some sourceDevice, Some targetDevice =>
      match defaultEndpoint sourceDevice, defaultEndpoint targetDevice with
      | Some se, Some te => bindEach source target se te clusters
      | _, _ => (Rejected EndpointMissing, [])
      end
  | _, _ => (Rejected DeviceMissing, [])
  end.

End Binding.

End DeviceOps.

(** [config.ts]: the environment configuration. *)
Module Config.

Record AppConfig : Type := {
  serialPort : string;
  baudRate : Z;
  adapter : string;
  dbPath : string;
  logLevel : string
}.

(** The three [new Error(...)] of the loader. *)
Inductive ConfigError : Type :=
| MissingVariable (key : string)
| InvalidBaudRate
| InvalidAdapter (adapter_ : string).

Definition validAdapters : list string :=
  ["ember"; "ezsp"; "zstack"; "deconz"; "zigate"; "zboss"].

Section Loader.

(** The builtins the loader calls: [String.prototype.trim], [parseInt(s,
    10)] ([None] for NaN), [path.resolve], [path.dirname] and
    [fs.existsSync]; [env] is [process.env]. *)
Variable trim : string -> string.
Variable parseInt : string -> option Z.
Variable resolvePath : string -> string.
Variable dirname : string -> string.
Variable existsSync : string -> bool.
Variable env : string -> option string.

(** [requireEnv(key)]. *)
Definition requireEnv (key : string) : outcome ConfigError string :=
  match env key with
  | None => Rejected (MissingVariable key)
  | Some value =>
      if String.eqb value "" || String.eqb (trim value) ""
      then Rejected (MissingVariable key)
      else Resolved (trim value)
  end.

(** [optionalEnv(key, fallback)]. *)
Definition optionalEnv (key fallback : string) : string :=
  let v := trim (default "" (env key)) in
  if String.eqb v "" then fallback else v.

(** [loadConfig()]: the configuration and, when the directory of the
    database did not exist, the directory that [mkdirSync] created. *)
Definition loadConfig : outcome ConfigError (AppConfig * option string) :=
  match requireEnv "ZIGBEE_SERIAL_PORT" with
  | Rejected e => Rejected e
  | Resolved serialPort_ =>
      let baudRate_ := parseInt (optionalEnv "ZIGBEE_BAUD_RATE" "115200") in
      let adapter_ := optionalEnv "ZIGBEE_ADAPTER" "ember" in
      let dbPath_ := resolvePath (optionalEnv "ZIGBEE_DB_PATH" "./data/zigbee.db") in
      let logLevel_ := optionalEnv "LOG_LEVEL" "info" in
      match baudRate_ with
      | None => Rejected InvalidBaudRate
      | Some baud =>
          if (baud <=? 0)%Z then Rejected InvalidBaudRate
          else if negb (existsb (String.eqb adapter_) validAdapters)
          then Rejected (InvalidAdapter adapter_)
          else
            let dbDir := dirname dbPath_ in
            Resolved ({| serialPort := serialPort_; baudRate := baud;
                         adapter := adapter_; dbPath := dbPath_;
                         logLevel := logLevel_ |},
                      if existsSync dbDir then None else Some dbDir)
      end
  end.

End Loader.

End Config.

(** A second installation: a coordinator radio with three paired devices. *)
Module Site.

Definition silent (id : Z) (inputs outputs : list Z) : Herdsman.Endpoint :=
  {| Herdsman.ID := id;
     Herdsman.inputClusters := inputs;
     Herdsman.outputClusters := outputs;
     Herdsman.read := fun _ _ => None;
     Herdsman.command := fun _ _ => true |}.

Definition device (addr type_ model : string) (status : string)
    (eps : list Herdsman.Endpoint) : Herdsman.Device :=
  {| Herdsman.ieeeAddr := addr;
     Herdsman.type := type_;
     Herdsman.networkAddress := 0;
     Herdsman.manufacturerName := None;
     Herdsman.modelID := Some model;
     Herdsman.powerSource := None;
     Herdsman.interviewState := status;
     Herdsman.interviewCompleted := String.eqb status "SUCCESSFUL";
     Herdsman.lastSeen := None;
     Herdsman.endpoints := eps |}.

Definition dongle : Herdsman.Device :=
  device "0x00124b0000000001" "Coordinator" "ZBDongle-E" "SUCCESSFUL" [silent 1 [] []].

(** A remote: its first endpoint only sends On/Off, its second accepts it. *)
Definition remote : Herdsman.Device :=
  device "0x00124b0000000002" "EndDevice" "remote" "SUCCESSFUL"
         [silent 2 [0] [6]; silent 3 [0; 6] []].

(** A sensor without the On/Off cluster. *)
Definition sensor : Herdsman.Device :=
  device "0x00124b0000000003" "EndDevice" "sensor" "SUCCESSFUL" [silent 1 [0; 1026] []].

Definition radio : Herdsman.Controller :=
  {| Herdsman.devices := [dongle; Demo.bulb; remote; sensor];
     Herdsman.start_rejects := None;
     Herdsman.start_result := "resumed";
     Herdsman.stop_rejects := None;
     Herdsman.permitJoin_rejects := None |}.

(** A controller whose transport calls all reject. *)
Definition dead : Herdsman.Controller :=
  {| Herdsman.devices := [];
     Herdsman.start_rejects := Some "Error: EBUSY: resource busy or locked";
     Herdsman.start_result := "";
     Herdsman.stop_rejects := Some "timeout";
     Herdsman.permitJoin_rejects := Some "timeout" |}.

Definition cli : ZigbeeCoordinator.t :=
  (ZigbeeCoordinator.start radio (ZigbeeCoordinator.make "/dev/ttyUSB0" "ember")).2.

(** The catalog knows the bulb as a light and the remote as a switch. *)
Definition catalog : Zhc.Catalog :=
  fun d =>
    if String.eqb (Herdsman.ieeeAddr d) Demo.addr then Some Demo.lightDefinition
    else if String.eqb (Herdsman.ieeeAddr d) "0x00124b0000000002"
    then Some Demo.plugDefinition
    else None.

Definition service : ZigbeeService.t :=
  (ZigbeeService.start radio (ZigbeeService.init catalog)).2.

End Site.

(** The states of the service: what its methods and listeners make of the
    instance as constructed. *)
Module ServiceStates.

Inductive step : ZigbeeService.t -> ZigbeeService.t -> Prop :=
| step_start fresh s : step s (ZigbeeService.start fresh s).2
| step_stop s : step s (ZigbeeService.stop s).2
| step_permitJoin permit timeout s : step s (ZigbeeService.permitJoin permit timeout s).2
| step_update now addr partial s :
    step s (ZigbeeService.updateDeviceState now addr partial s)
| step_joined d s : step s (ZigbeeService.onDeviceJoined d s)
| step_leave addr s : step s (ZigbeeService.onDeviceLeave addr s)
| step_interview d status s : step s (ZigbeeService.onDeviceInterview d status s)
| step_announce d s : step s (ZigbeeService.onDeviceAnnounce d s)
| step_message now addr type_ cluster data s :
    step s (ServiceEvents.onMessage now addr type_ cluster data s)
| step_disconnected s : step s (ZigbeeService.onAdapterDisconnected s).

Inductive reachable : ZigbeeService.t -> Prop :=
| reachable_init cat : reachable (ZigbeeService.init cat)
| reachable_step s s' : reachable s -> step s s' -> reachable s'.

(** Every device is filed under its own address, and is named by it. *)
Definition wellKeyed (m : gmap string ZigbeeDevice) : Prop :=
  forall a d, m !! a = Some d -> ieeeAddr d = a /\ friendlyName d = Some a.

(** [keys] lists the keys of the entries [m], each once. *)
Definition keysOf (m : gmap string ZigbeeDevice) (keys : list string) : Prop :=
  NoDup keys /\ forall k, k ∈ keys <-> is_Some (m !! k).

(** The devices a load takes from the controller. *)
Definition paired (l : list Herdsman.Device) : list Herdsman.Device :=
  List.filter (fun dev => negb (String.eqb (Herdsman.type dev) "Coordinator")) l.

End ServiceStates.

(** An environment that sets the serial port only, with builtins that
    suffice for it: nothing to trim, paths taken as they are. *)
Module Dotenv.

Definition env (key : string) : option string :=
  if String.eqb key "ZIGBEE_SERIAL_PORT" then Some "/dev/ttyUSB0" else None.

Definition trim (s : string) : string := s.

Definition parseInt (s : string) : option Z :=
  if String.eqb s "115200" then Some 115200 else None.

Definition resolvePath (s : string) : string := s.

Definition dirname (s : string) : string :=
  if String.eqb s "./data/zigbee.db" then "./data" else ".".

Definition existsSync (s : string) : bool := false.

End Dotenv.

(** * Properties *)

Import ZigbeeDeviceService Spec.

Local Open Scope list_scope.

(** ** The dispatch of one command *)

Section SendCommand.

Context (addr command : string) (value : val) (options : gmap string val).

(** Without a target, [sendCommand] leaves the world as it found it. *)
Lemma sendCommand_unresolved (w : World) :
  resolve (service w) addr command = None ->
  (sendCommand addr command value options w).2 = w.
Proof.
  unfold resolve, sendCommand, bind, gets, require, ret, throw. simpl.
  destruct (ZigbeeService.getHerdsmanDevice (service w) addr) as [hd|]; simpl; [|done].
  destruct (ZigbeeService.getDeviceDefinition (service w) hd) as [def|]; simpl; [|done].
  destruct (defaultEndpoint hd) as [ep|]; simpl; [|done].
  destruct (findConverter def command) as [conv|]; simpl; [|done].
  destruct (Zhc.convertSet conv) as [f|]; simpl; [discriminate|done].
Qed.

(** With a target, exactly one command is logged, and the converter
    decides the outcome. *)
Lemma sendCommand_resolved (w : World) ep f :
  resolve (service w) addr command = Some (ep, f) ->
  sendCommand addr command value options w =
    let w1 := logged (commandTo addr ep command value options) w in
    match f ep command value (options ∪ {[command := value]}) with
    | Zhc.Throws msg => (Rejected (ConverterFailure msg), w1)
    | Zhc.Returns (Some (Some st)) => (Resolved tt, cached addr st w1)
    | Zhc.Returns _ => (Resolved tt, w1)
    end.
Proof.
  unfold resolve, sendCommand, bind, gets, require, ret, throw. simpl.
  destruct (ZigbeeService.getHerdsmanDevice (service w) addr) as [hd|]; simpl; [|done].
  destruct (ZigbeeService.getDeviceDefinition (service w) hd) as [def|]; simpl; [|done].
  destruct (defaultEndpoint hd) as [e|]; simpl; [|done].
  destruct (findConverter def command) as [conv|]; simpl; [|done].
  destruct (Zhc.convertSet conv) as [g|]; simpl; [|done].
  intros [= <- <-]. unfold commandTo, logged, cached. simpl.
  destruct (g _ _ _ _) as [msg|[[st|]|]]; reflexivity.
Qed.

Lemma sendCommand_resolved_issued (w : World) ep f :
  resolve (service w) addr command = Some (ep, f) ->
  issued (sendCommand addr command value options w).2 =
    issued w ++ [commandTo addr ep command value options].
Proof.
  intros H. rewrite (sendCommand_resolved w ep f H). simpl.
  destruct (f _ _ _ _) as [msg|[[st|]|]]; reflexivity.
Qed.

(** The commands of one [sendCommand]: none or one. *)
Lemma sendCommand_commands (w : World) :
  commandsOf (sendCommand addr command value options) w =
    match resolve (service w) addr command with
    | Some (ep, _) => [commandTo addr ep command value options]
    | None => []
    end.
Proof.
  unfold commandsOf.
  destruct (resolve (service w) addr command) as [[ep f]|] eqn:H.
  - rewrite (sendCommand_resolved_issued w ep f H). apply drop_app_length.
  - rewrite (sendCommand_unresolved w H). apply drop_all.
Qed.

(** A rejection comes from a failed lookup or from the converter. *)
Lemma sendCommand_rejected (w : World) ep f e :
  resolve (service w) addr command = Some (ep, f) ->
  (sendCommand addr command value options w).1 = Rejected e ->
  exists msg, f ep command value (options ∪ {[command := value]}) = Zhc.Throws msg
              /\ e = ConverterFailure msg.
Proof.
  intros H. rewrite (sendCommand_resolved w ep f H). simpl.
  destruct (f _ _ _ _) as [msg|[[st|]|]]; simpl; try discriminate.
  intros [= <-]. eauto.
Qed.

End SendCommand.

(** [sendCommand] finds its target from the controller and the catalog. *)
Lemma sameTargets_refl (w : World) : sameTargets w w.
Proof. by split. Qed.

Lemma sameTargets_trans (w1 w2 w3 : World) :
  sameTargets w1 w2 -> sameTargets w2 w3 -> sameTargets w1 w3.
Proof. intros [H1 H2] [H3 H4]. split; congruence. Qed.

Lemma resolve_sameTargets (w w' : World) (addr key : string) :
  sameTargets w w' -> resolve (service w') addr key = resolve (service w) addr key.
Proof.
  intros [Hc Hcat].
  unfold resolve, ZigbeeService.getHerdsmanDevice, ZigbeeService.getDeviceDefinition.
  by rewrite Hc, Hcat.
Qed.

(** ** Unit conversion: color temperature and brightness *)

(** [Js.round] is rounding to the nearest integer, ties upwards. *)
Lemma round_nearest (x : Q) :
  (inject_Z (Js.round x) <= x + (1 # 2) /\ x - (1 # 2) < inject_Z (Js.round x))%Q.
Proof.
  unfold Js.round. split.
  - apply Qfloor_le.
  - pose proof (Qlt_floor (x + (1 # 2))) as H.
    rewrite inject_Z_plus in H.
    apply (Qplus_lt_l _ _ 1). ring_simplify.
    eapply Qle_lt_trans; [|exact H].
    ring_simplify. apply Qle_refl.
Qed.

Lemma mireds_le (v : Q) : (v <= 500)%Q -> mireds v = v.
Proof.
  intros H. unfold mireds, Js.gt.
  apply Qle_bool_iff in H. now rewrite H.
Qed.

Lemma mireds_gt (v : Q) :
  (500 < v)%Q -> mireds v = inject_Z (Js.round (1000000 / v)).
Proof.
  intros H. unfold mireds, Js.gt.
  destruct (Qle_bool v 500) eqn:E; [|reflexivity].
  apply Qle_bool_iff in E. exfalso. exact (Qlt_not_le _ _ H E).
Qed.

Lemma Qle_bool_inject_Z (a b : Z) : Qle_bool (inject_Z a) (inject_Z b) = (a <=? b)%Z.
Proof. unfold Qle_bool. simpl. now rewrite !Z.mul_1_r. Qed.

(** On integers [Math.max(0, Math.min(254, z))] is the clamp of [z]. *)
Lemma Math_clamp (z : Z) :
  Js.Math_max (Num 0) (Js.Math_min (Num 254) (Num (inject_Z z)))
    = Num (inject_Z (clamp z 0 254)).
Proof.
  unfold Js.Math_max, Js.Math_min, clamp.
  change 254%Q with (inject_Z 254). change 0%Q with (inject_Z 0).
  rewrite Qle_bool_inject_Z.
  destruct (Z.leb_spec 254 z).
  - rewrite Qle_bool_inject_Z. simpl.
    destruct (Z.ltb_spec z 0); [lia|].
    destruct (Z.ltb_spec 254 z); [reflexivity|].
    now replace z with 254 by lia.
  - rewrite Qle_bool_inject_Z.
    destruct (Z.leb_spec 0 z); destruct (Z.ltb_spec z 0); try lia; [|reflexivity].
    destruct (Z.ltb_spec 254 z); [lia|reflexivity].
Qed.

Lemma clampedBrightness_clamp (p : Q) :
  clampedBrightness (Num p) = Num (inject_Z (clamp (Js.round (p / 100 * 254)) 0 254)).
Proof. unfold clampedBrightness. simpl. apply Math_clamp. Qed.

Lemma clamp_range (z : Z) : 0 <= clamp z 0 254 <= 254.
Proof.
  unfold clamp. destruct (Z.ltb_spec z 0); [lia|].
  destruct (Z.ltb_spec 254 z); lia.
Qed.

(** NaN goes through the rounding and the two bounds. *)
Lemma clampedBrightness_NaN : clampedBrightness NaN = NaN.
Proof. reflexivity. Qed.

(** C1. Every color_temp command that [setColorTemperature] issues for an
    input [v] carries [v] unchanged when [v <= 500] and
    [round(1000000 / v)] when [v > 500]; when the device has a converter
    for the key, that command is issued, and it is the only one. So 4000
    and 250 are both sent as 250. *)
Theorem setColorTemperature_native_value (w : World) (addr : string) (v : Q)
    (tr : option Q) :
  (forall ep f, resolve (service w) addr "color_temp" = Some (ep, f) ->
     exists c, commandsOf (setColorTemperature addr v tr) w = [c])
  /\ (forall c, In c (commandsOf (setColorTemperature addr v tr) w) ->
        cmd_key c = "color_temp"
        /\ ((v <= 500)%Q -> cmd_value c = VNum v)
        /\ ((500 < v)%Q -> cmd_value c = VNum (inject_Z (Js.round (1000000 / v))))).
Proof.
  unfold setColorTemperature. rewrite sendCommand_commands. split.
  - intros ep f ->. eauto.
  - intros c Hc.
    destruct (resolve (service w) addr "color_temp") as [[ep f]|]; [|destruct Hc].
    destruct Hc as [<-|[]]. simpl. split; [reflexivity|]. split; intros Hv.
    + now rewrite mireds_le.
    + now rewrite mireds_gt.
Qed.

(** C2 fails on the code at NaN. [setBrightness(NaN)] on a device with a
    converter for the key resolves and issues one brightness command whose
    value is NaN, which is no number between 0 and 254: [Math.round],
    [Math.min] and [Math.max] hand NaN on, so nothing clamps it, on
    whatever device and in whatever state. *)
Theorem setBrightness_nan_unclamped :
  (setBrightness Demo.addr NaN None Demo.lightWorld).1 = Resolved tt
  /\ map kv (commandsOf (setBrightness Demo.addr NaN None) Demo.lightWorld)
     = [("brightness", VNaN)]
  /\ (forall z : Z, VNaN <> VNum (inject_Z z))
  /\ (forall addr tr w c,
        In c (commandsOf (setBrightness addr NaN tr) w) ->
        cmd_key c = "brightness" /\ cmd_value c = VNaN).
Proof.
  split; [vm_compute; reflexivity|]. split; [vm_compute; reflexivity|].
  split; [discriminate|].
  intros addr tr w c. unfold setBrightness. rewrite sendCommand_commands.
  destruct (resolve (service w) addr "brightness") as [[ep f]|]; [|intros []].
  intros [<-|[]]. split; reflexivity.
Qed.

Lemma setColorTemperature_native_value_witness :
  exists c,
    commandsOf (setColorTemperature Demo.addr 4000 None) Demo.lightWorld = [c]
    /\ cmd_value c = VNum 250.
Proof.
  destruct (setColorTemperature_native_value Demo.lightWorld Demo.addr 4000 None)
    as [Hone Hval].
  edestruct Hone as [c Hc]; [vm_compute; reflexivity|].
  exists c. split; [exact Hc|].
  assert (Hin : In c (commandsOf (setColorTemperature Demo.addr 4000 None) Demo.lightWorld))
    by (rewrite Hc; left; reflexivity).
  destruct (Hval c Hin) as [_ [_ Hgt]].
  rewrite Hgt; reflexivity.
Defined.


(** ** Color: one representation per call *)

Section ColorPrecedence.

Variable numberToString : Q -> string.

Lemma colorPayload_hex (c : ColorOptions) (h : string) :
  hex c = Some h -> h <> "" ->
  colorPayload numberToString c = Some (VObj [("hex", VStr h)]).
Proof.
  intros Hh Hne. unfold colorPayload. rewrite Hh.
  destruct (String.eqb_spec h ""); [contradiction|reflexivity].
Qed.

Lemma colorPayload_skipped (c : ColorOptions) :
  hexSkipped c ->
  colorPayload numberToString c =
    match rgb c with
    | Some t => Some (VObj [("rgb", VStr (rgbString numberToString t))])
    | None =>
        match hue c, saturation c with
        | Some h, Some s => Some (VObj [("hue", VNum h); ("saturation", VNum s)])
        | _, _ => None
        end
    end.
Proof. intros [H|H]; unfold colorPayload; rewrite H; reflexivity. Qed.

Lemma hex_cases (c : ColorOptions) :
  hexSkipped c \/ exists h, hex c = Some h /\ h <> "".
Proof.
  unfold hexSkipped. destruct (hex c) as [h|]; [|auto].
  destruct (String.eqb_spec h ""); [subst; auto|eauto].
Qed.

Lemma setColor_commands (w : World) (addr : string) (c : ColorOptions) (tr : option Q) :
  commandsOf (setColor numberToString addr (Some c) tr) w =
    match colorPayload numberToString c, resolve (service w) addr "color" with
    | Some payload, Some (ep, _) => [commandTo addr ep "color" payload (transitionOptions tr)]
    | _, _ => []
    end.
Proof.
  unfold setColor. destruct (colorPayload numberToString c) as [payload|].
  - rewrite sendCommand_commands. destruct (resolve _ _ _) as [[ep f]|]; reflexivity.
  - unfold commandsOf, ret. simpl. apply drop_all.
Qed.

End ColorPrecedence.

(** C3, as stated, fails: with a hex string that is empty and an RGB triple
    both present, the RGB payload is the one forwarded. *)
Lemma setColor_empty_hex_forwards_rgb :
  hex Demo.emptyHexAndRgb = Some ""
  /\ rgb Demo.emptyHexAndRgb = Some (1, 2, 3)%Q
  /\ map kv (commandsOf (setColor Demo.showNumber Demo.addr (Some Demo.emptyHexAndRgb) None)
                        Demo.lightWorld)
     = [("color", VObj [("rgb", VStr "1,2,3")])].
Proof. repeat split; vm_compute; reflexivity. Qed.

(** C3, amended. A call of [setColor] issues at most one command, a color
    command. Its payload is the hex string when that string is present and
    not empty; otherwise the RGB triple when present; otherwise the hue and
    saturation when both are present. On a device with a converter for the
    key that command is issued, and it is the only one: the hex payload for
    a hex string that is not empty, the RGB payload when the hex string is
    skipped and the triple is present, the hue and saturation payload when
    only these are left. With no color object, or one with none of these,
    the call resolves and leaves everything as it was. *)
Theorem setColor_precedence (numberToString : Q -> string) (w : World)
    (addr : string) (color : option ColorOptions) (tr : option Q) :
  (length (commandsOf (setColor numberToString addr color tr) w) <= 1)%nat
  /\ (forall cmd, In cmd (commandsOf (setColor numberToString addr color tr) w) ->
        cmd_key cmd = "color"
        /\ exists c, color = Some c
           /\ (forall h, hex c = Some h -> h <> "" ->
                 cmd_value cmd = VObj [("hex", VStr h)])
           /\ (forall t, hexSkipped c -> rgb c = Some t ->
                 cmd_value cmd = VObj [("rgb", VStr (rgbString numberToString t))])
           /\ (forall hu sa, hexSkipped c -> rgb c = None ->
                 hue c = Some hu -> saturation c = Some sa ->
                 cmd_value cmd = VObj [("hue", VNum hu); ("saturation", VNum sa)]))
  /\ (forall c ep f,
        color = Some c ->
        resolve (service w) addr "color" = Some (ep, f) ->
        (forall h, hex c = Some h -> h <> "" ->
           commandsOf (setColor numberToString addr color tr) w
             = [commandTo addr ep "color" (VObj [("hex", VStr h)]) (transitionOptions tr)])
        /\ (forall t, hexSkipped c -> rgb c = Some t ->
              commandsOf (setColor numberToString addr color tr) w
                = [commandTo addr ep "color"
                     (VObj [("rgb", VStr (rgbString numberToString t))])
                     (transitionOptions tr)])
        /\ (forall hu sa, hexSkipped c -> rgb c = None ->
              hue c = Some hu -> saturation c = Some sa ->
              commandsOf (setColor numberToString addr color tr) w
                = [commandTo addr ep "color"
                     (VObj [("hue", VNum hu); ("saturation", VNum sa)])
                     (transitionOptions tr)]))
  /\ (color = None
      \/ (exists c, color = Some c /\ hexSkipped c /\ rgb c = None
                    /\ (hue c = None \/ saturation c = None)) ->
      setColor numberToString addr color tr w = (Resolved tt, w)).
Proof.
  destruct color as [c|]; cycle 1.
  { split; [|split; [|split]].
    - unfold commandsOf, setColor, ret. simpl. rewrite drop_all. simpl. lia.
    - unfold commandsOf, setColor, ret. simpl. rewrite drop_all. intros cmd [].
    - intros c ep f [=].
    - reflexivity. }
  rewrite setColor_commands. split; [|split; [|split]].
  - destruct (colorPayload numberToString c); [|simpl; lia].
    destruct (resolve _ _ _) as [[ep f]|]; simpl; lia.
  - intros cmd Hin.
    destruct (colorPayload numberToString c) as [payload|] eqn:Hp; [|destruct Hin].
    destruct (resolve _ _ _) as [[ep f]|]; [|destruct Hin].
    destruct Hin as [<-|[]]. simpl. split; [reflexivity|].
    exists c. split; [reflexivity|]. split; [|split].
    + intros h Hh Hne. rewrite (colorPayload_hex _ c h Hh Hne) in Hp. congruence.
    + intros t Hs Ht. rewrite (colorPayload_skipped _ c Hs), Ht in Hp. congruence.
    + intros hu sa Hs Hr Hh Hsa.
      rewrite (colorPayload_skipped _ c Hs), Hr, Hh, Hsa in Hp. congruence.
  - intros c' ep f [= <-] Hres. rewrite Hres. split; [|split].
    + intros h Hh Hne. now rewrite (colorPayload_hex _ c h Hh Hne).
    + intros t Hs Ht. now rewrite (colorPayload_skipped _ c Hs), Ht.
    + intros hu sa Hs Hr Hh Hsa.
      now rewrite (colorPayload_skipped _ c Hs), Hr, Hh, Hsa.
  - intros [H|[c' [[= <-] [Hs [Hr Hhs]]]]]; [discriminate|].
    unfold setColor. rewrite (colorPayload_skipped _ c Hs), Hr.
    destruct Hhs as [-> | ->]; [reflexivity|]. destruct (hue c); reflexivity.
Qed.

Lemma setColor_precedence_witness :
  map kv (commandsOf (setColor Demo.showNumber Demo.addr (Some Demo.hexAndRgb) None)
                     Demo.lightWorld)
    = [("color", VObj [("hex", VStr "#FF5500")])]
  /\ map kv (commandsOf (setColor Demo.showNumber Demo.addr (Some Demo.hueOnly) None)
                        Demo.lightWorld)
     = [("color", VObj [("hue", VNum 120); ("saturation", VNum 80)])].
Proof.
  split.
  - destruct (setColor_precedence Demo.showNumber Demo.lightWorld Demo.addr
                (Some Demo.hexAndRgb) None) as [_ [_ [Hsend _]]].
    edestruct (Hsend Demo.hexAndRgb) as [Hhex _]; [reflexivity|vm_compute; reflexivity|].
    rewrite (Hhex "#FF5500"); [reflexivity|reflexivity|discriminate].
  - destruct (setColor_precedence Demo.showNumber Demo.lightWorld Demo.addr
                (Some Demo.hueOnly) None) as [_ [_ [Hsend _]]].
    edestruct (Hsend Demo.hueOnly) as [_ [_ Hhue]]; [reflexivity|vm_compute; reflexivity|].
    rewrite (Hhue 120%Q 80%Q); [reflexivity|left; reflexivity|reflexivity..].
Defined.

(** ** On/Off dispatch and the interview *)

Lemma getDeviceByIeeeAddr_withInterview (b : bool) (st : string)
    (c : Herdsman.Controller) (addr : string) :
  Herdsman.getDeviceByIeeeAddr (controllerWithInterview b st c) addr
    = withInterview b st <$> Herdsman.getDeviceByIeeeAddr c addr.
Proof.
  unfold Herdsman.getDeviceByIeeeAddr, controllerWithInterview. simpl.
  induction (Herdsman.devices c) as [|d l IH]; simpl; [reflexivity|].
  destruct (String.eqb (Herdsman.ieeeAddr d) addr); [reflexivity|exact IH].
Qed.

Lemma getOnOffEndpoint_withInterview (b : bool) (st : string)
    (s : ZigbeeCoordinator.t) (addr : string) :
  DeviceRegistry.getOnOffEndpoint (coordinatorWithInterview b st s) addr
    = DeviceRegistry.getOnOffEndpoint s addr.
Proof.
  unfold DeviceRegistry.getOnOffEndpoint, DeviceRegistry.getHerdsmanDevice,
    ZigbeeCoordinator.getController, coordinatorWithInterview. simpl.
  destruct (ZigbeeCoordinator.started s); simpl; [|reflexivity].
  destruct (ZigbeeCoordinator.controller s) as [c|]; simpl; [|reflexivity].
  rewrite getDeviceByIeeeAddr_withInterview.
  destruct (Herdsman.getDeviceByIeeeAddr c addr); reflexivity.
Qed.

(** C4, as stated, fails: a device whose interview is incomplete is sent the
    On command, by [sendOnOff] and by [turnOn] alike, and no error arises. *)
Lemma incomplete_interview_dispatched :
  DeviceRegistry.getHerdsmanDevice Demo.cli Demo.addr = Resolved Demo.bulb
  /\ Herdsman.interviewCompleted Demo.bulb = false
  /\ Actions.sendOnOff Demo.cli Demo.addr Actions.on
      = (Resolved tt, [onOffCall Demo.addr Demo.endpoint1 Actions.on])
  /\ interviewCompleted <$> ZigbeeService.getDevice (service Demo.lightWorld) Demo.addr
      = Some false
  /\ (turnOn Demo.addr Demo.lightWorld).1 = Resolved tt
  /\ map kv (commandsOf (turnOn Demo.addr) Demo.lightWorld) = [("state", VStr "ON")].
Proof. repeat split; vm_compute; reflexivity. Qed.

(** C4, amended. Dispatch does not consult the interview of a device. The
    outcome of [sendOnOff] and the commands it issues are the same whatever
    the interview status of the devices: it fails without issuing a command
    when the coordinator is not running, the device is unknown or no
    endpoint has the On/Off cluster, and otherwise it issues the one
    command, also to a device whose interview is incomplete. Likewise the
    commands of [sendCommand] are decided by the controller and the catalog
    alone, whatever the device map records about the interview. *)
Theorem dispatch_ignores_interview (coordinator : ZigbeeCoordinator.t)
    (addr : string) (action : Actions.OnOffAction) :
  (forall completed status,
     Actions.sendOnOff (coordinatorWithInterview completed status coordinator) addr action
       = Actions.sendOnOff coordinator addr action)
  /\ (forall e sent,
        Actions.sendOnOff coordinator addr action = (Rejected e, sent) ->
        e <> DeviceRegistry.CommandRejected ->
        sent = []
        /\ (e = DeviceRegistry.CoordinatorError ZigbeeCoordinator.NotRunning
            \/ e = DeviceRegistry.DeviceNotFoundError addr
            \/ e = DeviceRegistry.UnsupportedActionError (Actions.actionName action) addr))
  /\ (forall dev ep,
        DeviceRegistry.getHerdsmanDevice coordinator addr = Resolved dev ->
        DeviceRegistry.onOffEndpointOf dev = Some ep ->
        (Actions.sendOnOff coordinator addr action).2 = [onOffCall addr ep action])
  /\ (forall w w' key value options,
        sameTargets w w' ->
        commandsOf (sendCommand addr key value options) w'
          = commandsOf (sendCommand addr key value options) w).
Proof.
  split; [|split; [|split]]; cycle 3.
  { intros w w' key value options Ht.
    now rewrite !sendCommand_commands, (resolve_sameTargets w w' addr key Ht). }
  - intros b st. unfold Actions.sendOnOff.
    now rewrite getOnOffEndpoint_withInterview.
  - intros e sent. unfold Actions.sendOnOff, DeviceRegistry.getOnOffEndpoint,
      DeviceRegistry.getHerdsmanDevice, ZigbeeCoordinator.getController.
    destruct (ZigbeeCoordinator.started coordinator); simpl;
      [|intros [= <- <-]; auto].
    destruct (ZigbeeCoordinator.controller coordinator) as [c|]; simpl;
      [|intros [= <- <-]; auto].
    destruct (Herdsman.getDeviceByIeeeAddr c addr) as [dev|]; simpl;
      [|intros [= <- <-]; auto].
    destruct (DeviceRegistry.onOffEndpointOf dev) as [ep|];
      [|intros [= <- <-]; auto].
    destruct (Herdsman.command ep _ _); [discriminate|].
    intros [= <- <-] Hne. contradiction.
  - intros dev ep Hd He. unfold Actions.sendOnOff, DeviceRegistry.getOnOffEndpoint.
    rewrite Hd, He. unfold onOffCall.
    destruct (Herdsman.command ep _ _); reflexivity.
Qed.

Lemma dispatch_ignores_interview_witness :
  (Actions.sendOnOff Demo.cli Demo.addr Actions.toggle).2
    = [onOffCall Demo.addr Demo.endpoint1 Actions.toggle]
  /\ Actions.sendOnOff Demo.cliDisconnected Demo.addr Actions.toggle
      = (Rejected (DeviceRegistry.CoordinatorError ZigbeeCoordinator.NotRunning), []).
Proof.
  destruct (dispatch_ignores_interview Demo.cli Demo.addr Actions.toggle)
    as [_ [_ [Hsend _]]].
  split; [apply (Hsend Demo.bulb Demo.endpoint1); reflexivity|].
  destruct (dispatch_ignores_interview Demo.cliDisconnected Demo.addr Actions.toggle)
    as [_ [Hfail _]].
  destruct (Hfail (DeviceRegistry.CoordinatorError ZigbeeCoordinator.NotRunning) [])
    as [_ _]; [reflexivity|discriminate|reflexivity].
Defined.

(** ** The state cache *)

Lemma merge_lookup (prior partial : gmap string val) (k : string) :
  ZigbeeService.merge prior partial !! k =
    match partial !! k with
    | Some v => Some v
    | None => prior !! k
    end.
Proof.
  unfold ZigbeeService.merge. rewrite lookup_union.
  destruct (partial !! k), (prior !! k); reflexivity.
Qed.

Lemma merge_idempotent (prior partial : gmap string val) :
  ZigbeeService.merge (ZigbeeService.merge prior partial) partial
    = ZigbeeService.merge prior partial.
Proof.
  apply map_eq. intros k. rewrite !merge_lookup.
  destruct (partial !! k); reflexivity.
Qed.

Lemma updateDeviceState_absent (now_ : Z) (addr : string) (partial : gmap string val)
    (s : ZigbeeService.t) :
  ZigbeeService.devices s !! addr = None ->
  ZigbeeService.updateDeviceState now_ addr partial s = s.
Proof. intros H. unfold ZigbeeService.updateDeviceState. now rewrite H. Qed.

(** What [updateDeviceState] does to a known device. *)
Lemma updateDeviceState_known (now_ : Z) (addr : string) (partial : gmap string val)
    (s : ZigbeeService.t) (d : ZigbeeDevice) :
  ZigbeeService.devices s !! addr = Some d ->
  exists d',
    state d' = ZigbeeService.merge (state d) partial
    /\ lastSeen d' = Some now_
    /\ ZigbeeService.devices (ZigbeeService.updateDeviceState now_ addr partial s)
       = <[addr := d']> (ZigbeeService.devices s)
    /\ ZigbeeService.emitted (ZigbeeService.updateDeviceState now_ addr partial s)
       = ZigbeeService.emitted s ++ [STATE_CHANGE d' (state d')].
Proof.
  intros H. unfold ZigbeeService.updateDeviceState. rewrite H.
  eexists. simpl. repeat split; reflexivity.
Qed.

(** C5. The merge of the state cache is an attribute-wise overlay: merging
    a partial state twice gives what merging it once gives, an attribute the
    partial state does not name keeps its prior value, one it names takes
    the new value, and [{brightness: 80}] merged after [{state: ON}] gives
    [{state: ON, brightness: 80}]. The [STATE_CHANGE] event that
    [updateDeviceState] emits carries the whole merged state, which is the
    state then cached for the device. *)
Theorem merge_overlay_idempotent :
  (forall prior partial : gmap string val,
     ZigbeeService.merge (ZigbeeService.merge prior partial) partial
       = ZigbeeService.merge prior partial)
  /\ (forall (prior partial : gmap string val) k,
        partial !! k = None -> ZigbeeService.merge prior partial !! k = prior !! k)
  /\ (forall (prior partial : gmap string val) k v,
        partial !! k = Some v -> ZigbeeService.merge prior partial !! k = Some v)
  /\ ZigbeeService.merge {[ "state" := VStr "ON" ]} {[ "brightness" := VNum 80 ]}
     = <[ "state" := VStr "ON" ]> {[ "brightness" := VNum 80 ]}
  /\ (forall now_ addr partial s d,
        ZigbeeService.devices s !! addr = Some d ->
        exists d',
          ZigbeeService.devices (ZigbeeService.updateDeviceState now_ addr partial s) !! addr
            = Some d'
          /\ state d' = ZigbeeService.merge (state d) partial
          /\ ZigbeeService.emitted (ZigbeeService.updateDeviceState now_ addr partial s)
             = ZigbeeService.emitted s
               ++ [STATE_CHANGE d' (ZigbeeService.merge (state d) partial)])
  /\ (forall now_ now' addr partial s,
        state <$> ZigbeeService.devices
                    (ZigbeeService.updateDeviceState now' addr partial
                       (ZigbeeService.updateDeviceState now_ addr partial s)) !! addr
        = state <$> ZigbeeService.devices
                      (ZigbeeService.updateDeviceState now_ addr partial s) !! addr).
Proof.
  split; [exact merge_idempotent|].
  split; [intros prior partial k H; now rewrite merge_lookup, H|].
  split; [intros prior partial k v H; now rewrite merge_lookup, H|].
  split; [vm_compute; reflexivity|].
  split.
  - intros now_ addr partial s d H.
    destruct (updateDeviceState_known now_ addr partial s d H) as [d' [Hst [_ [Hd He]]]].
    exists d'. rewrite Hd, He, Hst, lookup_insert_eq. auto.
  - intros now_ now' addr partial s.
    destruct (ZigbeeService.devices s !! addr) as [d|] eqn:H.
    + destruct (updateDeviceState_known now_ addr partial s d H) as [d1 [Hst1 [_ [Hd1 _]]]].
      assert (H1 : ZigbeeService.devices
                     (ZigbeeService.updateDeviceState now_ addr partial s) !! addr = Some d1)
        by (rewrite Hd1; apply lookup_insert_eq).
      destruct (updateDeviceState_known now' addr partial _ d1 H1) as [d2 [Hst2 [_ [Hd2 _]]]].
      rewrite Hd2, lookup_insert_eq, H1. simpl.
      rewrite Hst2, Hst1. f_equal. apply merge_idempotent.
    + now rewrite !(updateDeviceState_absent _ addr partial s H).
Qed.

Lemma merge_overlay_idempotent_witness :
  state <$> ZigbeeService.devices
              (ZigbeeService.updateDeviceState 2 Demo.addr {[ "brightness" := VNum 80 ]}
                 (ZigbeeService.updateDeviceState 1 Demo.addr {[ "state" := VStr "ON" ]}
                    (service Demo.lightWorld))) !! Demo.addr
  = Some (<[ "state" := VStr "ON" ]> {[ "brightness" := VNum 80 ]}).
Proof.
  destruct merge_overlay_idempotent as [_ [_ [_ [Hex [Hupd _]]]]].
  set (s1 := ZigbeeService.updateDeviceState 1 Demo.addr {[ "state" := VStr "ON" ]}
               (service Demo.lightWorld)).
  destruct (Hupd 1 Demo.addr ({[ "state" := VStr "ON" ]} : gmap string val)
              (service Demo.lightWorld)
              (ZigbeeService.mapDevice (fun _ => Some Demo.lightDefinition) Demo.bulb))
    as [d1 [Hd1 [Hst1 _]]]; [vm_compute; reflexivity|].
  destruct (Hupd 2 Demo.addr ({[ "brightness" := VNum 80 ]} : gmap string val) s1 d1 Hd1)
    as [d2 [Hd2 [Hst2 _]]].
  rewrite Hd2. simpl. rewrite Hst2, Hst1, <- Hex.
  vm_compute. reflexivity.
Defined.

(** C9. For an identity that is not in the device map,
    [updateDeviceState] changes nothing: the service is left as it was, so
    the map and every cached state are as before and no event is emitted;
    the method has no error to raise. *)
Theorem updateDeviceState_unknown_noop (now_ : Z) (addr : string)
    (partial : gmap string val) (s : ZigbeeService.t) :
  ZigbeeService.devices s !! addr = None ->
  ZigbeeService.updateDeviceState now_ addr partial s = s
  /\ ZigbeeService.devices (ZigbeeService.updateDeviceState now_ addr partial s)
     = ZigbeeService.devices s
  /\ ZigbeeService.emitted (ZigbeeService.updateDeviceState now_ addr partial s)
     = ZigbeeService.emitted s.
Proof.
  intros H.
  assert (Hs : ZigbeeService.updateDeviceState now_ addr partial s = s).
  { unfold ZigbeeService.updateDeviceState. now rewrite H. }
  rewrite Hs. repeat split.
Qed.

Lemma updateDeviceState_unknown_noop_witness :
  ZigbeeService.updateDeviceState 5 "0xffff" {[ "state" := VStr "ON" ]}
    (service Demo.lightWorld) = service Demo.lightWorld.
Proof.
  apply updateDeviceState_unknown_noop. vm_compute. reflexivity.
Defined.

(** ** Stopping the service *)

(** C8 fails on the code. After [permitJoin(true, 60)] on a started
    service, a successful [stop] leaves the service stopped and without
    devices, but [isPermitJoinEnabled] still answers [true]: [stop] never
    assigns the flag. On the stopped service [permitJoin(false)], the call
    that clears the flag, is rejected, so the flag stays set. *)
Theorem stop_keeps_pairing_flag :
  ZigbeeService.isPermitJoinEnabled Demo.pairing = true
  /\ (ZigbeeService.stop Demo.pairing).1 = Resolved tt
  /\ ZigbeeService.isStarted (ZigbeeService.stop Demo.pairing).2 = false
  /\ ZigbeeService.getDevices (ZigbeeService.stop Demo.pairing).2 = []
  /\ ZigbeeService.isPermitJoinEnabled (ZigbeeService.stop Demo.pairing).2 = true
  /\ (ZigbeeService.permitJoin false None (ZigbeeService.stop Demo.pairing).2).1
     = Rejected "Le coordinateur Zigbee n'est pas démarré"
  /\ ZigbeeService.isPermitJoinEnabled
       (ZigbeeService.permitJoin false None (ZigbeeService.stop Demo.pairing).2).2 = true
  /\ ZigbeeService.isPermitJoinEnabled
       (ZigbeeService.permitJoin false None Demo.pairing).2 = false.
Proof. repeat split; vm_compute; reflexivity. Qed.

(** ** Stopping the command-line coordinator *)

(** A started coordinator holds a controller. *)
Lemma reachable_started_has_controller (s : ZigbeeCoordinator.t) :
  ZigbeeCoordinator.reachable s ->
  ZigbeeCoordinator.started s = true ->
  ZigbeeCoordinator.controller s <> None.
Proof.
  induction 1 as [port ad|s s' Hr IH Hstep]; [discriminate|].
  destruct Hstep as [fresh s|s|s].
  - unfold ZigbeeCoordinator.start.
    destruct (ZigbeeCoordinator.started s) eqn:E; simpl; [intros _; now apply IH|].
    destruct (Herdsman.start_rejects fresh); simpl; [discriminate|].
    intros _. discriminate.
  - unfold ZigbeeCoordinator.stop.
    destruct (ZigbeeCoordinator.started s) eqn:E; simpl; [|congruence].
    destruct (ZigbeeCoordinator.controller s) as [c|] eqn:Ec; simpl.
    + destruct (Herdsman.stop_rejects c); simpl; discriminate.
    + intros _. exfalso. exact (IH eq_refl eq_refl).
  - simpl. discriminate.
Qed.

Lemma coordinator_stop_resolves (s : ZigbeeCoordinator.t) :
  (ZigbeeCoordinator.stop s).1 = Resolved tt.
Proof.
  unfold ZigbeeCoordinator.stop.
  destruct (ZigbeeCoordinator.started s); simpl; [|reflexivity].
  destruct (ZigbeeCoordinator.controller s) as [c|]; simpl; [|reflexivity].
  destruct (Herdsman.stop_rejects c); reflexivity.
Qed.

(** C10, as stated, fails: after the adapter disconnected, which [stop]
    treats as not running, [stop] returns at its guard and the controller
    handle stays. *)
Lemma stop_after_disconnect_keeps_controller :
  ZigbeeCoordinator.reachable Demo.cliDisconnected
  /\ ZigbeeCoordinator.isRunning Demo.cliDisconnected = false
  /\ (ZigbeeCoordinator.stop Demo.cliDisconnected).1 = Resolved tt
  /\ ZigbeeCoordinator.controller (ZigbeeCoordinator.stop Demo.cliDisconnected).2
     = Some Demo.radio.
Proof.
  split; [|repeat split; reflexivity].
  eapply ZigbeeCoordinator.reachable_step;
    [|apply (ZigbeeCoordinator.step_disconnect Demo.cli)].
  eapply ZigbeeCoordinator.reachable_step;
    [apply (ZigbeeCoordinator.reachable_make "/dev/ttyUSB0" "ember")|].
  apply (ZigbeeCoordinator.step_start Demo.radio).
Qed.

(** C10, amended. [stop] of the coordinator never rejects, whatever the
    controller's own stop does, and after it [isRunning] is false in every
    state the coordinator can be in. Called on a running coordinator it
    leaves it not started with the controller handle cleared, also when the
    controller's stop fails; called on a coordinator that is not started it
    changes nothing. *)
Theorem coordinator_stop_never_rejects :
  (forall s, (ZigbeeCoordinator.stop s).1 = Resolved tt)
  /\ (forall s, ZigbeeCoordinator.reachable s ->
        ZigbeeCoordinator.isRunning (ZigbeeCoordinator.stop s).2 = false)
  /\ (forall s c,
        ZigbeeCoordinator.started s = true ->
        ZigbeeCoordinator.controller s = Some c ->
        ZigbeeCoordinator.started (ZigbeeCoordinator.stop s).2 = false
        /\ ZigbeeCoordinator.controller (ZigbeeCoordinator.stop s).2 = None)
  /\ (forall s,
        ZigbeeCoordinator.started s = false -> (ZigbeeCoordinator.stop s).2 = s).
Proof.
  split; [exact coordinator_stop_resolves|]. split; [|split].
  - intros s Hr. unfold ZigbeeCoordinator.isRunning, ZigbeeCoordinator.stop.
    destruct (ZigbeeCoordinator.started s) eqn:E; simpl; [|exact E].
    destruct (ZigbeeCoordinator.controller s) as [c|] eqn:Ec; simpl.
    + destruct (Herdsman.stop_rejects c); reflexivity.
    + exfalso. now apply (reachable_started_has_controller s Hr E).
  - intros s c Hs Hc. unfold ZigbeeCoordinator.stop. rewrite Hs, Hc. simpl.
    destruct (Herdsman.stop_rejects c); simpl; auto.
  - intros s Hs. unfold ZigbeeCoordinator.stop. now rewrite Hs.
Qed.

Lemma coordinator_stop_never_rejects_witness :
  ZigbeeCoordinator.isRunning (ZigbeeCoordinator.stop Demo.cli).2 = false
  /\ ZigbeeCoordinator.controller (ZigbeeCoordinator.stop Demo.cli).2 = None.
Proof.
  destruct coordinator_stop_never_rejects as [_ [_ [Hrun _]]].
  apply (Hrun Demo.cli Demo.radio); reflexivity.
Defined.

(** ** Reading the state of a device *)

(** C7. On a device with an endpoint, [readState] makes the three queries
    (On/Off, level, color temperature) whatever the others answer, and
    resolves. Its result has the attribute of a query exactly when that
    query answered, and has no other attribute: a failed query only leaves
    its attribute out. So when only the On/Off cluster answers, the result
    is [{state: ON}] or [{state: OFF}] alone. Before returning, the result
    is handed to [updateDeviceState], so a device of the directory has it
    merged into its cached state. *)
Theorem readState_best_effort (w : World) (addr : string)
    (hd : Herdsman.Device) (ep : Herdsman.Endpoint) :
  ZigbeeService.getHerdsmanDevice (service w) addr = Some hd ->
  defaultEndpoint hd = Some ep ->
  exists st,
    (readState addr w).1 = Resolved st
    /\ queriesOf (readState addr) w
       = [queryOf addr ep "genOnOff" ["onOff"];
          queryOf addr ep "genLevelCtrl" ["currentLevel"];
          queryOf addr ep "lightingColorCtrl" ["colorTemperature"]]
    /\ st !! "state" = onOffState <$> Herdsman.read ep "genOnOff" ["onOff"]
    /\ st !! "brightness"
       = prop "currentLevel" <$> Herdsman.read ep "genLevelCtrl" ["currentLevel"]
    /\ st !! "color_temp"
       = prop "colorTemperature"
           <$> Herdsman.read ep "lightingColorCtrl" ["colorTemperature"]
    /\ (forall k, k <> "state" -> k <> "brightness" -> k <> "color_temp" ->
          st !! k = None)
    /\ (forall r, Herdsman.read ep "genOnOff" ["onOff"] = Some r ->
          Herdsman.read ep "genLevelCtrl" ["currentLevel"] = None ->
          Herdsman.read ep "lightingColorCtrl" ["colorTemperature"] = None ->
          st = {[ "state" := onOffState r ]}
          /\ (onOffState r = VStr "ON" \/ onOffState r = VStr "OFF"))
    /\ service (readState addr w).2
       = ZigbeeService.updateDeviceState (now w) addr st (service w)
    /\ (forall d, ZigbeeService.devices (service w) !! addr = Some d ->
          state <$> ZigbeeService.devices (service (readState addr w).2) !! addr
            = Some (ZigbeeService.merge (state d) st)).
Proof.
  intros Hd He.
  unfold readState, queriesOf, bind, gets, require, tryRead, log_query,
    updateDeviceState, ret. simpl. rewrite Hd. simpl. rewrite He. simpl.
  destruct (Herdsman.read ep "genOnOff" ["onOff"]) as [r1|];
    destruct (Herdsman.read ep "genLevelCtrl" ["currentLevel"]) as [r2|];
    destruct (Herdsman.read ep "lightingColorCtrl" ["colorTemperature"]) as [r3|];
    simpl; eexists; (split; [reflexivity|]);
    (split; [rewrite <- !app_assoc; apply drop_app_length|]);
    (split; [by simplify_map_eq|]);
    (split; [by simplify_map_eq|]);
    (split; [by simplify_map_eq|]);
    (split; [intros k H1 H2 H3; by simplify_map_eq|]);
    (split; [intros r Hr1 Hr2 Hr3; simplify_eq;
             (split; [by rewrite insert_empty
                     |unfold onOffState; destruct (Js.truthy _); auto])|]);
    (split; [reflexivity|]);
    intros d Hdev;
    match goal with
    | |- context [ZigbeeService.updateDeviceState _ _ ?p _] =>
        destruct (updateDeviceState_known (now w) addr p (service w) d Hdev)
          as [d' [Hst [_ [Hm _]]]]
    end;
    rewrite Hm, lookup_insert_eq; simpl; by rewrite Hst.
Qed.

Lemma readState_best_effort_witness :
  exists st,
    (readState Demo.addr Demo.lightWorld).1 = Resolved st
    /\ st = {[ "state" := VStr "ON" ]}
    /\ st !! "brightness" = None /\ st !! "color_temp" = None
    /\ state <$> ZigbeeService.devices
                   (service (readState Demo.addr Demo.lightWorld).2) !! Demo.addr
       = Some {[ "state" := VStr "ON" ]}.
Proof.
  destruct (readState_best_effort Demo.lightWorld Demo.addr Demo.bulb Demo.endpoint1)
    as [st [Hres [_ [_ [Hb [Hc [_ [Honly [_ Hcache]]]]]]]]];
    [reflexivity|reflexivity|].
  exists st. split; [exact Hres|].
  destruct (Honly {[ "onOff" := VNum 1 ]}) as [Hst _];
    [reflexivity|reflexivity|reflexivity|].
  split; [rewrite Hst; vm_compute; reflexivity|].
  split; [exact Hb|]. split; [exact Hc|].
  rewrite (Hcache (ZigbeeService.mapDevice (fun _ => Some Demo.lightDefinition) Demo.bulb));
    [|vm_compute; reflexivity].
  rewrite Hst. vm_compute. reflexivity.
Defined.

(** ** The compound command [turnOnLight] *)

Lemma keeps_refl (w : World) : keeps w w.
Proof. split; [reflexivity|]. intros a d H. exists d. split; [exact H|reflexivity]. Qed.

Lemma keeps_trans (w1 w2 w3 : World) : keeps w1 w2 -> keeps w2 w3 -> keeps w1 w3.
Proof.
  intros [Hp1 Hc1] [Hp2 Hc2]. split; [by etrans|].
  intros a d H. destruct (Hc1 a d H) as [d' [H' Hd]].
  destruct (Hc2 a d' H') as [d'' [H'' Hd']].
  exists d''. split; [exact H''|by etrans].
Qed.

Lemma keeps_logged (c : Command) (w : World) : keeps w (logged c w).
Proof.
  split; [by exists [c]|]. intros a d H. exists d. split; [exact H|reflexivity].
Qed.

Lemma keeps_cached (addr : string) (st : gmap string val) (w : World) :
  keeps w (cached addr st w).
Proof.
  split; [reflexivity|]. intros a d H. unfold cached, updateDeviceState. simpl.
  destruct (ZigbeeService.devices (service w) !! addr) as [d0|] eqn:E.
  - destruct (updateDeviceState_known (now w) addr st (service w) d0 E)
      as [d' [Hst [_ [Hm _]]]].
    rewrite Hm. destruct (decide (a = addr)) as [->|Hne].
    + exists d'. rewrite lookup_insert_eq. split; [reflexivity|].
      assert (d = d0) as -> by congruence.
      rewrite Hst. unfold ZigbeeService.merge. rewrite dom_union. set_solver.
    + exists d. rewrite lookup_insert_ne by congruence. split; [exact H|reflexivity].
  - rewrite (updateDeviceState_absent (now w) addr st (service w) E).
    exists d. split; [exact H|reflexivity].
Qed.

Lemma sameTargets_cached (addr : string) (st : gmap string val) (w : World) :
  sameTargets w (cached addr st w).
Proof.
  unfold sameTargets, cached, updateDeviceState, ZigbeeService.updateDeviceState. simpl.
  destruct (ZigbeeService.devices (service w) !! addr); by split.
Qed.

Lemma behaves_ret (addr : string) : behaves addr (ret tt) [].
Proof.
  intros w. exists []. simpl. rewrite app_nil_r.
  split; [reflexivity|]. split; [apply sublist_nil_l|].
  split; [apply keeps_refl|]. split; [apply sameTargets_refl|]. reflexivity.
Qed.

Lemma behaves_sendCommand (addr key : string) (value : val) (options : gmap string val) :
  behaves addr (sendCommand addr key value options) [(key, value)].
Proof.
  intros w. destruct (resolve (service w) addr key) as [[ep f]|] eqn:H.
  - exists [commandTo addr ep key value options].
    split; [by apply (sendCommand_resolved_issued _ _ _ _ w ep f)|].
    split; [reflexivity|].
    assert (Hw : keeps w (sendCommand addr key value options w).2
                 /\ sameTargets w (sendCommand addr key value options w).2).
    { rewrite (sendCommand_resolved _ _ _ _ w ep f H). simpl.
      destruct (f _ _ _ _) as [msg|[[st|]|]]; simpl;
        try (split; [apply keeps_logged|by split]).
      split; [eapply keeps_trans; [apply keeps_logged|apply keeps_cached]|].
      apply (sameTargets_cached addr st (logged (commandTo addr ep key value options) w)). }
    destruct Hw as [Hk Ht]. split; [exact Hk|]. split; [exact Ht|]. reflexivity.
  - exists []. rewrite (sendCommand_unresolved _ _ _ _ w H), app_nil_r.
    split; [reflexivity|]. split; [apply sublist_nil_l|].
    split; [apply keeps_refl|]. split; [apply sameTargets_refl|].
    intros Hall _. destruct (Hall key) as [x Hx]; [set_solver|congruence].
Qed.

Lemma behaves_cons (addr : string) (m : M unit) (ms : list (M unit))
    (k1 k2 : list (string * val)) :
  behaves addr m k1 -> behaves addr (runAll ms) k2 ->
  behaves addr (runAll (m :: ms)) (k1 ++ k2).
Proof.
  intros Hm Hms w. destruct (Hm w) as [l1 [Hi1 [Hs1 [Hk1 [Ht1 Hc1]]]]].
  simpl. destruct (m w) as [[[]|e] w1] eqn:E; simpl in *.
  - destruct (Hms w1) as [l2 [Hi2 [Hs2 [Hk2 [Ht2 Hc2]]]]].
    exists (l1 ++ l2). split; [by rewrite Hi2, Hi1, app_assoc|].
    split; [rewrite map_app; by apply sublist_app|].
    split; [by eapply keeps_trans|]. split; [by eapply sameTargets_trans|].
    intros Hall Hres. rewrite map_app. f_equal.
    + apply Hc1; [|reflexivity]. intros key Hkey. apply Hall.
      rewrite fmap_app, elem_of_app. by left.
    + apply Hc2; [|exact Hres]. intros key Hkey.
      rewrite (resolve_sameTargets w w1 addr key Ht1). apply Hall.
      rewrite fmap_app, elem_of_app. by right.
  - exists l1. split; [exact Hi1|]. split; [by apply sublist_inserts_r|].
    split; [exact Hk1|]. split; [exact Ht1|]. intros _ [=].
Qed.

Lemma behaves_setColor (numberToString : Q -> string) (addr : string)
    (c : ColorOptions) (tr : option Q) :
  behaves addr (setColor numberToString addr (Some c) tr)
    match colorPayload numberToString c with
    | Some payload => [("color", payload)]
    | None => []
    end.
Proof.
  unfold setColor. destruct (colorPayload numberToString c).
  - apply behaves_sendCommand.
  - apply behaves_ret.
Qed.

Lemma behaves_optionally {A : Type} (addr : string) (o : option A)
    (f : A -> M unit) (g : A -> list (string * val)) (ms : list (M unit))
    (k2 : list (string * val)) :
  (forall a, behaves addr (f a) (g a)) ->
  behaves addr (runAll ms) k2 ->
  behaves addr (runAll (optionally o f ++ ms))
               (match o with Some a => g a | None => [] end ++ k2).
Proof.
  intros Hf Hms. destruct o as [a|]; [|exact Hms].
  apply (behaves_cons addr (f a) ms (g a) k2); [apply Hf|exact Hms].
Qed.

Lemma behaves_optionally_last {A : Type} (addr : string) (o : option A)
    (f : A -> M unit) (g : A -> list (string * val)) :
  (forall a, behaves addr (f a) (g a)) ->
  behaves addr (runAll (optionally o f)) (match o with Some a => g a | None => [] end).
Proof.
  intros Hf. destruct o as [a|]; [|apply behaves_ret].
  rewrite <- (app_nil_r (g a)).
  apply (behaves_cons addr (f a) [] (g a) []); [apply Hf|apply behaves_ret].
Qed.

Lemma behaves_subcalls (numberToString : Q -> string) (addr : string)
    (options : option LightControlOptions) :
  behaves addr (runAll (subcalls numberToString addr options))
               (expected numberToString options).
Proof.
  unfold subcalls, expected.
  apply (behaves_cons addr _ _ [_]); [apply behaves_sendCommand|].
  apply (behaves_optionally addr (options ≫= brightness) _
           (fun b => [("brightness", Js.of_number (clampedBrightness b))]));
    [intros b; apply behaves_sendCommand|].
  apply (behaves_optionally addr (options ≫= color_temp) _
           (fun ct => [("color_temp", VNum (mireds ct))]));
    [intros ct; apply behaves_sendCommand|].
  apply (behaves_optionally_last addr (options ≫= color) _
           (fun c => match colorPayload numberToString c with
                     | Some payload => [("color", payload)]
                     | None => []
                     end)).
  intros c. apply behaves_setColor.
Qed.

Lemma bind_ext {A B : Type} (m : M A) (k k' : A -> M B) (w : World) :
  (forall a w', k a w' = k' a w') -> bind m k w = bind m k' w.
Proof. intros H. unfold bind. destruct (m w) as [[a|e] w']; [apply H|reflexivity]. Qed.

Lemma runAll_optionally {A : Type} (o : option A) (f : A -> M unit)
    (ms : list (M unit)) (w : World) :
  runAll (optionally o f ++ ms) w
    = bind (match o with Some a => f a | None => ret tt end) (fun _ => runAll ms) w.
Proof. destruct o; reflexivity. Qed.

Lemma runAll_optionally_last {A : Type} (o : option A) (f : A -> M unit) (w : World) :
  runAll (optionally o f) w = (match o with Some a => f a | None => ret tt end) w.
Proof.
  destruct o as [a|]; [|reflexivity]. simpl.
  destruct (f a w) as [[[]|e] w']; reflexivity.
Qed.

(** [turnOnLight] runs its sub-calls one after the other. *)
Lemma turnOnLight_runAll (numberToString : Q -> string) (addr : string)
    (options : option LightControlOptions) (w : World) :
  turnOnLight numberToString addr options w
    = runAll (subcalls numberToString addr options) w.
Proof.
  unfold turnOnLight, subcalls.
  change (runAll ([?m] ++ ?ms) w) with (bind m (fun _ => runAll ms) w).
  apply bind_ext. intros _ w1. rewrite runAll_optionally.
  apply bind_ext. intros _ w2. rewrite runAll_optionally.
  apply bind_ext. intros _ w3. now rewrite runAll_optionally_last.
Qed.

Lemma runAll_app (pre post : list (M unit)) (w : World) :
  runAll (pre ++ post) w =
    match runAll pre w with
    | (Resolved _, w1) => runAll post w1
    | (Rejected e, w1) => (Rejected e, w1)
    end.
Proof.
  revert w. induction pre as [|m pre IH]; intros w; simpl; [reflexivity|].
  destruct (m w) as [[[]|e] w1]; [apply IH|reflexivity].
Qed.

Lemma keeps_of_behaves (addr : string) (m : M unit) (kvs : list (string * val)) :
  behaves addr m kvs -> forall w, keeps w (m w).2.
Proof. intros H w. destruct (H w) as [l [_ [_ [Hk _]]]]. exact Hk. Qed.

Lemma runAll_keeps (ms : list (M unit)) :
  Forall (fun m => forall w, keeps w (m w).2) ms ->
  forall w, keeps w (runAll ms w).2.
Proof.
  induction 1 as [|m ms Hm _ IH]; intros w; simpl; [apply keeps_refl|].
  specialize (Hm w). destruct (m w) as [[[]|e] w1]; simpl in *; [|exact Hm].
  eapply keeps_trans; [exact Hm|apply IH].
Qed.

Lemma subcalls_keep (numberToString : Q -> string) (addr : string)
    (options : option LightControlOptions) :
  Forall (fun m => forall w, keeps w (m w).2) (subcalls numberToString addr options).
Proof.
  unfold subcalls. repeat apply Forall_app_2.
  - apply Forall_singleton. eapply keeps_of_behaves, behaves_sendCommand.
  - destruct (options ≫= brightness); [|constructor].
    apply Forall_singleton. eapply keeps_of_behaves, behaves_sendCommand.
  - destruct (options ≫= color_temp); [|constructor].
    apply Forall_singleton. eapply keeps_of_behaves, behaves_sendCommand.
  - destruct (options ≫= color); [|constructor].
    apply Forall_singleton. eapply keeps_of_behaves, behaves_setColor.
Qed.

(** C6. [turnOnLight] runs its sub-calls one after the other, the On
    command first, then the brightness, color-temperature and color
    sub-calls of the fields that are present, and stops at the first that
    rejects. The commands it issues are therefore, in this order, among: On,
    then brightness if the field is present, then color temperature if
    present, then color if present; and they are all of these when the
    device has a converter for each and the call resolves. Nothing is
    undone: once a first part of the sub-calls has resolved, what it logged
    and cached is still there in the end, whatever a later sub-call does. *)
Theorem turnOnLight_ordered (numberToString : Q -> string) (w : World)
    (addr : string) (options : option LightControlOptions) :
  turnOnLight numberToString addr options w
    = runAll (subcalls numberToString addr options) w
  /\ sublist (map kv (commandsOf (turnOnLight numberToString addr options) w))
        ([("state", VStr "ON")]
         ++ match options ≫= brightness with
            | Some b => [("brightness", Js.of_number (clampedBrightness b))]
            | None => []
            end
         ++ match options ≫= color_temp with
            | Some ct => [("color_temp", VNum (mireds ct))]
            | None => []
            end
         ++ match options ≫= color with
            | Some c =>
                match colorPayload numberToString c with
                | Some payload => [("color", payload)]
                | None => []
                end
            | None => []
            end)
  /\ ((forall key, key ∈ (expected numberToString options).*1 ->
         is_Some (resolve (service w) addr key)) ->
      (turnOnLight numberToString addr options w).1 = Resolved tt ->
      map kv (commandsOf (turnOnLight numberToString addr options) w)
        = expected numberToString options)
  /\ (forall pre post w1,
        subcalls numberToString addr options = pre ++ post ->
        runAll pre w = (Resolved tt, w1) ->
        keeps w1 (turnOnLight numberToString addr options w).2).
Proof.
  split; [apply turnOnLight_runAll|].
  unfold commandsOf. rewrite turnOnLight_runAll.
  destruct (behaves_subcalls numberToString addr options w)
    as [l [Hi [Hs [_ [_ Hc]]]]].
  rewrite Hi, drop_app_length.
  split; [exact Hs|]. split; [exact Hc|].
  intros pre post w1 Hsplit Hpre.
  rewrite Hsplit, runAll_app, Hpre.
  apply runAll_keeps.
  pose proof (subcalls_keep numberToString addr options) as Hall.
  rewrite Hsplit in Hall. by apply Forall_app in Hall as [_ Hpost].
Qed.

Lemma turnOnLight_ordered_witness :
  map kv (commandsOf (turnOnLight Demo.showNumber Demo.addr (Some Demo.fullOptions))
                     Demo.lightWorld)
    = [("state", VStr "ON"); ("brightness", VNum 203); ("color_temp", VNum 250);
       ("color", VObj [("hex", VStr "#FF5500")])]
  /\ (turnOnLight Demo.showNumber Demo.addr (Some Demo.dimOptions) Demo.plugWorld).1
     = Rejected (ConverterNotFound "brightness")
  /\ keeps (sendCommand Demo.addr "state" (power_val ON)
                        (optionsFields (Some Demo.dimOptions)) Demo.plugWorld).2
           (turnOnLight Demo.showNumber Demo.addr (Some Demo.dimOptions) Demo.plugWorld).2
  /\ state <$> ZigbeeService.devices
                 (service (turnOnLight Demo.showNumber Demo.addr (Some Demo.dimOptions)
                             Demo.plugWorld).2) !! Demo.addr
     = Some {[ "state" := VStr "ON" ]}.
Proof.
  split; [|split; [|split]].
  - destruct (turnOnLight_ordered Demo.showNumber Demo.lightWorld Demo.addr
                (Some Demo.fullOptions)) as [_ [_ [Hall _]]].
    rewrite Hall; [reflexivity| |vm_compute; reflexivity].
    intros key Hkey. apply list_elem_of_In in Hkey. simpl in Hkey.
    destruct Hkey as [<-|[<-|[<-|[<-|[]]]]]; vm_compute; eauto.
  - vm_compute. reflexivity.
  - destruct (turnOnLight_ordered Demo.showNumber Demo.plugWorld Demo.addr
                (Some Demo.dimOptions)) as [_ [_ [_ Hkeep]]].
    apply (Hkeep [sendCommand Demo.addr "state" (power_val ON)
                    (optionsFields (Some Demo.dimOptions))]
                 [setBrightness Demo.addr (Num 80) None]); [reflexivity|].
    vm_compute. reflexivity.
  - vm_compute. reflexivity.
Defined.

(** ** Sample runs *)

Example mireds_samples :
  mireds 4000 = 250%Q /\ mireds 250 = 250%Q /\ mireds 500 = 500%Q
  /\ mireds 501 = 1996%Q /\ mireds (-3) = (-3)%Q.
Proof. repeat split; vm_compute; reflexivity. Qed.

Example clampedBrightness_samples :
  clampedBrightness (Num 0) = Num 0 /\ clampedBrightness (Num 25) = Num 64
  /\ clampedBrightness (Num 50) = Num 127 /\ clampedBrightness (Num 100) = Num 254
  /\ clampedBrightness (Num (-10)) = Num 0 /\ clampedBrightness (Num 150) = Num 254
  /\ clampedBrightness NaN = NaN.
Proof. repeat split; vm_compute; reflexivity. Qed.

Example classify_samples :
  ZigbeeCoordinator.classify Demo.cli "Error: EBUSY: resource busy or locked"
    = ZigbeeCoordinator.PortBusy "/dev/ttyUSB0"
  /\ ZigbeeCoordinator.classify Demo.cli "RSTACK timeout"
     = ZigbeeCoordinator.DongleUnresponsive "/dev/ttyUSB0" false
  /\ ZigbeeCoordinator.classify Demo.cli "boom" = ZigbeeCoordinator.StartFailed "boom".
Proof. repeat split; vm_compute; reflexivity. Qed.

(** The plug scenario of the specification: On resolves, the brightness
    sub-call finds no converter, and the cache holds [{state: ON}] only. *)
Example plug_turnOnLight_brightness :
  (turnOnLight Demo.showNumber Demo.addr (Some Demo.dimOptions) Demo.plugWorld).1
    = Rejected (ConverterNotFound "brightness")
  /\ map kv (commandsOf (turnOnLight Demo.showNumber Demo.addr (Some Demo.dimOptions))
                        Demo.plugWorld) = [("state", VStr "ON")].
Proof. split; vm_compute; reflexivity. Qed.

(** An empty hex string alone is no representation: nothing is sent. *)
Example setColor_empty_hex_alone :
  setColor Demo.showNumber Demo.addr
    (Some {| hex := Some ""; rgb := None; hue := None; saturation := None |}) None
    Demo.lightWorld = (Resolved tt, Demo.lightWorld).
Proof. reflexivity. Qed.

(** * Further properties of the sources *)

(** ** The lifecycle of the command-line coordinator *)

(** X1. [start] of the coordinator resolves exactly when the coordinator is
    running afterwards. A rejected start leaves it not started with no
    controller handle, and a later start with a controller that answers
    then succeeds. On a coordinator that is already started, [start]
    returns ["already-started"] and changes nothing. *)
Theorem coordinator_start_outcome (fresh : Herdsman.Controller)
    (s : ZigbeeCoordinator.t) :
  (ZigbeeCoordinator.isRunning (ZigbeeCoordinator.start fresh s).2 = true
   <-> exists r, (ZigbeeCoordinator.start fresh s).1 = Resolved r)
  /\ (forall e, (ZigbeeCoordinator.start fresh s).1 = Rejected e ->
        ZigbeeCoordinator.started (ZigbeeCoordinator.start fresh s).2 = false
        /\ ZigbeeCoordinator.controller (ZigbeeCoordinator.start fresh s).2 = None)
  /\ (forall e fresh',
        (ZigbeeCoordinator.start fresh s).1 = Rejected e ->
        Herdsman.start_rejects fresh' = None ->
        ZigbeeCoordinator.start fresh' (ZigbeeCoordinator.start fresh s).2
          = (Resolved (Herdsman.start_result fresh'),
             ZigbeeCoordinator.update (Some fresh') true s))
  /\ (ZigbeeCoordinator.started s = true ->
      ZigbeeCoordinator.start fresh s = (Resolved "already-started", s)).
Proof.
  unfold ZigbeeCoordinator.start, ZigbeeCoordinator.isRunning.
  destruct (ZigbeeCoordinator.started s) eqn:Hs; simpl.
  - rewrite Hs. split; [split; eauto|]. split; [discriminate|].
    split; [discriminate|reflexivity].
  - destruct (Herdsman.start_rejects fresh) as [msg|] eqn:Hr; simpl.
    + split; [split; [discriminate|intros [r [=]]]|].
      split; [auto|]. split; [|discriminate].
      intros e fresh' _ ->. reflexivity.
    + split; [split; eauto|]. split; [discriminate|].
      split; discriminate.
Qed.

Lemma running_has_controller (s : ZigbeeCoordinator.t) :
  ZigbeeCoordinator.reachable s ->
  ZigbeeCoordinator.isRunning s = true ->
  exists c, ZigbeeCoordinator.getController s = Resolved c.
Proof.
  intros Hr Hs. pose proof (reachable_started_has_controller s Hr Hs) as Hinv.
  unfold ZigbeeCoordinator.getController.
  unfold ZigbeeCoordinator.isRunning in Hs. rewrite Hs. simpl.
  destruct (ZigbeeCoordinator.controller s) as [c|]; [eauto|now destruct Hinv].
Qed.

(** X2. In every state the coordinator can be in, being running,
    [getController] answering and [listDevices] answering are the same
    thing; when it is not running both reject with the not-running error. *)
Theorem running_iff_controller (s : ZigbeeCoordinator.t) :
  ZigbeeCoordinator.reachable s ->
  (ZigbeeCoordinator.isRunning s = true
   <-> exists c, ZigbeeCoordinator.getController s = Resolved c)
  /\ (ZigbeeCoordinator.isRunning s = true
      <-> exists l, DeviceRegistry.listDevices s = Resolved l)
  /\ (ZigbeeCoordinator.isRunning s = false ->
      ZigbeeCoordinator.getController s = Rejected ZigbeeCoordinator.NotRunning
      /\ DeviceRegistry.listDevices s
         = Rejected (DeviceRegistry.CoordinatorError ZigbeeCoordinator.NotRunning)).
Proof.
  intros Hr. pose proof (reachable_started_has_controller s Hr) as Hinv.
  unfold ZigbeeCoordinator.isRunning, DeviceRegistry.listDevices,
    ZigbeeCoordinator.getController.
  destruct (ZigbeeCoordinator.started s); simpl.
  - destruct (ZigbeeCoordinator.controller s) as [c|]; [|now destruct Hinv].
    split; [split; eauto|]. split; [split; eauto|discriminate].
  - split; [split; [discriminate|intros [c [=]]]|].
    split; [split; [discriminate|intros [l [=]]]|auto].
Qed.

Lemma running_iff_controller_witness :
  ZigbeeCoordinator.getController Site.cli = Resolved Site.radio
  /\ DeviceRegistry.listDevices Demo.cliDisconnected
     = Rejected (DeviceRegistry.CoordinatorError ZigbeeCoordinator.NotRunning).
Proof.
  split; [reflexivity|].
  assert (Hr : ZigbeeCoordinator.reachable Demo.cliDisconnected).
  { eapply ZigbeeCoordinator.reachable_step;
      [|apply (ZigbeeCoordinator.step_disconnect Demo.cli)].
    eapply ZigbeeCoordinator.reachable_step;
      [apply (ZigbeeCoordinator.reachable_make "/dev/ttyUSB0" "ember")|].
    apply (ZigbeeCoordinator.step_start Demo.radio). }
  destruct (running_iff_controller Demo.cliDisconnected Hr) as [_ [_ Hoff]].
  apply Hoff. reflexivity.
Defined.

(** X3. After [stop], in every state the coordinator can be in, a [start]
    with a controller that answers succeeds: the coordinator is running
    again on the new controller and returns what the controller's start
    returned. *)
Theorem coordinator_restart (fresh : Herdsman.Controller) (s : ZigbeeCoordinator.t) :
  ZigbeeCoordinator.reachable s ->
  Herdsman.start_rejects fresh = None ->
  ZigbeeCoordinator.start fresh (ZigbeeCoordinator.stop s).2
    = (Resolved (Herdsman.start_result fresh),
       ZigbeeCoordinator.update (Some fresh) true s).
Proof.
  intros Hr Hf. pose proof (reachable_started_has_controller s Hr) as Hinv.
  unfold ZigbeeCoordinator.stop.
  destruct (ZigbeeCoordinator.started s) eqn:Hs; simpl.
  - destruct (ZigbeeCoordinator.controller s) as [c|]; [|now destruct Hinv].
    destruct (Herdsman.stop_rejects c); unfold ZigbeeCoordinator.start; simpl;
      now rewrite Hf.
  - unfold ZigbeeCoordinator.start. now rewrite Hs, Hf.
Qed.

Lemma coordinator_restart_witness :
  ZigbeeCoordinator.isRunning
    (ZigbeeCoordinator.start Site.radio (ZigbeeCoordinator.stop Demo.cliDisconnected).2).2
  = true.
Proof.
  rewrite (coordinator_restart Site.radio Demo.cliDisconnected); [reflexivity| |reflexivity].
  eapply ZigbeeCoordinator.reachable_step;
    [|apply (ZigbeeCoordinator.step_disconnect Demo.cli)].
  eapply ZigbeeCoordinator.reachable_step;
    [apply (ZigbeeCoordinator.reachable_make "/dev/ttyUSB0" "ember")|].
  apply (ZigbeeCoordinator.step_start Demo.radio).
Defined.

(** ** The pairing window of the command-line coordinator *)

Lemma joinTime_bounds (seconds : Q) :
  exists r, Pairing.joinTime (Num seconds) = Num r /\ (1 <= r /\ r <= 254)%Q.
Proof.
  unfold Pairing.joinTime, Js.Math_min, Js.Math_max. eexists. split; [reflexivity|].
  destruct (Qle_bool seconds 1) eqn:E1.
  - destruct (Qle_bool 1 254) eqn:E2; [split; [apply Qle_refl|now apply Qle_bool_iff]|
                                       discriminate].
  - assert (H1 : (1 < seconds)%Q).
    { apply Qnot_le_lt. intros H. apply Qle_bool_iff in H. congruence. }
    destruct (Qle_bool seconds 254) eqn:E2.
    + split; [now apply Qlt_le_weak|now apply Qle_bool_iff].
    + split; [discriminate|apply Qle_refl].
Qed.

Lemma joinTime_cases (seconds r : Q) :
  Pairing.joinTime (Num seconds) = Num r ->
  ((1 <= seconds -> seconds <= 254 -> r == seconds)
   /\ (seconds < 1 -> r = 1)
   /\ (254 < seconds -> r = 254))%Q.
Proof.
  unfold Pairing.joinTime, Js.Math_min, Js.Math_max. intros [= <-]. split; [|split].
  - intros H1 H2. destruct (Qle_bool seconds 1) eqn:E1.
    + apply Qle_bool_iff in E1. simpl. now apply Qle_antisym.
    + apply Qle_bool_iff in H2. rewrite H2. reflexivity.
  - intros H. assert (E : Qle_bool seconds 1 = true)
      by (apply Qle_bool_iff; now apply Qlt_le_weak).
    now rewrite E.
  - intros H. assert (E1 : Qle_bool seconds 1 = false).
    { destruct (Qle_bool seconds 1) eqn:E; [|reflexivity].
      apply Qle_bool_iff in E. exfalso.
      apply (Qlt_irrefl 254). eapply Qlt_le_trans; [exact H|].
      eapply Qle_trans; [exact E|discriminate]. }
    rewrite E1. destruct (Qle_bool seconds 254) eqn:E2; [|reflexivity].
    apply Qle_bool_iff in E2. exfalso. exact (Qlt_not_le _ _ H E2).
Qed.

(** X4. [permitJoin(seconds)] of the coordinator asks the controller once,
    for [Math.min(Math.max(seconds, 1), 254)]. For every number of seconds
    that is not NaN this is a duration between 1 and 254: the seconds given
    when they are in that range, 1 below it and 254 above it. NaN is not
    brought into the range: it is handed to the controller as NaN.
    [disableJoin] asks for 0. On a coordinator that is not running both
    reject before the controller is asked anything. *)
Theorem permitJoin_clamps (seconds : number) (s : ZigbeeCoordinator.t) :
  (forall t, In t (Pairing.permitJoin seconds s).2 ->
     match seconds with
     | NaN => t = NaN
     | Num q =>
         exists r, t = Num r
           /\ (1 <= r /\ r <= 254
               /\ (1 <= q -> q <= 254 -> r == q)
               /\ (q < 1 -> r = 1) /\ (254 < q -> r = 254))%Q
     end)
  /\ (forall c, ZigbeeCoordinator.getController s = Resolved c ->
        (Pairing.permitJoin seconds s).2 = [Pairing.joinTime seconds]
        /\ (Pairing.disableJoin s).2 = [Num 0])
  /\ (forall e, ZigbeeCoordinator.getController s = Rejected e ->
        Pairing.permitJoin seconds s = (Rejected (Pairing.NotRunning e), [])
        /\ Pairing.disableJoin s = (Rejected (Pairing.NotRunning e), [])).
Proof.
  unfold Pairing.permitJoin, Pairing.disableJoin, Pairing.ask.
  destruct (ZigbeeCoordinator.getController s) as [c|e0]; simpl.
  - split; [|split; [|discriminate]].
    + intros t Hin.
      assert (t = Pairing.joinTime seconds) as ->
        by (destruct (Herdsman.permitJoin_rejects c); destruct Hin as [<-|[]]; reflexivity).
      destruct seconds as [|q]; [reflexivity|].
      destruct (joinTime_bounds q) as [r [Hr [Hlo Hhi]]].
      destruct (joinTime_cases q r Hr) as [Hin' [Hlt Hgt]].
      exists r. auto 7.
    + intros c' _. destruct (Herdsman.permitJoin_rejects c); auto.
  - split; [intros t Hin; destruct Hin|]. split; [discriminate|].
    intros e [= <-]. auto.
Qed.

Example permitJoin_samples :
  (Pairing.permitJoin (Num 60) Demo.cli).2 = [Num 60]
  /\ (Pairing.permitJoin (Num 0) Demo.cli).2 = [Num 1]
  /\ (Pairing.permitJoin (Num 3600) Demo.cli).2 = [Num 254]
  /\ Pairing.permitJoin NaN Demo.cli = (Resolved tt, [NaN])
  /\ Pairing.permitJoin (Num 60) Demo.cliDisconnected
     = (Rejected (Pairing.NotRunning ZigbeeCoordinator.NotRunning), []).
Proof. repeat split; vm_compute; reflexivity. Qed.

(** ** The main menu *)

(** X5. The main menu always ends with the logs and exit entries; it offers
    Start exactly when the coordinator is not running and Stop exactly when
    it is. In every state the coordinator can be in, each entry offered
    whose screen needs the controller (pairing, listing, control) finds the
    controller available. *)
Theorem menu_gating :
  (forall b, exists front,
      map Menu.value (Menu.buildMenu b) = front ++ [Menu.ShowLogs; Menu.Exit])
  /\ (forall b, In Menu.StartCoordinator (map Menu.value (Menu.buildMenu b)) <-> b = false)
  /\ (forall b, In Menu.StopCoordinator (map Menu.value (Menu.buildMenu b)) <-> b = true)
  /\ (forall s c,
        ZigbeeCoordinator.reachable s ->
        In c (map Menu.value (Menu.buildMenu (ZigbeeCoordinator.isRunning s))) ->
        Menu.needsController c = true ->
        exists ctrl, ZigbeeCoordinator.getController s = Resolved ctrl).
Proof.
  split; [intros [|];
          [exists [Menu.StopCoordinator; Menu.PermitJoin; Menu.ListDevices;
                   Menu.ControlDevice]
          |exists [Menu.StartCoordinator]]; reflexivity|].
  split; [intros [|]; simpl; split; intros H; try discriminate; try reflexivity;
          [repeat (destruct H as [H|H]; try discriminate); destruct H|auto]|].
  split; [intros [|]; simpl; split; intros H; try discriminate; try reflexivity;
          [auto|repeat (destruct H as [H|H]; try discriminate); destruct H]|].
  intros s c Hr Hin Hneed. apply (running_has_controller s Hr).
  destruct (ZigbeeCoordinator.isRunning s); [reflexivity|]. simpl in Hin.
  destruct Hin as [<-|[<-|[<-|[]]]]; discriminate.
Qed.

(** ** The device registry *)

Lemma find_address_filter (addr : string) (P : Herdsman.Device -> bool)
    (l : list Herdsman.Device) (d : Herdsman.Device) :
  List.find (fun dev => String.eqb (Herdsman.ieeeAddr dev) addr)
            (List.filter P l) = Some d ->
  exists dev, List.find (fun dev => String.eqb (Herdsman.ieeeAddr dev) addr) l = Some dev.
Proof.
  induction l as [|x l IH]; simpl; [discriminate|].
  destruct (String.eqb (Herdsman.ieeeAddr x) addr) eqn:E; [eauto|].
  destruct (P x); simpl; [rewrite E|]; exact IH.
Qed.

Lemma stdpp_filter_bool {A : Type} (P : A -> bool) (l : list A) :
  filter (fun x => P x) l = List.filter P l.
Proof.
  induction l as [|x l IH]; [reflexivity|]. simpl.
  rewrite filter_cons, IH. destruct (P x) eqn:E.
  - rewrite decide_True; [reflexivity|exact I].
  - rewrite decide_False; [reflexivity|intros []].
Qed.

Lemma find_map_describe (addr : string) (l : list Herdsman.Device) :
  List.find (fun d => String.eqb (DeviceRegistry.ieeeAddr d) addr)
            (map DeviceRegistry.describe l)
  = DeviceRegistry.describe
      <$> List.find (fun dev => String.eqb (Herdsman.ieeeAddr dev) addr) l.
Proof.
  induction l as [|x l IH]; simpl; [reflexivity|].
  destruct (String.eqb (Herdsman.ieeeAddr x) addr); [reflexivity|exact IH].
Qed.

Lemma sublist_map_filter {A B : Type} (f : A -> B) (P : A -> bool) (l : list A) :
  sublist (map f (List.filter P l)) (map f l).
Proof.
  induction l as [|x l IH]; simpl; [constructor|].
  destruct (P x); simpl; [by apply sublist_skip|by apply sublist_cons].
Qed.

(** X6. [listDevices] never lists the coordinator itself: on a running
    coordinator it returns the descriptions of the devices whose type is
    not ["Coordinator"], each as often as the controller has it and in the
    controller's order, and nothing else. *)
Theorem listDevices_excludes_coordinator (s : ZigbeeCoordinator.t)
    (c : Herdsman.Controller) :
  ZigbeeCoordinator.getController s = Resolved c ->
  exists l,
    DeviceRegistry.listDevices s = Resolved l
    /\ l = map DeviceRegistry.describe
             (List.filter (fun dev => negb (String.eqb (Herdsman.type dev) "Coordinator"))
                          (Herdsman.devices c))
    /\ sublist (map DeviceRegistry.ieeeAddr l)
               (map Herdsman.ieeeAddr (Herdsman.devices c))
    /\ Forall (fun d => DeviceRegistry.type d <> "Coordinator") l
    /\ (length l <= length (Herdsman.devices c))%nat
    /\ (forall dev, In dev (Herdsman.devices c) ->
          Herdsman.type dev <> "Coordinator" ->
          In (DeviceRegistry.describe dev) l)
    /\ (forall d, In d l ->
          exists dev, In dev (Herdsman.devices c) /\ d = DeviceRegistry.describe dev)
    /\ ((forall dev, In dev (Herdsman.devices c) -> Herdsman.type dev <> "Coordinator") ->
        l = map DeviceRegistry.describe (Herdsman.devices c)).
Proof.
  intros Hc. unfold DeviceRegistry.listDevices. rewrite Hc.
  eexists. split; [reflexivity|]. rewrite stdpp_filter_bool.
  split; [reflexivity|]. split; [|split; [|split; [|split; [|split]]]].
  - rewrite map_map. simpl.
    apply (sublist_map_filter Herdsman.ieeeAddr).
  - apply List.Forall_forall. intros d Hd.
    apply in_map_iff in Hd as [dev [<- Hdev]].
    apply filter_In in Hdev as [_ Hty]. simpl.
    destruct (String.eqb_spec (Herdsman.type dev) "Coordinator"); [discriminate|assumption].
  - rewrite length_map. apply List.filter_length_le.
  - intros dev Hin Hty. apply in_map. apply filter_In. split; [exact Hin|].
    destruct (String.eqb_spec (Herdsman.type dev) "Coordinator"); [contradiction|reflexivity].
  - intros d Hd. apply in_map_iff in Hd as [dev [<- Hdev]].
    apply filter_In in Hdev as [Hin _]. eauto.
  - intros Hall. f_equal.
    induction (Herdsman.devices c) as [|x l IH]; [reflexivity|]. simpl.
    destruct (String.eqb_spec (Herdsman.type x) "Coordinator") as [E|_].
    + destruct (Hall x); [by left|exact E].
    + simpl. f_equal. apply IH. intros dev Hin. apply Hall. by right.
Qed.

Lemma listDevices_excludes_coordinator_witness :
  exists l,
    DeviceRegistry.listDevices Site.cli = Resolved l
    /\ map DeviceRegistry.ieeeAddr l
       = [Demo.addr; "0x00124b0000000002"; "0x00124b0000000003"].
Proof.
  destruct (listDevices_excludes_coordinator Site.cli Site.radio) as [l [Hl [-> _]]];
    [reflexivity|].
  eexists. split; [exact Hl|]. reflexivity.
Defined.

(** X7. The [supportsOnOff] flag of a listed device tells what [sendOnOff]
    will do: when it is set, [sendOnOff] finds an endpoint and issues the one
    command; when it is not, [sendOnOff] rejects with the unsupported-action
    error and issues nothing. *)
Theorem supportsOnOff_decides_sendOnOff (s : ZigbeeCoordinator.t) (addr : string)
    (dev : Herdsman.Device) (action : Actions.OnOffAction) :
  DeviceRegistry.getHerdsmanDevice s addr = Resolved dev ->
  (DeviceRegistry.supportsOnOff (DeviceRegistry.describe dev) = true
   <-> is_Some (DeviceRegistry.onOffEndpointOf dev))
  /\ (DeviceRegistry.supportsOnOff (DeviceRegistry.describe dev) = true ->
      exists call, (Actions.sendOnOff s addr action).2 = [call]
                   /\ Actions.sent_command call = Actions.actionName action)
  /\ (DeviceRegistry.supportsOnOff (DeviceRegistry.describe dev) = false ->
      Actions.sendOnOff s addr action
        = (Rejected (DeviceRegistry.UnsupportedActionError
                       (Actions.actionName action) addr), [])).
Proof.
  intros Hd.
  assert (Hiff : DeviceRegistry.supportsOnOff (DeviceRegistry.describe dev) = true
                 <-> is_Some (DeviceRegistry.onOffEndpointOf dev)).
  { unfold DeviceRegistry.describe, DeviceRegistry.onOffEndpointOf. simpl. split.
    - intros H. apply existsb_exists in H as [ep [Hin Hep]].
      destruct (List.find _ _) as [e|] eqn:Ei; [eauto|].
      pose proof (find_none _ _ Ei ep Hin) as Hni. simpl in Hni.
      rewrite Hni in Hep. simpl in Hep.
      destruct (List.find (fun e => DeviceRegistry.hasOnOff (Herdsman.outputClusters e)) _)
        as [e|] eqn:Eo; [eauto|].
      pose proof (find_none _ _ Eo ep Hin) as Hno. simpl in Hno. congruence.
    - intros [ep Hep]. apply existsb_exists.
      destruct (List.find _ _) as [e|] eqn:Ei.
      + apply find_some in Ei as [Hin Hp]. exists e. split; [exact Hin|].
        simpl in Hp. now rewrite Hp.
      + apply find_some in Hep as [Hin Hp]. exists ep. split; [exact Hin|].
        simpl in Hp. rewrite Hp. apply orb_true_r. }
  split; [exact Hiff|].
  unfold Actions.sendOnOff, DeviceRegistry.getOnOffEndpoint. rewrite Hd. split.
  - intros H. apply Hiff in H as [ep Hep]. rewrite Hep.
    destruct (Herdsman.command ep _ _); eexists; split; reflexivity.
  - intros H. destruct (DeviceRegistry.onOffEndpointOf dev) as [ep|] eqn:He; [|reflexivity].
    assert (Ht : DeviceRegistry.supportsOnOff (DeviceRegistry.describe dev) = true)
      by (apply Hiff; eauto).
    congruence.
Qed.

Lemma supportsOnOff_decides_sendOnOff_witness :
  Actions.sendOnOff Site.cli "0x00124b0000000003" Actions.on
    = (Rejected (DeviceRegistry.UnsupportedActionError "on" "0x00124b0000000003"), [])
  /\ exists call, (Actions.sendOnOff Site.cli "0x00124b0000000002" Actions.off).2 = [call].
Proof.
  split.
  - destruct (supportsOnOff_decides_sendOnOff Site.cli "0x00124b0000000003" Site.sensor
                Actions.on) as [_ [_ Hno]]; [reflexivity|].
    apply Hno. reflexivity.
  - destruct (supportsOnOff_decides_sendOnOff Site.cli "0x00124b0000000002" Site.remote
                Actions.off) as [_ [Hyes _]]; [reflexivity|].
    destruct Hyes as [call [Hc _]]; [reflexivity|]. eauto.
Defined.

(** X8. The endpoint [getOnOffEndpoint] chooses is an endpoint of the
    device that has the On/Off cluster, among its input clusters whenever
    some endpoint of the device has it there, also when an earlier endpoint
    has it among its output clusters only. *)
Theorem onOffEndpoint_prefers_input (dev : Herdsman.Device) (ep : Herdsman.Endpoint) :
  DeviceRegistry.onOffEndpointOf dev = Some ep ->
  In ep (Herdsman.endpoints dev)
  /\ (DeviceRegistry.hasOnOff (Herdsman.inputClusters ep) = true
      \/ DeviceRegistry.hasOnOff (Herdsman.outputClusters ep) = true)
  /\ ((exists e, In e (Herdsman.endpoints dev)
                 /\ DeviceRegistry.hasOnOff (Herdsman.inputClusters e) = true) ->
      DeviceRegistry.hasOnOff (Herdsman.inputClusters ep) = true).
Proof.
  unfold DeviceRegistry.onOffEndpointOf.
  destruct (List.find _ _) as [e|] eqn:Ei.
  - intros [= <-]. apply find_some in Ei as [Hin Hp]. simpl in Hp. auto.
  - intros Ho. apply find_some in Ho as [Hin Hp]. simpl in Hp.
    split; [exact Hin|]. split; [auto|].
    intros [e [He Hpe]]. pose proof (find_none _ _ Ei e He) as Hn. simpl in Hn. congruence.
Qed.

Lemma onOffEndpoint_prefers_input_witness :
  Herdsman.ID <$> DeviceRegistry.onOffEndpointOf Site.remote = Some 3
  /\ DeviceRegistry.hasOnOff
       (Herdsman.inputClusters (Site.silent 3 [0; 6] [])) = true.
Proof.
  split; [reflexivity|].
  apply (onOffEndpoint_prefers_input Site.remote (Site.silent 3 [0; 6] []));
    [reflexivity|].
  exists (Site.silent 3 [0; 6] []). split; [right; left; reflexivity|reflexivity].
Defined.

(** X9. A device that [findDevice] returns has the address asked for, is
    not the coordinator, and is known to [getHerdsmanDevice] under that
    address; whenever [getHerdsmanDevice] rejects, so does [findDevice],
    with the same error. *)
Theorem findDevice_sound (s : ZigbeeCoordinator.t) (addr : string) :
  (forall d, DeviceRegistry.findDevice s addr = Resolved d ->
     DeviceRegistry.ieeeAddr d = addr
     /\ DeviceRegistry.type d <> "Coordinator"
     /\ exists dev, DeviceRegistry.getHerdsmanDevice s addr = Resolved dev
                    /\ Herdsman.ieeeAddr dev = addr)
  /\ (forall e, DeviceRegistry.getHerdsmanDevice s addr = Rejected e ->
        DeviceRegistry.findDevice s addr = Rejected e).
Proof.
  unfold DeviceRegistry.findDevice, DeviceRegistry.listDevices,
    DeviceRegistry.getHerdsmanDevice, Herdsman.getDeviceByIeeeAddr.
  destruct (ZigbeeCoordinator.getController s) as [c|e0];
    [|split; [discriminate|intros e [= <-]; reflexivity]].
  rewrite stdpp_filter_bool, find_map_describe.
  destruct (List.find _ (List.filter _ _)) as [dev|] eqn:Ef; simpl.
  - split.
    + intros d [= <-]. pose proof Ef as Ef'.
      apply find_some in Ef as [Hin Ha]. apply filter_In in Hin as [_ Hty].
      split; [now apply String.eqb_eq|]. split.
      * simpl. destruct (String.eqb_spec (Herdsman.type dev) "Coordinator");
          [discriminate|assumption].
      * destruct (find_address_filter addr _ _ dev Ef') as [dev' Hd'].
        rewrite Hd'. exists dev'. split; [reflexivity|].
        apply find_some in Hd' as [_ Ha']. now apply String.eqb_eq.
    + intros e. destruct (List.find _ (Herdsman.devices c)) as [dev'|] eqn:Eg;
        [discriminate|].
      exfalso. apply find_some in Ef as [Hin Ha]. apply filter_In in Hin as [Hin _].
      pose proof (find_none _ _ Eg dev Hin) as Hn. simpl in Hn. congruence.
  - split; [discriminate|].
    intros e. destruct (List.find _ (Herdsman.devices c)); [discriminate|].
    intros [= <-]. reflexivity.
Qed.

(** ** The coordinator service and its device map *)

Lemma loadDevices_lookup (cat : Zhc.Catalog) (l : list Herdsman.Device)
    (m : gmap string ZigbeeDevice) (a : string) (d : ZigbeeDevice) :
  ZigbeeService.loadDevices cat l m !! a = Some d ->
  m !! a = Some d
  \/ exists dev, In dev l /\ Herdsman.type dev <> "Coordinator"
                 /\ Herdsman.ieeeAddr dev = a /\ d = ZigbeeService.mapDevice cat dev.
Proof.
  revert m. induction l as [|x l IH]; intros m; simpl; [auto|].
  destruct (String.eqb_spec (Herdsman.type x) "Coordinator") as [Hc|Hc].
  - intros H. destruct (IH m H) as [Hm|[dev [Hin Hrest]]]; [auto|].
    right. exists dev. split; [now right|exact Hrest].
  - intros H. destruct (IH _ H) as [Hm|[dev [Hin Hrest]]].
    + simpl in Hm. destruct (decide (Herdsman.ieeeAddr x = a)) as [<-|Hne].
      * rewrite lookup_insert_eq in Hm. injection Hm as <-.
        right. exists x. split; [now left|]. auto.
      * rewrite lookup_insert_ne in Hm by exact Hne. auto.
    + right. exists dev. split; [now right|exact Hrest].
Qed.

Lemma loadDevices_keeps (cat : Zhc.Catalog) (l : list Herdsman.Device)
    (m : gmap string ZigbeeDevice) (a : string) :
  is_Some (m !! a) -> is_Some (ZigbeeService.loadDevices cat l m !! a).
Proof.
  revert m. induction l as [|x l IH]; intros m Hm; simpl; [exact Hm|].
  destruct (String.eqb (Herdsman.type x) "Coordinator"); [now apply IH|].
  apply IH. simpl. destruct (decide (Herdsman.ieeeAddr x = a)) as [<-|Hne].
  - rewrite lookup_insert_eq. eauto.
  - now rewrite lookup_insert_ne.
Qed.

Lemma loadDevices_loads (cat : Zhc.Catalog) (l : list Herdsman.Device)
    (m : gmap string ZigbeeDevice) (dev : Herdsman.Device) :
  In dev l -> Herdsman.type dev <> "Coordinator" ->
  is_Some (ZigbeeService.loadDevices cat l m !! Herdsman.ieeeAddr dev).
Proof.
  revert m. induction l as [|x l IH]; intros m [].
  - subst x. intros Hc. simpl.
    destruct (String.eqb_spec (Herdsman.type dev) "Coordinator"); [contradiction|].
    apply loadDevices_keeps. simpl. rewrite lookup_insert_eq. eauto.
  - intros Hc. simpl.
    destruct (String.eqb (Herdsman.type x) "Coordinator"); now apply IH.
Qed.

(** X10. A successful [start] of the service from the instance as
    constructed loads every device of the controller except the
    coordinator: each entry of the map is the fresh description of a
    non-coordinator device of the controller, filed under its address with
    an empty cached state, and every such device has an entry. *)
Theorem start_loads_devices (fresh : Herdsman.Controller) (cat : Zhc.Catalog) :
  Herdsman.start_rejects fresh = None ->
  (ZigbeeService.start fresh (ZigbeeService.init cat)).1 = Resolved tt
  /\ ZigbeeService.isStarted (ZigbeeService.start fresh (ZigbeeService.init cat)).2 = true
  /\ (forall a d,
        ZigbeeService.getDevice (ZigbeeService.start fresh (ZigbeeService.init cat)).2 a
          = Some d ->
        state d = ∅ /\ ieeeAddr d = a
        /\ exists dev, In dev (Herdsman.devices fresh)
                       /\ Herdsman.type dev <> "Coordinator"
                       /\ d = ZigbeeService.mapDevice cat dev)
  /\ (forall dev, In dev (Herdsman.devices fresh) ->
        Herdsman.type dev <> "Coordinator" ->
        is_Some (ZigbeeService.getDevice
                   (ZigbeeService.start fresh (ZigbeeService.init cat)).2
                   (Herdsman.ieeeAddr dev))).
Proof.
  intros Hf. unfold ZigbeeService.start, ZigbeeService.getDevice. simpl. rewrite Hf.
  unfold ZigbeeService.loadExistingDevices. simpl.
  split; [reflexivity|]. split; [reflexivity|]. split.
  - intros a d H. apply loadDevices_lookup in H as [H|[dev [Hin [Hc [Ha ->]]]]].
    + rewrite lookup_empty in H. discriminate.
    + split; [reflexivity|]. split; [exact Ha|]. eauto.
  - intros dev Hin Hc. now apply loadDevices_loads.
Qed.

Lemma start_loads_devices_witness :
  ZigbeeService.getDevice Site.service "0x00124b0000000001" = None
  /\ is_Some (ZigbeeService.getDevice Site.service "0x00124b0000000003").
Proof.
  split; [vm_compute; reflexivity|].
  destruct (start_loads_devices Site.radio Site.catalog) as [_ [_ [_ Hall]]];
    [reflexivity|].
  apply (Hall Site.sensor); [right; right; right; left; reflexivity|discriminate].
Defined.

(** X11. Once a [start] of the service has resolved the service is
    started, and a second [start] resolves without changing anything: the
    controller, the device map and the cached states stay. *)
Theorem service_start_twice (fresh fresh' : Herdsman.Controller) (s : ZigbeeService.t) :
  (ZigbeeService.start fresh s).1 = Resolved tt ->
  ZigbeeService.isStarted (ZigbeeService.start fresh s).2 = true
  /\ ZigbeeService.start fresh' (ZigbeeService.start fresh s).2
     = (Resolved tt, (ZigbeeService.start fresh s).2).
Proof.
  intros Hres.
  assert (Hs : ZigbeeService.isStarted (ZigbeeService.start fresh s).2 = true).
  { revert Hres. unfold ZigbeeService.start.
    destruct (ZigbeeService.isStarted s) eqn:Hs; simpl; [intros _; exact Hs|].
    destruct (Herdsman.start_rejects fresh); simpl; [discriminate|]. intros _.
    unfold ZigbeeService.loadExistingDevices. simpl. reflexivity. }
  split; [exact Hs|].
  generalize dependent (ZigbeeService.start fresh s).2. intros s1 Hs1.
  unfold ZigbeeService.start. now rewrite Hs1.
Qed.

Lemma service_start_twice_witness :
  ZigbeeService.start Site.dead Site.service = (Resolved tt, Site.service).
Proof.
  apply (service_start_twice Site.radio Site.dead (ZigbeeService.init Site.catalog)).
  reflexivity.
Defined.

(** X12. A device that joins, announces itself or completes its interview
    is filed anew with an empty cached state, whatever had been cached for
    it, and the other devices are untouched; an interview event with
    another status leaves the map as it is. *)
Theorem announce_resets_cached_state (d : Herdsman.Device) (s : ZigbeeService.t) :
  state <$> ZigbeeService.getDevice (ZigbeeService.onDeviceAnnounce d s)
              (Herdsman.ieeeAddr d) = Some ∅
  /\ state <$> ZigbeeService.getDevice (ZigbeeService.onDeviceJoined d s)
                 (Herdsman.ieeeAddr d) = Some ∅
  /\ state <$> ZigbeeService.getDevice (ZigbeeService.onDeviceInterview d "successful" s)
                 (Herdsman.ieeeAddr d) = Some ∅
  /\ (forall now_ partial,
        state <$> ZigbeeService.getDevice
                    (ZigbeeService.onDeviceAnnounce d
                       (ZigbeeService.updateDeviceState now_ (Herdsman.ieeeAddr d)
                          partial s))
                    (Herdsman.ieeeAddr d) = Some ∅)
  /\ (forall a, a <> Herdsman.ieeeAddr d ->
        ZigbeeService.getDevice (ZigbeeService.onDeviceAnnounce d s) a
          = ZigbeeService.getDevice s a
        /\ ZigbeeService.getDevice (ZigbeeService.onDeviceJoined d s) a
           = ZigbeeService.getDevice s a
        /\ ZigbeeService.getDevice (ZigbeeService.onDeviceInterview d "successful" s) a
           = ZigbeeService.getDevice s a)
  /\ (forall status, status <> "successful" ->
        ZigbeeService.devices (ZigbeeService.onDeviceInterview d status s)
          = ZigbeeService.devices s).
Proof.
  unfold ZigbeeService.getDevice, ZigbeeService.onDeviceAnnounce,
    ZigbeeService.onDeviceJoined, ZigbeeService.onDeviceInterview. simpl.
  rewrite !lookup_insert_eq. simpl.
  split; [reflexivity|]. split; [reflexivity|]. split; [reflexivity|].
  split; [intros now_ partial; now rewrite lookup_insert_eq|]. split.
  - intros a Ha. rewrite lookup_insert_ne; [auto|congruence].
  - intros status Hs. destruct (String.eqb_spec status "successful"); [contradiction|].
    reflexivity.
Qed.

(** X13. When a device leaves, its entry and cached state are gone, the
    other devices are untouched, and the device-left event is emitted, also
    for an address that was not in the map; a join followed by the leave of
    the same device leaves the map without that address. *)
Theorem leave_removes_device (addr : string) (s : ZigbeeService.t) :
  ZigbeeService.getDevice (ZigbeeService.onDeviceLeave addr s) addr = None
  /\ (forall a, a <> addr ->
        ZigbeeService.getDevice (ZigbeeService.onDeviceLeave addr s) a
          = ZigbeeService.getDevice s a)
  /\ ZigbeeService.emitted (ZigbeeService.onDeviceLeave addr s)
     = ZigbeeService.emitted s ++ [DEVICE_LEFT addr]
  /\ (forall d, Herdsman.ieeeAddr d = addr ->
        ZigbeeService.devices (ZigbeeService.onDeviceLeave addr
                                 (ZigbeeService.onDeviceJoined d s))
          = delete addr (ZigbeeService.devices s)).
Proof.
  unfold ZigbeeService.getDevice, ZigbeeService.onDeviceLeave,
    ZigbeeService.onDeviceJoined. simpl.
  split; [apply lookup_delete_eq|].
  split; [intros a Ha; apply lookup_delete_ne; congruence|].
  split; [reflexivity|].
  intros d <-. apply delete_insert_eq.
Qed.

Lemma wellKeyed_insert (m : gmap string ZigbeeDevice) (d : ZigbeeDevice) :
  ServiceStates.wellKeyed m ->
  friendlyName d = Some (ieeeAddr d) ->
  ServiceStates.wellKeyed (<[ieeeAddr d := d]> m).
Proof.
  intros Hm Hd a x. destruct (decide (ieeeAddr d = a)) as [<-|Hne].
  - rewrite lookup_insert_eq. intros [= <-]. auto.
  - rewrite lookup_insert_ne by exact Hne. apply Hm.
Qed.

Lemma wellKeyed_loadDevices (cat : Zhc.Catalog) (l : list Herdsman.Device)
    (m : gmap string ZigbeeDevice) :
  ServiceStates.wellKeyed m -> ServiceStates.wellKeyed (ZigbeeService.loadDevices cat l m).
Proof.
  revert m. induction l as [|x l IH]; intros m Hm; simpl; [exact Hm|].
  destruct (String.eqb (Herdsman.type x) "Coordinator"); [now apply IH|].
  apply IH. now apply (wellKeyed_insert m (ZigbeeService.mapDevice cat x)).
Qed.

Lemma wellKeyed_step (s s' : ZigbeeService.t) :
  ServiceStates.step s s' ->
  ServiceStates.wellKeyed (ZigbeeService.devices s) ->
  ServiceStates.wellKeyed (ZigbeeService.devices s').
Proof.
  intros Hstep Hm. destruct Hstep as
    [fresh s|s|permit timeout s|now_ addr partial s|d s|addr s|d status s|d s
    |now_ addr type_ cluster data s|s].
  - unfold ZigbeeService.start. destruct (ZigbeeService.isStarted s); [exact Hm|].
    destruct (Herdsman.start_rejects fresh); simpl; [exact Hm|].
    unfold ZigbeeService.loadExistingDevices. simpl. now apply wellKeyed_loadDevices.
  - unfold ZigbeeService.stop. destruct (ZigbeeService.controller s) as [c|]; [|exact Hm].
    destruct (ZigbeeService.isStarted s); simpl; [|exact Hm].
    destruct (Herdsman.stop_rejects c); simpl; [exact Hm|]. intros a d.
    rewrite lookup_empty. discriminate.
  - unfold ZigbeeService.permitJoin.
    destruct (ZigbeeService.controller s) as [c|]; [|exact Hm].
    destruct (ZigbeeService.isStarted s); simpl; [|exact Hm].
    destruct (Herdsman.permitJoin_rejects c); exact Hm.
  - unfold ZigbeeService.updateDeviceState.
    destruct (ZigbeeService.devices s !! addr) as [d|] eqn:E; [|exact Hm]. simpl.
    destruct (Hm addr d E) as [Ha Hn]. intros a x.
    destruct (decide (addr = a)) as [<-|Hne].
    + rewrite lookup_insert_eq. intros [= <-]. simpl. auto.
    + rewrite lookup_insert_ne by exact Hne. apply Hm.
  - simpl. now apply (wellKeyed_insert _ (ZigbeeService.mapDevice _ d)).
  - simpl. intros a x Hx. apply lookup_delete_Some in Hx as [_ Hx]. now apply Hm.
  - unfold ZigbeeService.onDeviceInterview. simpl.
    destruct (String.eqb status "successful"); simpl; [|exact Hm].
    now apply (wellKeyed_insert _ (ZigbeeService.mapDevice _ d)).
  - simpl. now apply (wellKeyed_insert _ (ZigbeeService.mapDevice _ d)).
  - unfold ServiceEvents.onMessage.
    destruct (ZigbeeService.devices s !! addr) as [d|] eqn:E; [|exact Hm]. simpl.
    destruct (Hm addr d E) as [Ha Hn]. intros a x.
    destruct (decide (addr = a)) as [<-|Hne].
    + rewrite lookup_insert_eq. intros [= <-]. simpl. auto.
    + rewrite lookup_insert_ne by exact Hne. apply Hm.
  - exact Hm.
Qed.

Lemma started_step (s s' : ZigbeeService.t) :
  ServiceStates.step s s' ->
  (ZigbeeService.isStarted s = true -> ZigbeeService.controller s <> None) ->
  ZigbeeService.isStarted s' = true -> ZigbeeService.controller s' <> None.
Proof.
  intros Hstep Hinv. destruct Hstep as
    [fresh s|s|permit timeout s|now_ addr partial s|d s|addr s|d status s|d s
    |now_ addr type_ cluster data s|s].
  - unfold ZigbeeService.start. case_eq (ZigbeeService.isStarted s); intros E.
    + simpl. intros _. now apply Hinv.
    + case_eq (Herdsman.start_rejects fresh); [intros msg _|intros _]; simpl.
      * congruence.
      * unfold ZigbeeService.loadExistingDevices. simpl. intros _. discriminate.
  - unfold ZigbeeService.stop.
    case_eq (ZigbeeService.controller s); [intros c Ec|intros Ec]; [|exact Hinv].
    case_eq (ZigbeeService.isStarted s); intros E; simpl; [|congruence].
    case_eq (Herdsman.stop_rejects c); [intros msg _|intros _]; simpl;
      [congruence|discriminate].
  - unfold ZigbeeService.permitJoin.
    case_eq (ZigbeeService.controller s); [intros c Ec|intros Ec]; [|exact Hinv].
    case_eq (ZigbeeService.isStarted s); intros E; simpl; [|congruence].
    case_eq (Herdsman.permitJoin_rejects c); [intros msg _|intros _]; simpl; congruence.
  - unfold ZigbeeService.updateDeviceState.
    case_eq (ZigbeeService.devices s !! addr); [intros d0 _|intros _]; exact Hinv.
  - exact Hinv.
  - exact Hinv.
  - unfold ZigbeeService.onDeviceInterview.
    case_eq (String.eqb status "successful"); intros _; exact Hinv.
  - exact Hinv.
  - unfold ServiceEvents.onMessage.
    case_eq (ZigbeeService.devices s !! addr); [intros d0 _|intros _]; exact Hinv.
  - simpl. discriminate.
Qed.

Lemma emitted_step (s s' : ZigbeeService.t) :
  ServiceStates.step s s' ->
  ZigbeeService.emitted s `prefix_of` ZigbeeService.emitted s'.
Proof.
  intros Hstep. destruct Hstep as
    [fresh s|s|permit timeout s|now_ addr partial s|d s|addr s|d status s|d s
    |now_ addr type_ cluster data s|s].
  - unfold ZigbeeService.start. destruct (ZigbeeService.isStarted s); [reflexivity|].
    destruct (Herdsman.start_rejects fresh); simpl; [reflexivity|].
    unfold ZigbeeService.loadExistingDevices. simpl. reflexivity.
  - unfold ZigbeeService.stop. destruct (ZigbeeService.controller s) as [c|]; [|reflexivity].
    destruct (ZigbeeService.isStarted s); simpl; [|reflexivity].
    destruct (Herdsman.stop_rejects c); reflexivity.
  - unfold ZigbeeService.permitJoin.
    destruct (ZigbeeService.controller s) as [c|]; [|reflexivity].
    destruct (ZigbeeService.isStarted s); simpl; [|reflexivity].
    destruct (Herdsman.permitJoin_rejects c); simpl; [reflexivity|].
    now apply prefix_app_r.
  - unfold ZigbeeService.updateDeviceState.
    destruct (ZigbeeService.devices s !! addr); [|reflexivity]. simpl.
    now apply prefix_app_r.
  - simpl. now apply prefix_app_r.
  - simpl. now apply prefix_app_r.
  - unfold ZigbeeService.onDeviceInterview. simpl.
    destruct (String.eqb status "successful"); simpl; now apply prefix_app_r.
  - simpl. now apply prefix_app_r.
  - unfold ServiceEvents.onMessage.
    destruct (ZigbeeService.devices s !! addr); [|reflexivity]. simpl.
    now apply prefix_app_r.
  - simpl. now apply prefix_app_r.
Qed.

(** X14. In every state the service can be in, whatever methods were
    called and whatever events arrived: each device of the map is filed
    under its own address and named by it, and a started service holds a
    controller. No method or listener ever removes an event already
    emitted. *)
Theorem service_invariants (s : ZigbeeService.t) :
  ServiceStates.reachable s ->
  (forall a d, ZigbeeService.getDevice s a = Some d ->
     ieeeAddr d = a /\ friendlyName d = Some a)
  /\ (ZigbeeService.isStarted s = true -> ZigbeeService.controller s <> None)
  /\ (forall s', ServiceStates.step s s' ->
        ZigbeeService.emitted s `prefix_of` ZigbeeService.emitted s').
Proof.
  intros Hr. split; [|split; [|intros s'; apply emitted_step]].
  - induction Hr as [cat|s s' _ IH Hstep].
    + intros a d. unfold ZigbeeService.getDevice. simpl. rewrite lookup_empty.
      discriminate.
    + exact (wellKeyed_step s s' Hstep IH).
  - induction Hr as [cat|s s' _ IH Hstep]; [discriminate|].
    exact (started_step s s' Hstep IH).
Qed.

Lemma service_invariants_witness :
  ieeeAddr <$> ZigbeeService.getDevice
                 (ZigbeeService.updateDeviceState 7 Demo.addr {[ "state" := VStr "ON" ]}
                    Site.service) Demo.addr
  = Some Demo.addr.
Proof.
  assert (Hr : ServiceStates.reachable
                 (ZigbeeService.updateDeviceState 7 Demo.addr {[ "state" := VStr "ON" ]}
                    Site.service)).
  { eapply ServiceStates.reachable_step; [|apply ServiceStates.step_update].
    eapply ServiceStates.reachable_step;
      [apply (ServiceStates.reachable_init Site.catalog)|].
    apply (ServiceStates.step_start Site.radio). }
  destruct (service_invariants _ Hr) as [Hkey _].
  destruct (ZigbeeService.getDevice _ Demo.addr) as [d|] eqn:E.
  - simpl. f_equal. apply (Hkey Demo.addr d E).
  - exfalso. revert E. vm_compute. discriminate.
Defined.

(** X15. A [stop] of the service that is rejected leaves the service
    exactly as it was, still started and with its devices, so it can be
    tried again; once a [stop] has resolved, a further [stop] resolves and
    changes nothing. *)
Theorem service_stop_retry (s : ZigbeeService.t) :
  (forall e, (ZigbeeService.stop s).1 = Rejected e ->
     (ZigbeeService.stop s).2 = s /\ ZigbeeService.isStarted s = true)
  /\ ((ZigbeeService.stop s).1 = Resolved tt ->
      ZigbeeService.stop (ZigbeeService.stop s).2
        = (Resolved tt, (ZigbeeService.stop s).2))
  /\ (ZigbeeService.isStarted s = false -> ZigbeeService.stop s = (Resolved tt, s)).
Proof.
  unfold ZigbeeService.stop.
  destruct (ZigbeeService.controller s) as [c|] eqn:Ec; simpl.
  - destruct (ZigbeeService.isStarted s) eqn:Es; simpl.
    + destruct (Herdsman.stop_rejects c) eqn:Er; simpl.
      * split; [auto|]. split; discriminate.
      * split; [discriminate|]. split; [|discriminate]. intros _. now rewrite Ec.
    + split; [discriminate|]. split; [|reflexivity]. intros _. now rewrite Ec, Es.
  - split; [discriminate|]. split; [|reflexivity]. intros _. now rewrite Ec.
Qed.

(** X16. [updateDeviceState] touches one device only: the addresses of the
    map are the same, every other device is as it was, the device updated
    keeps its identity and metadata, and the controller, the started flag
    and the pairing flag are unchanged. *)
Theorem updateDeviceState_frame (now_ : Z) (addr : string) (partial : gmap string val)
    (s : ZigbeeService.t) :
  dom (ZigbeeService.devices (ZigbeeService.updateDeviceState now_ addr partial s))
    = dom (ZigbeeService.devices s)
  /\ (forall a, a <> addr ->
        ZigbeeService.getDevice (ZigbeeService.updateDeviceState now_ addr partial s) a
          = ZigbeeService.getDevice s a)
  /\ (forall d, ZigbeeService.getDevice s addr = Some d ->
        exists d',
          ZigbeeService.getDevice (ZigbeeService.updateDeviceState now_ addr partial s) addr
            = Some d'
          /\ ieeeAddr d' = ieeeAddr d /\ networkAddress d' = networkAddress d
          /\ friendlyName d' = friendlyName d /\ modelId d' = modelId d
          /\ type d' = type d /\ interviewCompleted d' = interviewCompleted d
          /\ lastSeen d' = Some now_)
  /\ ZigbeeService.controller (ZigbeeService.updateDeviceState now_ addr partial s)
     = ZigbeeService.controller s
  /\ ZigbeeService.isStarted (ZigbeeService.updateDeviceState now_ addr partial s)
     = ZigbeeService.isStarted s
  /\ ZigbeeService.isPermitJoinEnabled (ZigbeeService.updateDeviceState now_ addr partial s)
     = ZigbeeService.isPermitJoinEnabled s.
Proof.
  unfold ZigbeeService.getDevice, ZigbeeService.updateDeviceState,
    ZigbeeService.isPermitJoinEnabled.
  destruct (ZigbeeService.devices s !! addr) as [d|] eqn:E; simpl.
  - split; [|split; [|split]].
    + apply dom_insert_lookup_L. eauto.
    + intros a Ha. apply lookup_insert_ne. congruence.
    + intros d0 [= <-]. eexists. rewrite lookup_insert_eq.
      split; [reflexivity|]. simpl. repeat split.
    + repeat split.
  - split; [reflexivity|]. split; [reflexivity|]. split; [discriminate|repeat split].
Qed.

(** X17. Merges of the state cache compose: merging two partial states one
    after the other is merging their own merge, the later one winning;
    partial states that name different attributes can be merged in either
    order; the empty partial state changes nothing. *)
Theorem merge_composes (prior p1 p2 : gmap string val) :
  ZigbeeService.merge (ZigbeeService.merge prior p1) p2
    = ZigbeeService.merge prior (ZigbeeService.merge p1 p2)
  /\ (dom p1 ## dom p2 ->
      ZigbeeService.merge (ZigbeeService.merge prior p1) p2
        = ZigbeeService.merge (ZigbeeService.merge prior p2) p1)
  /\ ZigbeeService.merge prior ∅ = prior
  /\ dom (ZigbeeService.merge prior p1) = dom prior ∪ dom p1.
Proof.
  split; [|split; [|split]].
  - apply map_eq. intros k. rewrite !merge_lookup. now destruct (p2 !! k).
  - intros Hd. apply map_eq. intros k. rewrite !merge_lookup.
    destruct (p1 !! k) as [v1|] eqn:E1, (p2 !! k) as [v2|] eqn:E2; try reflexivity.
    exfalso. apply (Hd k); apply elem_of_dom; eauto.
  - apply map_eq. intros k. rewrite merge_lookup. now rewrite lookup_empty.
  - unfold ZigbeeService.merge. rewrite dom_union_L. apply (comm_L (∪)).
Qed.

(** ** The kind of a device *)

Ltac next_char t :=
  destruct t as [|[[] [] [] [] [] [] [] []] t]; try reflexivity.

Lemma match_light_switch {A : Type} (t : string) (X Y Z : A) :
  match t with
  | "light" => X
  | "switch" => Y
  | _ => Z
  end = if String.eqb t "light" then X else if String.eqb t "switch" then Y else Z.
Proof. do 7 (try next_char t). Qed.

Lemma match_power {A : Type} (n : string) (X Z : A) :
  match n with
  | "power" => X
  | _ => Z
  end = if String.eqb n "power" then X else Z.
Proof. do 6 (try next_char n). Qed.

Lemma scanExposes_cons (e : Zhc.Expose) (rest : list Zhc.Expose) :
  (ZigbeeService.scanExposes (e :: rest) = LIGHT /\ Zhc.expose_type e = Some "light")
  \/ (ZigbeeService.scanExposes (e :: rest) = PLUG
      /\ (Zhc.expose_type e = Some "switch" \/ Zhc.expose_name e = Some "power"))
  \/ (ZigbeeService.scanExposes (e :: rest) = ZigbeeService.scanExposes rest
      /\ Zhc.expose_type e <> Some "light").
Proof.
  assert (Hname :
            match Zhc.expose_name e with
            | Some "power" => PLUG
            | _ => ZigbeeService.scanExposes rest
            end = PLUG /\ Zhc.expose_name e = Some "power"
            \/ match Zhc.expose_name e with
               | Some "power" => PLUG
               | _ => ZigbeeService.scanExposes rest
               end = ZigbeeService.scanExposes rest).
  { destruct (Zhc.expose_name e) as [n|]; [|auto].
    rewrite (match_power n PLUG (ZigbeeService.scanExposes rest)).
    destruct (String.eqb_spec n "power") as [->|]; auto. }
  simpl. destruct (Zhc.expose_type e) as [t|].
  - rewrite match_light_switch.
    destruct (String.eqb_spec t "light") as [->|Hl]; [auto|].
    destruct (String.eqb_spec t "switch") as [->|Hs]; [auto|].
    destruct Hname as [[-> Hn]| ->]; [auto|].
    right; right. split; [reflexivity|congruence].
  - destruct Hname as [[-> Hn]| ->]; [auto|].
    right; right. split; [reflexivity|discriminate].
Qed.

Lemma scanExposes_kinds (l : list Zhc.Expose) :
  (ZigbeeService.scanExposes l = LIGHT
   /\ exists e, In e l /\ Zhc.expose_type e = Some "light")
  \/ (ZigbeeService.scanExposes l = PLUG
      /\ exists e, In e l /\ (Zhc.expose_type e = Some "switch"
                              \/ Zhc.expose_name e = Some "power"))
  \/ (ZigbeeService.scanExposes l = UNKNOWN
      /\ forall e, In e l -> Zhc.expose_type e <> Some "light").
Proof.
  induction l as [|e l IH]; [right; right; split; [reflexivity|intros e []]|].
  destruct (scanExposes_cons e l) as [[-> Ht]|[[-> Hp]|[-> Hn]]].
  - left. split; [reflexivity|]. exists e. split; [now left|exact Ht].
  - right; left. split; [reflexivity|]. exists e. split; [now left|exact Hp].
  - destruct IH as [[Hl [x [Hin Hx]]]|[[Hp [x [Hin Hx]]]|[Hu Hall]]].
    + left. split; [exact Hl|]. exists x. split; [now right|exact Hx].
    + right; left. split; [exact Hp|]. exists x. split; [now right|exact Hx].
    + right; right. split; [exact Hu|]. intros x [<-|Hin]; [exact Hn|now apply Hall].
Qed.

(** X18. [determineDeviceType] only ever answers light, plug or unknown,
    never switch or sensor. It answers light only if the definition exposes
    an entry of type ["light"], plug only if it exposes an entry of type
    ["switch"] or named ["power"], and unknown whenever the catalog has no
    definition for the device or the definition has no exposes. *)
Theorem determineDeviceType_kinds (cat : Zhc.Catalog) (d : Herdsman.Device) :
  (ZigbeeService.determineDeviceType cat d = LIGHT
   \/ ZigbeeService.determineDeviceType cat d = PLUG
   \/ ZigbeeService.determineDeviceType cat d = UNKNOWN)
  /\ (ZigbeeService.determineDeviceType cat d = LIGHT ->
      exists definition l e,
        cat d = Some definition /\ Zhc.exposes definition = Some l
        /\ In e l /\ Zhc.expose_type e = Some "light")
  /\ (ZigbeeService.determineDeviceType cat d = PLUG ->
      exists definition l e,
        cat d = Some definition /\ Zhc.exposes definition = Some l /\ In e l
        /\ (Zhc.expose_type e = Some "switch" \/ Zhc.expose_name e = Some "power"))
  /\ (cat d = None -> ZigbeeService.determineDeviceType cat d = UNKNOWN)
  /\ (forall definition, cat d = Some definition -> Zhc.exposes definition = None ->
        ZigbeeService.determineDeviceType cat d = UNKNOWN)
  /\ type (ZigbeeService.mapDevice cat d) <> SWITCH
  /\ type (ZigbeeService.mapDevice cat d) <> SENSOR.
Proof.
  assert (Hkinds : ZigbeeService.determineDeviceType cat d = LIGHT
                   \/ ZigbeeService.determineDeviceType cat d = PLUG
                   \/ ZigbeeService.determineDeviceType cat d = UNKNOWN).
  { unfold ZigbeeService.determineDeviceType.
    destruct (cat d) as [definition|]; [|auto].
    destruct (Zhc.exposes definition) as [l|]; [|auto].
    destruct (scanExposes_kinds l) as [[-> _]|[[-> _]|[-> _]]]; auto. }
  split; [exact Hkinds|]. split; [|split; [|split; [|split; [|split]]]].
  - unfold ZigbeeService.determineDeviceType.
    destruct (cat d) as [definition|]; [|discriminate].
    destruct (Zhc.exposes definition) as [l|] eqn:El; [|discriminate].
    intros H. destruct (scanExposes_kinds l) as [[_ [e [Hin He]]]|[[Hp _]|[Hu _]]];
      [|congruence|congruence].
    exists definition, l, e. auto.
  - unfold ZigbeeService.determineDeviceType.
    destruct (cat d) as [definition|]; [|discriminate].
    destruct (Zhc.exposes definition) as [l|] eqn:El; [|discriminate].
    intros H. destruct (scanExposes_kinds l) as [[Hl _]|[[_ [e [Hin He]]]|[Hu _]]];
      [congruence| |congruence].
    exists definition, l, e. auto.
  - intros H. unfold ZigbeeService.determineDeviceType. now rewrite H.
  - intros definition H He. unfold ZigbeeService.determineDeviceType. now rewrite H, He.
  - simpl. destruct Hkinds as [-> | [-> | ->]]; discriminate.
  - simpl. destruct Hkinds as [-> | [-> | ->]]; discriminate.
Qed.

(** ** Dispatch of a command: failures and the message *)

(** X19. A [sendCommand] that is rejected for another reason than a throw
    of the converter has done nothing: the world is as before, so no
    command was issued and nothing was cached. The error is the first
    lookup that failed, the device's before the definition's, the
    endpoint's and the converter's. A converter that has no [convertSet]
    makes the call resolve without doing anything either. *)
Theorem sendCommand_fails_fast (addr command : string) (value : val)
    (options : gmap string val) (w : World) (e : Error) :
  (sendCommand addr command value options w).1 = Rejected e ->
  (forall msg, e <> ConverterFailure msg) ->
  (sendCommand addr command value options w).2 = w
  /\ (ZigbeeService.getHerdsmanDevice (service w) addr = None -> e = DeviceNotFound addr)
  /\ (forall hd,
        ZigbeeService.getHerdsmanDevice (service w) addr = Some hd ->
        (ZigbeeService.getDeviceDefinition (service w) hd = None ->
         e = DefinitionNotFound addr)
        /\ (forall definition,
              ZigbeeService.getDeviceDefinition (service w) hd = Some definition ->
              (defaultEndpoint hd = None -> e = EndpointNotFound addr)
              /\ (defaultEndpoint hd <> None ->
                  e = ConverterNotFound command
                  /\ findConverter definition command = None))).
Proof.
  intros Hrej Hne.
  destruct (resolve (service w) addr command) as [[ep f]|] eqn:Hres.
  { destruct (sendCommand_rejected _ _ _ _ w ep f e Hres Hrej) as [msg [_ ->]].
    now destruct (Hne msg). }
  split; [now apply sendCommand_unresolved|].
  revert Hrej Hres. unfold resolve, sendCommand, bind, gets, require, ret, throw. simpl.
  destruct (ZigbeeService.getHerdsmanDevice (service w) addr) as [hd|]; simpl;
    [|intros [= <-] _; split; [reflexivity|intros; congruence]].
  destruct (ZigbeeService.getDeviceDefinition (service w) hd) as [def|] eqn:Ed; simpl;
    [|intros [= <-] _; split; [intros; congruence|]; intros hd' [= <-];
      split; [reflexivity|intros; congruence]].
  destruct (defaultEndpoint hd) as [ep|] eqn:Ee; simpl;
    [|intros [= <-] _; split; [intros; congruence|]; intros hd' [= <-];
      split; [intros; congruence|]; intros def' Hd';
      split; [reflexivity|intros; congruence]].
  destruct (findConverter def command) as [conv|] eqn:Ec; simpl.
  - destruct (Zhc.convertSet conv); simpl; discriminate.
  - intros [= <-] _. split; [intros; congruence|]. intros hd' [= <-].
    split; [intros; congruence|]. intros def' Hd'. split; [intros; congruence|].
    intros _. split; [reflexivity|congruence].
Qed.

Lemma sendCommand_fails_fast_witness :
  (setBrightness Demo.addr (Num 80) None Demo.plugWorld).2 = Demo.plugWorld.
Proof.
  apply (sendCommand_fails_fast Demo.addr "brightness"
           (Js.of_number (clampedBrightness (Num 80))) (transitionOptions None)
           Demo.plugWorld (ConverterNotFound "brightness")).
  - reflexivity.
  - discriminate.
Defined.

(** X20. In the message handed to a converter the options win over the
    command: the message has every option as given, and has the value of
    the command under its key only when the options do not name that key.
    So [turnOnLight] with [{state: 'OFF'}] sends the value ['ON'] with a
    message whose [state] is ['OFF']. *)
Theorem command_message_options (addr key : string) (value : val)
    (options : gmap string val) (w : World) (c : Command) :
  In c (commandsOf (sendCommand addr key value options) w) ->
  cmd_value c = value
  /\ cmd_message c !! key = Some (default value (options !! key))
  /\ (forall k v, options !! k = Some v -> cmd_message c !! k = Some v)
  /\ (forall k, k <> key -> cmd_message c !! k = options !! k).
Proof.
  rewrite sendCommand_commands.
  destruct (resolve (service w) addr key) as [[ep f]|]; [|intros []].
  intros [<-|[]]. simpl. split; [reflexivity|]. split; [|split].
  - rewrite lookup_union, lookup_singleton_eq. now destruct (options !! key).
  - intros k v Hk. rewrite lookup_union, Hk. now destruct ({[key := value]} !! k).
  - intros k Hk. rewrite lookup_union, lookup_singleton_ne by congruence.
    now destruct (options !! k).
Qed.

Lemma command_message_options_witness :
  exists c,
    commandsOf (turnOnLight Demo.showNumber Demo.addr
                  (Some {| opt_state := Some OFF; brightness := None; color_temp := None;
                           transition := None; color := None |})) Demo.lightWorld = [c]
    /\ cmd_value c = VStr "ON" /\ cmd_message c !! "state" = Some (VStr "OFF").
Proof.
  set (o := Some {| opt_state := Some OFF; brightness := None; color_temp := None;
                    transition := None; color := None |}).
  assert (Hc : exists c, commandsOf (sendCommand Demo.addr "state" (power_val ON)
                                       (optionsFields o)) Demo.lightWorld = [c])
    by (rewrite sendCommand_commands; vm_compute; eauto).
  destruct Hc as [c Hc]. exists c.
  assert (Hin : In c (commandsOf (sendCommand Demo.addr "state" (power_val ON)
                                    (optionsFields o)) Demo.lightWorld))
    by (rewrite Hc; left; reflexivity).
  destruct (command_message_options _ _ _ _ _ c Hin) as [Hv [Hm _]].
  split; [|split; [exact Hv|rewrite Hm; vm_compute; reflexivity]].
  rewrite <- Hc. vm_compute. reflexivity.
Defined.

(** ** The default endpoint and the state read *)

(** X21. The endpoint commands and reads go to is the endpoint numbered 1
    when the device has one, and its first endpoint otherwise; there is
    none only for a device without endpoints. On such a device [readState]
    rejects at once, without a query and without touching the cache, and
    on a device with an endpoint it always resolves. *)
Theorem defaultEndpoint_choice (d : Herdsman.Device) :
  (defaultEndpoint d = None <-> Herdsman.endpoints d = [])
  /\ (forall ep, defaultEndpoint d = Some ep ->
        In ep (Herdsman.endpoints d)
        /\ ((exists e, In e (Herdsman.endpoints d) /\ Herdsman.ID e = 1) ->
            Herdsman.ID ep = 1)
        /\ ((forall e, In e (Herdsman.endpoints d) -> Herdsman.ID e <> 1) ->
            head (Herdsman.endpoints d) = Some ep))
  /\ (forall w addr,
        ZigbeeService.getHerdsmanDevice (service w) addr = Some d ->
        (Herdsman.endpoints d = [] ->
         readState addr w = (Rejected (EndpointNotFound addr), w))
        /\ (Herdsman.endpoints d <> [] -> exists st, (readState addr w).1 = Resolved st)).
Proof.
  assert (Hnone : defaultEndpoint d = None <-> Herdsman.endpoints d = []).
  { unfold defaultEndpoint, Herdsman.getEndpoint. split.
    - destruct (List.find _ _) as [e|] eqn:E; [discriminate|].
      destruct (Herdsman.endpoints d); [reflexivity|discriminate].
    - intros ->. reflexivity. }
  split; [exact Hnone|]. split.
  - intros ep. unfold defaultEndpoint, Herdsman.getEndpoint.
    destruct (List.find _ _) as [e|] eqn:E.
    + intros [= <-]. apply find_some in E as [Hin Hid].
      apply Z.eqb_eq in Hid. split; [exact Hin|]. split; [auto|].
      intros Hall. now destruct (Hall e Hin).
    + intros Hh. split; [|split; [|auto]].
      * destruct (Herdsman.endpoints d) as [|x l]; [discriminate|].
        injection Hh as <-. now left.
      * intros [e [Hin Hid]]. pose proof (find_none _ _ E e Hin) as Hn.
        simpl in Hn. apply Z.eqb_neq in Hn. contradiction.
  - intros w addr Hd. unfold readState, bind, gets, require, ret, throw. simpl.
    rewrite Hd. simpl. split.
    + intros He. apply Hnone in He. now rewrite He.
    + intros He.
      assert (Hs : defaultEndpoint d <> None)
        by (intros H; apply Hnone in H; contradiction).
      destruct (defaultEndpoint d) as [ep|]; [|now destruct Hs].
      simpl. unfold tryRead, log_query, bind, ret. simpl.
      destruct (Herdsman.read ep "genOnOff" ["onOff"]);
        destruct (Herdsman.read ep "genLevelCtrl" ["currentLevel"]);
        destruct (Herdsman.read ep "lightingColorCtrl" ["colorTemperature"]);
        simpl; eauto.
Qed.

(** ** Binding between devices *)

Lemma bindEach_calls (accepts : Herdsman.Endpoint -> string -> Herdsman.Endpoint -> bool)
    (source target : string) (se te : Herdsman.Endpoint) (clusters : list string) :
  let r := DeviceOps.bindEach accepts source target se te clusters in
  map DeviceOps.bind_cluster r.2 `prefix_of` clusters
  /\ (r.1 = Resolved tt <-> Forall (fun c => accepts se c te = true) clusters)
  /\ (r.1 = Resolved tt -> map DeviceOps.bind_cluster r.2 = clusters)
  /\ (forall e, r.1 = Rejected e ->
        exists done_ c,
          e = DeviceOps.BindRejected c /\ accepts se c te = false
          /\ map DeviceOps.bind_cluster r.2 = done_ ++ [c]
          /\ Forall (fun c' => accepts se c' te = true) done_).
Proof.
  induction clusters as [|c l IH]; simpl.
  - split; [reflexivity|]. split; [split; [constructor|reflexivity]|].
    split; [reflexivity|discriminate].
  - destruct IH as [Hp [Hiff [Hall Hrej]]].
    destruct (accepts se c te) eqn:Ea; simpl.
    + split; [now apply prefix_cons|]. split; [|split].
      * rewrite Hiff. split; [intros H; now constructor|].
        intros H. now apply Forall_cons_1 in H as [_ H].
      * intros H. f_equal. now apply Hall.
      * intros e He. destruct (Hrej e He) as [done_ [c' [-> [Hc' [Hm Hd]]]]].
        exists (c :: done_), c'. split; [reflexivity|]. split; [exact Hc'|].
        split; [simpl; now rewrite Hm|now constructor].
    + split; [apply prefix_cons, prefix_nil|]. split; [|split].
      * split; [discriminate|]. intros H. apply Forall_cons_1 in H as [H _]. congruence.
      * discriminate.
      * intros e [= <-]. exists [], c. repeat split; [exact Ea|constructor].
Qed.

(** X22. [bind] (and [unbind]) handle the clusters in the order given and
    stop at the first one the endpoint rejects: the calls made are for a
    first part of the list, the call resolves exactly when every cluster is
    accepted, and after a rejection the clusters before the rejected one
    have been bound and stay bound. When a device or an endpoint is
    missing, the call rejects before any binding is attempted. *)
Theorem bind_stops_at_first_rejection
    (accepts : Herdsman.Endpoint -> string -> Herdsman.Endpoint -> bool)
    (svc : ZigbeeService.t) (source target : string) (clusters : list string) :
  map DeviceOps.bind_cluster (DeviceOps.bind accepts svc source target clusters).2
    `prefix_of` clusters
  /\ ((DeviceOps.bind accepts svc source target clusters).1 = Resolved tt ->
      map DeviceOps.bind_cluster (DeviceOps.bind accepts svc source target clusters).2
        = clusters)
  /\ (forall c, (DeviceOps.bind accepts svc source target clusters).1
                = Rejected (DeviceOps.BindRejected c) ->
        exists done_,
          map DeviceOps.bind_cluster
              (DeviceOps.bind accepts svc source target clusters).2 = done_ ++ [c]
          /\ done_ ++ [c] `prefix_of` clusters)
  /\ ((DeviceOps.bind accepts svc source target clusters).1 = Rejected DeviceOps.DeviceMissing
      \/ (DeviceOps.bind accepts svc source target clusters).1
         = Rejected DeviceOps.EndpointMissing ->
      (DeviceOps.bind accepts svc source target clusters).2 = [])
  /\ (ZigbeeService.getHerdsmanDevice svc source = None
      \/ ZigbeeService.getHerdsmanDevice svc target = None ->
      DeviceOps.bind accepts svc source target clusters
        = (Rejected DeviceOps.DeviceMissing, [])).
Proof.
  unfold DeviceOps.bind.
  destruct (ZigbeeService.getHerdsmanDevice svc source) as [sd|];
    [|split; [apply prefix_nil|]; split; [discriminate|]; split; [discriminate|];
      split; reflexivity].
  destruct (ZigbeeService.getHerdsmanDevice svc target) as [td|];
    [|split; [apply prefix_nil|]; split; [discriminate|]; split; [discriminate|];
      split; reflexivity].
  destruct (defaultEndpoint sd) as [se|];
    [|split; [apply prefix_nil|]; split; [discriminate|]; split; [discriminate|];
      split; [reflexivity|intros [|]; discriminate]].
  destruct (defaultEndpoint td) as [te|];
    [|split; [apply prefix_nil|]; split; [discriminate|]; split; [discriminate|];
      split; [reflexivity|intros [|]; discriminate]].
  destruct (bindEach_calls accepts source target se te clusters)
    as [Hp [_ [Hall Hrej]]].
  split; [exact Hp|]. split; [exact Hall|]. split; [|split].
  - intros c Hc. destruct (Hrej _ Hc) as [done_ [c' [[= <-] [_ [Hm _]]]]].
    exists done_. split; [exact Hm|]. now rewrite <- Hm.
  - intros [H|H]; destruct (Hrej _ H) as [done_ [c [Hc _]]]; discriminate.
  - intros [|]; discriminate.
Qed.

(** ** Brightness and color temperature as numbers *)

Lemma round_monotone (x y : Q) : (x <= y)%Q -> Js.round x <= Js.round y.
Proof.
  intros H. unfold Js.round. apply Qfloor_resp_le. now apply Qplus_le_l.
Qed.

Lemma scale_monotone (p q : Q) : (p <= q)%Q -> (p / 100 * 254 <= q / 100 * 254)%Q.
Proof.
  intros H. apply Qmult_le_compat_r; [|discriminate].
  unfold Qdiv. apply Qmult_le_compat_r; [exact H|discriminate].
Qed.

(** X23. For a percentage that is not NaN the native brightness is a
    whole number between 0 and 254 that grows with the percentage; for a
    percentage between 0 and 100 it is [round(p / 100 * 254)] itself,
    nothing being cut off, with 0 sent as 0 and 100 as 254. NaN is not
    brought into the range: the native brightness of NaN is NaN. *)
Theorem clampedBrightness_monotone (p q : Q) :
  (p <= q)%Q ->
  exists a b : Z,
    clampedBrightness (Num p) = Num (inject_Z a)
    /\ clampedBrightness (Num q) = Num (inject_Z b)
    /\ a <= b /\ 0 <= a <= 254
    /\ ((0 <= p)%Q -> (p <= 100)%Q -> a = Js.round (p / 100 * 254))
    /\ clampedBrightness (Num 0) = Num 0 /\ clampedBrightness (Num 100) = Num 254
    /\ clampedBrightness NaN = NaN.
Proof.
  intros H.
  exists (clamp (Js.round (p / 100 * 254)) 0 254), (clamp (Js.round (q / 100 * 254)) 0 254).
  rewrite !clampedBrightness_clamp.
  split; [reflexivity|]. split; [reflexivity|].
  pose proof (round_monotone _ _ (scale_monotone p q H)) as Hpq.
  split; [|split; [apply clamp_range|split; [|repeat split]]].
  - unfold clamp.
    destruct (Z.ltb_spec (Js.round (p / 100 * 254)) 0);
      destruct (Z.ltb_spec 254 (Js.round (p / 100 * 254)));
      destruct (Z.ltb_spec (Js.round (q / 100 * 254)) 0);
      destruct (Z.ltb_spec 254 (Js.round (q / 100 * 254))); lia.
  - intros H0 H100.
    pose proof (round_monotone _ _ (scale_monotone 0 p H0)) as Hlo.
    pose proof (round_monotone _ _ (scale_monotone p 100 H100)) as Hhi.
    change (Js.round (0 / 100 * 254)) with 0 in Hlo.
    change (Js.round (100 / 100 * 254)) with 254 in Hhi.
    unfold clamp.
    destruct (Z.ltb_spec (Js.round (p / 100 * 254)) 0); [lia|].
    destruct (Z.ltb_spec 254 (Js.round (p / 100 * 254))); [lia|reflexivity].
Qed.

Lemma clampedBrightness_monotone_witness :
  exists a b : Z,
    clampedBrightness (Num (61 # 2)) = Num (inject_Z a)
    /\ clampedBrightness (Num 31) = Num (inject_Z b)
    /\ a <= b /\ a = 77.
Proof.
  destruct (clampedBrightness_monotone (61 # 2) 31) as [a [b [Ha [Hb [Hle [_ [Hin _]]]]]]];
    [discriminate|].
  exists a, b. split; [exact Ha|]. split; [exact Hb|]. split; [exact Hle|].
  rewrite Hin; [reflexivity|discriminate|discriminate].
Defined.

(** X24. For an input above 500, read as Kelvin, the native value sent is
    a whole number of mireds between 0 and 2000, and a warmer (lower)
    temperature never gives fewer mireds than a cooler one; nothing clamps
    it to the range of a device. *)
Theorem mireds_kelvin_range (v v' : Q) :
  (500 < v)%Q -> (v <= v')%Q ->
  (exists n : Z, mireds v = inject_Z n /\ 0 <= n <= 2000)
  /\ (mireds v' <= mireds v)%Q.
Proof.
  intros Hv Hvv'.
  assert (Hpos : (0 < v)%Q) by (eapply Qlt_trans; [|exact Hv]; reflexivity).
  assert (Hv' : (500 < v')%Q) by (eapply Qlt_le_trans; eassumption).
  assert (Hpos' : (0 < v')%Q) by (eapply Qlt_trans; [|exact Hv']; reflexivity).
  rewrite (mireds_gt v Hv), (mireds_gt v' Hv'). split.
  - eexists. split; [reflexivity|]. split.
    + change 0 with (Js.round 0). apply round_monotone.
      apply Qlt_le_weak. apply Qlt_shift_div_l; [exact Hpos|reflexivity].
    + assert (Hlt : (1000000 / v < 2000)%Q).
      { apply Qlt_shift_div_r; [exact Hpos|].
        apply (Qle_lt_trans _ (2000 * 500)); [discriminate|].
        apply Qmult_lt_l; [reflexivity|exact Hv]. }
      change 2000 with (Js.round 2000). apply round_monotone. now apply Qlt_le_weak.
  - rewrite <- Zle_Qle. apply round_monotone.
    apply Qle_shift_div_r; [exact Hpos'|].
    apply (Qle_trans _ (1000000 / v * v)).
    + rewrite Qmult_comm, Qmult_div_r; [apply Qle_refl|].
      intros H0. rewrite H0 in Hpos. discriminate.
    + apply Qmult_le_l; [|exact Hvv'].
      apply Qlt_shift_div_l; [exact Hpos|reflexivity].
Qed.

Lemma mireds_kelvin_range_witness :
  (mireds 6500 <= mireds 2700)%Q /\ mireds 2700 = 370%Q.
Proof.
  destruct (mireds_kelvin_range 2700 6500) as [_ H]; [reflexivity|discriminate|].
  split; [exact H|reflexivity].
Defined.

(** ** The configuration loader *)

Section LoadConfig.

Variable trim : string -> string.
Variable parseInt : string -> option Z.
Variable resolvePath : string -> string.
Variable dirname : string -> string.
Variable existsSync : string -> bool.
Variable env : string -> option string.

Lemma optionalEnv_nonempty (key fallback : string) :
  fallback <> "" -> Config.optionalEnv trim env key fallback <> "".
Proof.
  intros Hf. unfold Config.optionalEnv.
  destruct (String.eqb_spec (trim (default "" (env key))) ""); [exact Hf|assumption].
Qed.

(** X25. A configuration that [loadConfig] returns has been validated: the
    serial port is the trimmed value of [ZIGBEE_SERIAL_PORT] and is not
    empty, the baud rate is a positive integer, the adapter is one of the
    six supported ones and the log level is not empty; the directory of the
    database is created exactly when it did not exist. When the serial port
    is missing or blank the loader rejects with that variable's name,
    whatever the other variables are; an unset adapter is ["ember"]. *)
Theorem loadConfig_validated :
  (forall cfg created,
     Config.loadConfig trim parseInt resolvePath dirname existsSync env
       = Resolved (cfg, created) ->
     Config.serialPort cfg <> ""
     /\ (exists value, env "ZIGBEE_SERIAL_PORT" = Some value
                       /\ Config.serialPort cfg = trim value)
     /\ 0 < Config.baudRate cfg
     /\ In (Config.adapter cfg) Config.validAdapters
     /\ Config.logLevel cfg <> ""
     /\ (env "ZIGBEE_ADAPTER" = None -> trim "" = "" -> Config.adapter cfg = "ember")
     /\ created = (if existsSync (dirname (Config.dbPath cfg)) then None
                   else Some (dirname (Config.dbPath cfg))))
  /\ ((env "ZIGBEE_SERIAL_PORT" = None
       \/ exists value, env "ZIGBEE_SERIAL_PORT" = Some value /\ trim value = "") ->
      Config.loadConfig trim parseInt resolvePath dirname existsSync env
        = Rejected (Config.MissingVariable "ZIGBEE_SERIAL_PORT")).
Proof.
  unfold Config.loadConfig, Config.requireEnv. split.
  - intros cfg created.
    destruct (env "ZIGBEE_SERIAL_PORT") as [value|] eqn:Ev; [|discriminate].
    destruct (String.eqb_spec value ""); cbn [orb]; [discriminate|].
    destruct (String.eqb_spec (trim value) "") as [|Ht]; [discriminate|].
    destruct (parseInt _) as [baud|]; [|discriminate].
    destruct (Z.leb_spec baud 0); [discriminate|].
    destruct (existsb (String.eqb (Config.optionalEnv trim env "ZIGBEE_ADAPTER" "ember"))
                      Config.validAdapters) eqn:Ea; cbn [negb]; [|discriminate].
    intros [= <- <-]. cbn [Config.serialPort Config.baudRate Config.adapter
                           Config.dbPath Config.logLevel].
    split; [exact Ht|]. split; [eauto|]. split; [assumption|]. split; [|split; [|split]].
    + apply existsb_exists in Ea as [a [Hin Ha]]. apply String.eqb_eq in Ha.
      now rewrite Ha.
    + apply optionalEnv_nonempty. discriminate.
    + intros Hn Hempty. unfold Config.optionalEnv. rewrite Hn. simpl.
      now rewrite Hempty.
    + reflexivity.
  - intros [->|[value [-> Ht]]]; [reflexivity|]. rewrite Ht.
    now rewrite orb_true_r.
Qed.

End LoadConfig.

Lemma loadConfig_validated_witness :
  exists cfg created,
    Config.loadConfig Dotenv.trim Dotenv.parseInt Dotenv.resolvePath Dotenv.dirname
                      Dotenv.existsSync Dotenv.env = Resolved (cfg, created)
    /\ 0 < Config.baudRate cfg /\ In (Config.adapter cfg) Config.validAdapters.
Proof.
  eexists. eexists. split; [reflexivity|].
  destruct (loadConfig_validated Dotenv.trim Dotenv.parseInt Dotenv.resolvePath
              Dotenv.dirname Dotenv.existsSync Dotenv.env) as [Hok _].
  edestruct Hok as [_ [_ [Hb [Ha _]]]]; [reflexivity|].
  split; [exact Hb|exact Ha].
Defined.

Example loadConfig_defaults :
  Config.loadConfig Dotenv.trim Dotenv.parseInt Dotenv.resolvePath Dotenv.dirname
                    Dotenv.existsSync Dotenv.env
  = Resolved ({| Config.serialPort := "/dev/ttyUSB0"; Config.baudRate := 115200;
                 Config.adapter := "ember"; Config.dbPath := "./data/zigbee.db";
                 Config.logLevel := "info" |}, Some "./data").
Proof. reflexivity. Qed.

(** ** Brightness commands and the stopped service *)

(** X26. For every number [p] that is not NaN, [setBrightness(p)] on a
    device with a converter for the key issues exactly one brightness
    command, whose value is [clamp(round(p / 100 * 254), 0, 254)]; the call
    is rejected only if the converter itself throws on that value, so an
    input outside [0, 100] is clamped (-10 to 0, 150 to 254) and not
    refused. *)
Theorem setBrightness_clamped (w : World) (addr : string) (p : Q) (tr : option Q)
    (ep : Z) (f : Z -> string -> val -> gmap string val -> Zhc.ConvertOutcome) :
  resolve (service w) addr "brightness" = Some (ep, f) ->
  let native := VNum (inject_Z (clamp (Js.round (p / 100 * 254)) 0 254)) in
  commandsOf (setBrightness addr (Num p) tr) w
    = [commandTo addr ep "brightness" native (transitionOptions tr)]
  /\ (forall e, (setBrightness addr (Num p) tr w).1 = Rejected e ->
        exists msg,
          f ep "brightness" native (transitionOptions tr ∪ {["brightness" := native]})
            = Zhc.Throws msg)
  /\ ((setBrightness addr (Num p) tr w).1 = Resolved tt
      \/ exists msg, (setBrightness addr (Num p) tr w).1 = Rejected (ConverterFailure msg))
  /\ clamp (Js.round (-10 / 100 * 254)) 0 254 = 0
  /\ clamp (Js.round (150 / 100 * 254)) 0 254 = 254.
Proof.
  intros H native. unfold setBrightness.
  rewrite sendCommand_commands, H, clampedBrightness_clamp.
  split; [reflexivity|]. split; [|split; [|split; reflexivity]].
  - intros e He.
    destruct (sendCommand_rejected _ _ _ _ w ep f e H He) as [msg [Hm _]].
    exists msg. exact Hm.
  - simpl Js.of_number.
    destruct (sendCommand _ _ _ _ w).1 as [[]|e] eqn:He; [left; reflexivity|right].
    destruct (sendCommand_rejected _ _ _ _ w ep f e H He) as [msg [_ ->]]. eauto.
Qed.

Lemma setBrightness_clamped_witness :
  map kv (commandsOf (setBrightness Demo.addr (Num 150) None) Demo.lightWorld)
    = [("brightness", VNum 254)]
  /\ map kv (commandsOf (setBrightness Demo.addr (Num (-10)) None) Demo.lightWorld)
    = [("brightness", VNum 0)].
Proof.
  split.
  - edestruct (setBrightness_clamped Demo.lightWorld Demo.addr 150 None) as [H _];
      [vm_compute; reflexivity|].
    rewrite H. reflexivity.
  - edestruct (setBrightness_clamped Demo.lightWorld Demo.addr (-10) None) as [H _];
      [vm_compute; reflexivity|].
    rewrite H. reflexivity.
Defined.

(** X27. When [stop] is called on a started service and the controller
    stops without error, the call resolves, the device map, and with it
    every cached state, is empty, [getDevices] lists nothing, and the
    service is no longer started; the controller handle stays. *)
Theorem stop_clears_devices (s : ZigbeeService.t) (c : Herdsman.Controller) :
  ZigbeeService.controller s = Some c ->
  ZigbeeService.isStarted s = true ->
  Herdsman.stop_rejects c = None ->
  (ZigbeeService.stop s).1 = Resolved tt
  /\ ZigbeeService.devices (ZigbeeService.stop s).2 = ∅
  /\ ZigbeeService.getDevices (ZigbeeService.stop s).2 = []
  /\ (forall addr, ZigbeeService.getDevice (ZigbeeService.stop s).2 addr = None)
  /\ ZigbeeService.isStarted (ZigbeeService.stop s).2 = false
  /\ ZigbeeService.controller (ZigbeeService.stop s).2 = Some c.
Proof.
  intros Hc Hs Hr. unfold ZigbeeService.stop. rewrite Hc, Hs, Hr. simpl.
  split; [reflexivity|]. split; [reflexivity|]. split; [reflexivity|]. split.
  - intros addr. unfold ZigbeeService.getDevice. simpl. apply lookup_empty.
  - split; [reflexivity|exact Hc].
Qed.

Lemma stop_clears_devices_witness :
  ZigbeeService.getDevices (service Demo.lightWorld) <> []
  /\ ZigbeeService.getDevices (ZigbeeService.stop (service Demo.lightWorld)).2 = [].
Proof.
  split; [vm_compute; discriminate|].
  apply (stop_clears_devices (service Demo.lightWorld) Demo.radio); reflexivity.
Defined.

(** ** The devices in the order they were filed *)

Lemma keySet_elem (k k' : string) (keys : list string) :
  k' ∈ ZigbeeService.keySet k keys <-> k' = k \/ k' ∈ keys.
Proof.
  unfold ZigbeeService.keySet. case_bool_decide as Hk.
  - split; [auto|]. intros [->|H]; assumption.
  - rewrite elem_of_app, list_elem_of_singleton. tauto.
Qed.

Lemma keySet_NoDup (k : string) (keys : list string) :
  NoDup keys -> NoDup (ZigbeeService.keySet k keys).
Proof.
  intros H. unfold ZigbeeService.keySet. case_bool_decide as Hk; [exact H|].
  apply NoDup_app. split; [exact H|]. split; [|apply NoDup_singleton].
  intros x Hx Hx'. apply list_elem_of_singleton in Hx'. subst. contradiction.
Qed.

Lemma keyDelete_elem (k k' : string) (keys : list string) :
  k' ∈ ZigbeeService.keyDelete k keys <-> k' <> k /\ k' ∈ keys.
Proof.
  unfold ZigbeeService.keyDelete. rewrite !list_elem_of_In, filter_In.
  destruct (String.eqb_spec k' k); simpl; split; intros [H1 H2]; try split;
    congruence || assumption.
Qed.

Lemma keysOf_set (m : gmap string ZigbeeDevice) (keys : list string) (k : string)
    (d : ZigbeeDevice) :
  ServiceStates.keysOf m keys ->
  ServiceStates.keysOf (<[k := d]> m) (ZigbeeService.keySet k keys).
Proof.
  intros [Hn Hk]. split; [now apply keySet_NoDup|].
  intros k'. rewrite keySet_elem, lookup_insert_is_Some, Hk.
  destruct (decide (k = k')) as [->|Hne]; [tauto|]. split.
  - intros [->|H]; [contradiction|auto].
  - intros [->|[_ H]]; [contradiction|auto].
Qed.

Lemma keysOf_delete (m : gmap string ZigbeeDevice) (keys : list string) (k : string) :
  ServiceStates.keysOf m keys ->
  ServiceStates.keysOf (delete k m) (ZigbeeService.keyDelete k keys).
Proof.
  intros [Hn Hk]. split; [unfold ZigbeeService.keyDelete;
                        now apply NoDup_ListNoDup, List.NoDup_filter, NoDup_ListNoDup|].
  intros k'. rewrite keyDelete_elem, lookup_delete_is_Some, Hk.
  split; intros [H1 H2]; split; congruence || assumption.
Qed.

(** Assigning to the device object under a key of the map. *)
Lemma keysOf_assign (m : gmap string ZigbeeDevice) (keys : list string) (k : string)
    (d d' : ZigbeeDevice) :
  m !! k = Some d ->
  ServiceStates.keysOf m keys -> ServiceStates.keysOf (<[k := d']> m) keys.
Proof.
  intros Hd [Hn Hk]. split; [exact Hn|].
  intros k'. rewrite lookup_insert_is_Some, Hk.
  destruct (decide (k = k')) as [<-|Hne]; [rewrite Hd; split; eauto|].
  split; [auto|]. intros [->|[_ H]]; [contradiction|exact H].
Qed.

Lemma keysOf_load (cat : Zhc.Catalog) (l : list Herdsman.Device)
    (m : gmap string ZigbeeDevice) (keys : list string) :
  ServiceStates.keysOf m keys ->
  ServiceStates.keysOf (ZigbeeService.loadDevices cat l m) (ZigbeeService.loadOrder l keys).
Proof.
  revert m keys. induction l as [|x l IH]; intros m keys H; simpl; [exact H|].
  destruct (String.eqb (Herdsman.type x) "Coordinator"); [now apply IH|].
  apply IH. now apply keysOf_set.
Qed.

Lemma keysOf_step (s s' : ZigbeeService.t) :
  ServiceStates.step s s' ->
  ServiceStates.keysOf (ZigbeeService.devices s) (ZigbeeService.order s) ->
  ServiceStates.keysOf (ZigbeeService.devices s') (ZigbeeService.order s').
Proof.
  intros Hstep Hm. destruct Hstep as
    [fresh s|s|permit timeout s|now_ addr partial s|d s|addr s|d status s|d s
    |now_ addr type_ cluster data s|s].
  - unfold ZigbeeService.start. destruct (ZigbeeService.isStarted s); [exact Hm|].
    destruct (Herdsman.start_rejects fresh); simpl; [exact Hm|].
    unfold ZigbeeService.loadExistingDevices. simpl. now apply keysOf_load.
  - unfold ZigbeeService.stop. destruct (ZigbeeService.controller s) as [c|]; [|exact Hm].
    destruct (ZigbeeService.isStarted s); simpl; [|exact Hm].
    destruct (Herdsman.stop_rejects c); simpl; [exact Hm|].
    split; [constructor|]. intros k. rewrite elem_of_nil, lookup_empty.
    split; [intros []|intros [x Hx]; discriminate].
  - unfold ZigbeeService.permitJoin.
    destruct (ZigbeeService.controller s) as [c|]; [|exact Hm].
    destruct (ZigbeeService.isStarted s); simpl; [|exact Hm].
    destruct (Herdsman.permitJoin_rejects c); exact Hm.
  - unfold ZigbeeService.updateDeviceState.
    destruct (ZigbeeService.devices s !! addr) as [d|] eqn:E; [|exact Hm]. simpl.
    now apply (keysOf_assign _ _ addr d).
  - simpl. now apply keysOf_set.
  - simpl. now apply keysOf_delete.
  - unfold ZigbeeService.onDeviceInterview. simpl.
    destruct (String.eqb status "successful"); simpl; [|exact Hm].
    now apply keysOf_set.
  - simpl. now apply keysOf_set.
  - unfold ServiceEvents.onMessage.
    destruct (ZigbeeService.devices s !! addr) as [d|] eqn:E; [|exact Hm]. simpl.
    now apply (keysOf_assign _ _ addr d).
  - exact Hm.
Qed.

(** In every state of the service the key list is the key set of the map,
    and every device is filed under its own address. *)
Lemma reachable_keyed (s : ZigbeeService.t) :
  ServiceStates.reachable s ->
  ServiceStates.keysOf (ZigbeeService.devices s) (ZigbeeService.order s)
  /\ ServiceStates.wellKeyed (ZigbeeService.devices s).
Proof.
  induction 1 as [cat|s s' _ [IHk IHw] Hstep].
  - split.
    + split; [constructor|]. intros k. simpl. rewrite elem_of_nil, lookup_empty.
      split; [intros []|intros [x Hx]; discriminate].
    + intros a d. simpl. rewrite lookup_empty. discriminate.
  - split; [exact (keysOf_step s s' Hstep IHk)|exact (wellKeyed_step s s' Hstep IHw)].
Qed.

(** The addresses of the values listed are the keys listed. *)
Lemma omap_addresses (m : gmap string ZigbeeDevice) (keys : list string) :
  ServiceStates.wellKeyed m ->
  (forall k, k ∈ keys -> is_Some (m !! k)) ->
  map ieeeAddr (omap (fun k => m !! k) keys) = keys.
Proof.
  intros Hw. induction keys as [|k keys IH]; intros Hk; [reflexivity|]. csimpl.
  destruct (Hk k) as [d Hd]; [by left|]. rewrite Hd. simpl.
  destruct (Hw k d Hd) as [-> _]. f_equal. apply IH.
  intros k' Hk'. apply Hk. by right.
Qed.

Lemma omap_insert_fresh (m : gmap string ZigbeeDevice) (keys : list string)
    (k : string) (d : ZigbeeDevice) :
  k ∉ keys ->
  omap (fun k' => <[k := d]> m !! k') keys = omap (fun k' => m !! k') keys.
Proof.
  intros Hk. apply list_omap_ext. apply Forall2_same_length_lookup.
  split; [reflexivity|]. intros i x y Hx Hy. assert (x = y) as <- by congruence.
  apply lookup_insert_ne. intros ->. apply Hk. eapply list_elem_of_lookup_2, Hx.
Qed.

(** Loading devices with addresses of their own, none of them a key yet,
    lists them after the devices already listed, in the order of the
    controller. *)
Lemma load_listing (cat : Zhc.Catalog) (l : list Herdsman.Device)
    (m : gmap string ZigbeeDevice) (keys : list string) :
  NoDup (map Herdsman.ieeeAddr (ServiceStates.paired l)) ->
  (forall k, k ∈ keys -> k ∉ map Herdsman.ieeeAddr (ServiceStates.paired l)) ->
  omap (fun k => ZigbeeService.loadDevices cat l m !! k) (ZigbeeService.loadOrder l keys)
    = omap (fun k => m !! k) keys
      ++ map (ZigbeeService.mapDevice cat) (ServiceStates.paired l).
Proof.
  revert m keys. unfold ServiceStates.paired.
  induction l as [|x l IH]; intros m keys Hn Hk; simpl in *.
  { now rewrite app_nil_r. }
  destruct (String.eqb (Herdsman.type x) "Coordinator") eqn:E; simpl in *;
    [now apply IH|].
  apply NoDup_cons in Hn as [Hx Hn].
  assert (Hfresh : Herdsman.ieeeAddr x ∉ keys).
  { intros Hin. apply (Hk _ Hin). by left. }
  unfold ZigbeeService.keySet. rewrite bool_decide_eq_false_2 by exact Hfresh.
  rewrite IH; [|exact Hn|].
  - rewrite omap_app. csimpl. rewrite lookup_insert_eq. simpl.
    rewrite omap_insert_fresh by exact Hfresh. now rewrite <- app_assoc.
  - intros k Hin. apply elem_of_app in Hin as [Hin|Hin].
    + intros Hk'. apply (Hk k Hin). by right.
    + apply list_elem_of_singleton in Hin as ->. exact Hx.
Qed.

(** X28. [getDevices] lists the devices of the map in the order they were
    first filed. In every state of the service it lists exactly the devices
    of the map, each once. A device that joins under a new address goes
    last; a device that announces itself under an address of the map keeps
    its place; a device that leaves is taken out and the others keep their
    order. After a first [start], the devices listed are those of the
    controller except the coordinator, in the controller's order, when
    these have addresses of their own. *)
Theorem getDevices_insertion_order (s : ZigbeeService.t) :
  ServiceStates.reachable s ->
  (forall d, d ∈ ZigbeeService.getDevices s
             <-> exists a, ZigbeeService.getDevice s a = Some d)
  /\ NoDup (map ieeeAddr (ZigbeeService.getDevices s))
  /\ length (ZigbeeService.getDevices s) = size (ZigbeeService.devices s)
  /\ (forall d, ZigbeeService.getDevice s (Herdsman.ieeeAddr d) = None ->
        ZigbeeService.getDevices (ZigbeeService.onDeviceJoined d s)
          = ZigbeeService.getDevices s
            ++ [ZigbeeService.mapDevice (ZigbeeService.catalog s) d])
  /\ (forall d, is_Some (ZigbeeService.getDevice s (Herdsman.ieeeAddr d)) ->
        map ieeeAddr (ZigbeeService.getDevices (ZigbeeService.onDeviceAnnounce d s))
          = map ieeeAddr (ZigbeeService.getDevices s))
  /\ (forall addr,
        map ieeeAddr (ZigbeeService.getDevices (ZigbeeService.onDeviceLeave addr s))
          = List.filter (fun a => negb (String.eqb a addr))
                        (map ieeeAddr (ZigbeeService.getDevices s)))
  /\ (forall fresh cat,
        Herdsman.start_rejects fresh = None ->
        NoDup (map Herdsman.ieeeAddr (ServiceStates.paired (Herdsman.devices fresh))) ->
        ZigbeeService.getDevices (ZigbeeService.start fresh (ZigbeeService.init cat)).2
          = map (ZigbeeService.mapDevice cat)
                (ServiceStates.paired (Herdsman.devices fresh))).
Proof.
  intros Hr. destruct (reachable_keyed s Hr) as [[Hn Hk] Hw].
  assert (Haddr : forall s', ServiceStates.reachable s' ->
            map ieeeAddr (ZigbeeService.getDevices s') = ZigbeeService.order s').
  { intros s' Hr'. destruct (reachable_keyed s' Hr') as [[_ Hk'] Hw'].
    apply omap_addresses; [exact Hw'|]. intros k. apply Hk'. }
  split; [|split; [|split; [|split; [|split; [|split]]]]].
  - intros d. unfold ZigbeeService.getDevices, ZigbeeService.getDevice.
    rewrite list_elem_of_omap. split.
    + intros [k [_ Hd]]. eauto.
    + intros [a Ha]. exists a. split; [|exact Ha]. apply Hk. eauto.
  - now rewrite (Haddr s Hr).
  - rewrite <- (length_map ieeeAddr), (Haddr s Hr), <- size_dom.
    rewrite <- (size_list_to_set (C := gset string)) by exact Hn.
    f_equal. apply set_eq. intros k.
    now rewrite elem_of_list_to_set, elem_of_dom, Hk.
  - intros d Hd. unfold ZigbeeService.getDevices, ZigbeeService.getDevice in *. simpl.
    assert (Hfresh : Herdsman.ieeeAddr d ∉ ZigbeeService.order s).
    { intros Hin. apply Hk in Hin as [x Hx]. congruence. }
    unfold ZigbeeService.keySet. rewrite bool_decide_eq_false_2 by exact Hfresh.
    rewrite omap_app. csimpl. rewrite lookup_insert_eq. simpl.
    now rewrite omap_insert_fresh by exact Hfresh.
  - intros d Hd. rewrite (Haddr s Hr), Haddr.
    + simpl. unfold ZigbeeService.keySet.
      rewrite bool_decide_eq_true_2; [reflexivity|]. now apply Hk.
    + eapply ServiceStates.reachable_step; [exact Hr|apply ServiceStates.step_announce].
  - intros addr. rewrite (Haddr s Hr), Haddr; [reflexivity|].
    eapply ServiceStates.reachable_step; [exact Hr|apply ServiceStates.step_leave].
  - intros fresh cat Hs Hnd. unfold ZigbeeService.start. simpl. rewrite Hs.
    unfold ZigbeeService.getDevices, ZigbeeService.loadExistingDevices. simpl.
    rewrite load_listing; [reflexivity|exact Hnd|]. intros k Hin.
    apply elem_of_nil in Hin. destruct Hin.
Qed.

Lemma getDevices_insertion_order_witness :
  map ieeeAddr (ZigbeeService.getDevices Site.service)
    = [Demo.addr; "0x00124b0000000002"; "0x00124b0000000003"]
  /\ length (ZigbeeService.getDevices Site.service) = 3%nat.
Proof.
  assert (Hr : ServiceStates.reachable Site.service).
  { eapply ServiceStates.reachable_step;
      [apply (ServiceStates.reachable_init Site.catalog)|].
    apply (ServiceStates.step_start Site.radio). }
  destruct (getDevices_insertion_order Site.service Hr) as [_ [_ [Hlen [_ [_ [_ Hstart]]]]]].
  split.
  - unfold Site.service. rewrite (Hstart Site.radio Site.catalog); [reflexivity|reflexivity|].
    vm_compute. repeat constructor; rewrite ?list_elem_of_In; simpl; intuition discriminate.
  - rewrite Hlen. vm_compute. reflexivity.
Defined.
